(** * VNG report analysis: parser, statistics and cross-file analyzer

  A shallow embedding of the JavaScript modules [parser]
  ([parseVngText]), [statistics] ([calculateStdDev],
  [calculatePercentChange]) and [analyzer] ([runAnalysis]), and the
  properties their specification states about them; then of the rest of
  [statistics] (mean, median, regression line), of the services that
  wrap parser and analyzer in domain models ([parseFile],
  [analyzeFiles]), of the heat map and the trend line of the
  visualization service and of the conversions and counts of the
  application, with the properties the code shows.

  Conventions of the embedding:
  - a JavaScript string is the list of its UTF-16 code units ([jstring]);
  - a JavaScript number is a binary64 float ([float], IEEE arithmetic);
  - a plain object used as a dictionary is a finite map ([gmap]) holding
    its own enumerable properties; its prototype is [Object.prototype],
    taken as the language defines it, with nothing added by other code.
    The [in] operator and the reads of the analyzer see the inherited
    members as the language fixes them. Where the program writes through
    an inherited name (it replaces the prototype of an object, or
    changes a built-in object) or reads a property of a built-in
    function, the outcome of the call says so ([TouchedPrototype]) and
    the embedding follows the program no further, although the program
    goes on: the objects are then no longer dictionaries of this kind.
    The properties are stated for inputs that stay clear of such runs,
    or hold of them as well;
  - the order in which [for ... in] visits the keys of an object is not
    modelled: the maps the functions return do not depend on it;
  - a [Set] of strings is the list of its elements in insertion order;
  - an instance of a class of the domain models is the record of the
    properties its constructor sets; [new Date()] reads a clock, whose
    value the embedding takes as an argument. *)

From Stdlib Require Import ZArith NArith Lia String Ascii.
From Stdlib Require Import PrimFloat SpecFloat FloatOps.
From stdpp Require Import gmap list sorting.

Set Warnings "-inexact-float".

(* ===================================================================== *)
(** * The JavaScript primitives the program relies on                    *)
(* ===================================================================== *)

Module JS.

(** A UTF-16 code unit. *)
Abbreviation jchar := N (only parsing).
Abbreviation jstring := (list N) (only parsing).

(** ASCII literals: [js "Gain"] is the JavaScript string ["Gain"]. *)
Definition js (s : string) : jstring :=
  map N_of_ascii (list_ascii_of_string s).

(** ** Outcomes of running a function

    [Returned a]: normal completion with result [a]; only objects
    created by the call were touched.
    [Threw]: a [TypeError] is thrown.
    [TouchedPrototype]: the embedding stops here, the program does not.
    The next step is an assignment to ["__proto__"], which stores no
    entry and replaces the prototype of the object (whose inherited
    properties a later [for ... in] or read would see); or an assignment
    on a built-in object that an inherited name resolves to, shared by
    the whole program; or a read of a property of a built-in function,
    which depends on the engine. None of these is a dictionary of own
    properties under [Object.prototype], and no result is given for the
    run. *)
Inductive outcome (A : Type) : Type :=
| Returned (a : A)
| Threw
| TouchedPrototype.
Arguments Returned {A} a.
Arguments Threw {A}.
Arguments TouchedPrototype {A}.

Definition bind {A B} (o : outcome A) (k : A -> outcome B) : outcome B :=
  match o with
  | Returned a => k a
  | Threw => Threw
  | TouchedPrototype => TouchedPrototype
  end.

(** A [for (const x of xs)] loop whose body may end the call. *)
Fixpoint forOf {A S} (body : S -> A -> outcome S) (xs : list A) (s : S)
  : outcome S :=
  match xs with
  | [] => Returned s
  | x :: xs' => bind (body s x) (forOf body xs')
  end.

(** ** Strings *)

(** WhiteSpace and LineTerminator code points: what [trim] strips and
    what [\s] matches. *)
Definition isWhiteSpace (c : jchar) : bool :=
  ((9 <=? c) && (c <=? 13) || (c =? 32) || (c =? 160) || (c =? 5760)
   || (8192 <=? c) && (c <=? 8202) || (c =? 8232) || (c =? 8233)
   || (c =? 8239) || (c =? 8287) || (c =? 12288) || (c =? 65279))%N.

Fixpoint trimStart (s : jstring) : jstring :=
  match s with
  | c :: s' => if isWhiteSpace c then trimStart s' else s
  | [] => []
  end.

Definition trimEnd (s : jstring) : jstring := rev (trimStart (rev s)).

Definition trim (s : jstring) : jstring := trimEnd (trimStart s).

Fixpoint startsWith (s t : jstring) {struct t} : bool :=
  match t, s with
  | [], _ => true
  | d :: t', c :: s' => (c =? d)%N && startsWith s' t'
  | _ :: _, [] => false
  end.

Definition endsWith (s t : jstring) : bool := startsWith (rev s) (rev t).

Fixpoint includes (s t : jstring) : bool :=
  startsWith s t ||
  match s with
  | _ :: s' => includes s' t
  | [] => false
  end.

(** [s.indexOf(c)] for a one-character needle; [None] is [-1]. *)
Fixpoint indexOf (s : jstring) (c : jchar) : option nat :=
  match s with
  | [] => None
  | d :: s' => if (d =? c)%N then Some 0 else S <$> indexOf s' c
  end.

(** [s.substring(0, i)] for [0 <= i]. *)
Definition substring0 (s : jstring) (i : nat) : jstring := take i s.

(** [s.slice(0, -n)]. *)
Definition sliceEnd (s : jstring) (n : nat) : jstring :=
  take (length s - n) s.

(** [s.split(sep)] for the one-character separator [sep]. *)
Fixpoint splitChar (sep : jchar) (cur : jstring) (s : jstring)
  : list jstring :=
  match s with
  | [] => [rev cur]
  | c :: s' =>
      if (c =? sep)%N then rev cur :: splitChar sep [] s'
      else splitChar sep (c :: cur) s'
  end.

Definition lines (text : jstring) : list jstring := splitChar 10 [] text.

(** [s.split('::')]: cut at each leftmost occurrence of two colons. *)
Fixpoint splitColons (cur : jstring) (s : jstring) : list jstring :=
  match s with
  | [] => [rev cur]
  | c :: s' =>
      match s' with
      | d :: s'' =>
          if ((c =? 58) && (d =? 58))%N then rev cur :: splitColons [] s''
          else splitColons (c :: cur) s'
      | [] => splitColons (c :: cur) s'
      end
  end.

(** The line feed, to write texts of several lines. *)
Definition LF : jstring := [10%N].

(** ** Numbers *)

(** [ToNumber] rounding of the positive rational [num / den] to the
    nearest binary64 value, ties to even. *)
Definition roundRatio (neg : bool) (num den : positive) : float :=
  SF2Prim (SFdiv prec emax (S754_finite neg num 0) (S754_finite false den 0)).

(** The number of an array length. *)
Definition ofNat (n : nat) : float :=
  SF2Prim (binary_normalize prec emax (Z.of_nat n) 0 false).

(** The number denoted by [mant * 10^exp10], with sign [neg]. *)
Definition decimalValue (neg : bool) (mant : Z) (exp10 : Z) : float :=
  match mant with
  | Zpos m =>
      if (0 <=? exp10)%Z
      then roundRatio neg (m * Z.to_pos (10 ^ exp10)) 1
      else roundRatio neg m (Z.to_pos (10 ^ (- exp10)))
  | _ => if neg then neg_zero else zero
  end.

Definition isDigit (c : jchar) : bool := ((48 <=? c) && (c <=? 57))%N.

Fixpoint span (p : jchar -> bool) (s : jstring) : jstring * jstring :=
  match s with
  | c :: s' =>
      if p c then let '(a, b) := span p s' in (c :: a, b) else ([], s)
  | [] => ([], [])
  end.

Definition digitsValue (ds : jstring) : Z :=
  foldl (fun acc d => 10 * acc + (Z.of_N d - 48))%Z 0%Z ds.

(** ExponentPart of a StrDecimalLiteral; [0] when there is none. *)
Definition exponentPart (s : jstring) : Z :=
  match s with
  | c :: r =>
      if ((c =? 101) || (c =? 69))%N then
        let '(eneg, r') :=
          match r with
          | 45%N :: t => (true, t)
          | 43%N :: t => (false, t)
          | _ => (false, r)
          end in
        let '(ds, _) := span isDigit r' in
        match ds with
        | [] => 0%Z
        | _ => if eneg then (- digitsValue ds)%Z else digitsValue ds
        end
      else 0%Z
  | [] => 0%Z
  end.

(** [parseFloat(s)]: the value of the longest prefix of [s], after
    leading white space, that is a StrDecimalLiteral, rounded to the
    nearest number; [NaN] when there is no such prefix. *)
Definition parseFloat (s : jstring) : float :=
  let s0 := trimStart s in
  let '(neg, s1) :=
    match s0 with
    | 45%N :: r => (true, r)
    | 43%N :: r => (false, r)
    | _ => (false, s0)
    end in
  if startsWith s1 (js "Infinity")
  then (if neg then neg_infinity else infinity)
  else
    let '(ip, s2) := span isDigit s1 in
    let '(fp, s3) :=
      match s2 with
      | 46%N :: r => span isDigit r
      | _ => ([], s2)
      end in
    match ip, fp with
    | [], [] => nan
    | _, _ =>
        decimalValue neg (digitsValue (ip ++ fp))
                     (exponentPart s3 - Z.of_nat (length fp))
    end.

Definition isNaN (x : float) : bool := is_nan x.

(** A value that is a number, [null] or [undefined]. *)
Inductive numeric : Type :=
| null
| undefined
| num (x : float).

(** [ToNumber] on such a value. *)
Definition ToNumber (v : numeric) : float :=
  match v with
  | null => zero
  | undefined => nan
  | num x => x
  end.

(** [a[i]] on an array of numbers: [undefined] out of range. *)
Definition at_index (a : list float) (i : nat) : numeric :=
  match a !! i with
  | Some x => num x
  | None => undefined
  end.

(** ** Plain objects and [Object.prototype] *)

(** The property names every plain object inherits. *)
Definition ObjectPrototype_names : list jstring :=
  map js [ "constructor"; "__defineGetter__"; "__defineSetter__";
           "hasOwnProperty"; "__lookupGetter__"; "__lookupSetter__";
           "isPrototypeOf"; "propertyIsEnumerable"; "toString";
           "valueOf"; "__proto__"; "toLocaleString" ]%string.

Definition inherited (k : jstring) : bool :=
  bool_decide (k ∈ ObjectPrototype_names).

Definition proto : jstring := js "__proto__".

(** [k in o] for a plain object with own properties [o]. *)
Definition has_property {V} (k : jstring) (o : gmap jstring V) : bool :=
  bool_decide (is_Some (o !! k)) || inherited k.

(** [o[k] = v] on a plain object created by the call. Every inherited
    name except ["__proto__"] is a writable data property, so the
    assignment creates an own property; ["__proto__"] runs the setter,
    which replaces the prototype of [o] and stores nothing: the program
    goes on with an object that is not a dictionary under
    [Object.prototype], which the embedding does not follow. *)
Definition assign {V} (o : gmap jstring V) (k : jstring) (v : V)
  : outcome (gmap jstring V) :=
  if bool_decide (k = proto) then TouchedPrototype
  else Returned (<[k := v]> o).

(** [[
    if (!(k in o)) { o[k] = {}; }
    o[k][m] = v;
    ]]
    on a dictionary [o] of dictionaries created by the call. When [k] is
    not an own property but [in] finds it on [Object.prototype], no object
    is created and the assignment goes to what [o[k]] inherits:
    [Object.prototype] itself for ["__proto__"] (whose own ["__proto__"]
    setter throws, the prototype of [Object.prototype] being immutable),
    one of its methods otherwise. *)
Definition storeEntry {V} (o : gmap jstring (gmap jstring V))
    (k m : jstring) (v : V) : outcome (gmap jstring (gmap jstring V)) :=
  bind (if has_property k o then Returned o else assign o k ∅)
    (fun o =>
       match o !! k with
       | Some inner =>
           bind (assign inner m v) (fun inner => Returned (<[k := inner]> o))
       | None =>
           if bool_decide (k = proto) && bool_decide (m = proto)
           then Threw
           else TouchedPrototype
       end).

(** The own entry [o[k][m]] of a dictionary of dictionaries. *)
Definition entry {V} (o : gmap jstring (gmap jstring V)) (k m : jstring)
  : option V :=
  o !! k ≫= (fun inner => inner !! m).

(** The property key of [undefined]. *)
Definition undefinedKey : jstring := js "undefined".

(** Sets of strings, in insertion order. *)
Definition Set_has (s : list jstring) (x : jstring) : bool :=
  bool_decide (x ∈ s).

Definition Set_add (s : list jstring) (x : jstring) : list jstring :=
  if Set_has s x then s else s ++ [x].

(** [o[k][m] = v] on a dictionary of dictionaries created by the call.
    When [k] is not an own property the assignment goes to what [o[k]]
    inherits, as in [storeEntry]; it is a [TypeError] when [o[k]] is
    [undefined]. *)
Definition assignInner {V} (o : gmap jstring (gmap jstring V))
    (k m : jstring) (v : V) : outcome (gmap jstring (gmap jstring V)) :=
  match o !! k with
  | Some inner =>
      bind (assign inner m v) (fun inner => Returned (<[k := inner]> o))
  | None =>
      if inherited k
      then (if bool_decide (k = proto) && bool_decide (m = proto)
            then Threw
            else TouchedPrototype)
      else Threw
  end.

(** [Object.entries(o)], [Object.keys(o)] and [Object.values(o)] of a
    dictionary. The order of the array is not modelled: the callers
    build maps and counts from it, or sort it. *)
Definition Object_entries {V} (o : gmap jstring V) : list (jstring * V) :=
  map_to_list o.

Definition Object_keys {V} (o : gmap jstring V) : list jstring :=
  (Object_entries o).*1.

Definition Object_values {V} (o : gmap jstring V) : list V :=
  (Object_entries o).*2.

(** [xs.map(f)] for a callback that may end the call. *)
Fixpoint Array_map {A B} (f : A -> outcome B) (xs : list A)
  : outcome (list B) :=
  match xs with
  | [] => Returned []
  | x :: xs' =>
      bind (f x) (fun y => bind (Array_map f xs') (fun ys => Returned (y :: ys)))
  end.

(** [x < y] on strings: the order of their code units. *)
Fixpoint String_lt (x y : jstring) : bool :=
  match x, y with
  | _, [] => false
  | [], _ :: _ => true
  | c :: x', d :: y' => (c <? d)%N || ((c =? d)%N && String_lt x' y')
  end.

(** [array.sort()] on strings: ascending by [<], equal strings in
    their former order, which is what insertion gives. *)
Fixpoint insertString (x : jstring) (sorted : list jstring) : list jstring :=
  match sorted with
  | [] => [x]
  | y :: rest =>
      if String_lt x y then x :: sorted else y :: insertString x rest
  end.

Definition Array_sortStrings (array : list jstring) : list jstring :=
  foldl (fun sorted x => insertString x sorted) [] array.

End JS.

Import JS.

(* ===================================================================== *)
(** * utils/statistics                                                   *)
(* ===================================================================== *)

Module Statistics.

(** [values.filter(v => v !== null && v !== undefined && !isNaN(v))]. *)
Definition validValues (values : list numeric) : list float :=
  omap (fun v => match v with
                 | num x => if isNaN x then None else Some x
                 | _ => None
                 end) values.

(** [Math.pow(x, 2)]. ECMAScript leaves the precision of [Math.pow] to
    the implementation; the square is taken as the correctly rounded
    product. *)
Definition Math_pow2 (x : float) : float := (x * x)%float.

Definition calculateStdDev (values : list numeric) : float :=
  if bool_decide (length values < 2) then zero
  else
    let validValues := validValues values in
    if bool_decide (length validValues < 2) then zero
    else
      let mean :=
        (foldl (fun sum val => sum + val) zero validValues
         / ofNat (length validValues))%float in
      let variance :=
        (foldl (fun sum val => sum + Math_pow2 (val - mean)) zero validValues
         / (ofNat (length validValues) - 1))%float in
      sqrt variance.

Definition calculatePercentChange (baseline newValue : numeric)
  : option float :=
  match baseline, newValue with
  | num b, num n =>
      if (b =? 0)%float
      then (if (n =? 0)%float then Some zero else None)
      else Some (((n - b) / b) * 100)%float
  | _, _ => None
  end.

(** The statistics as the specification words them. *)
Definition sum (xs : list float) : float :=
  foldl (fun acc x => acc + x)%float zero xs.

Definition mean (xs : list float) : float :=
  (sum xs / ofNat (length xs))%float.

Definition squaredDeviations (xs : list float) : list float :=
  (fun x => (x - mean xs) * (x - mean xs))%float <$> xs.

Definition sampleVariance (xs : list float) : float :=
  (sum (squaredDeviations xs) / (ofNat (length xs) - 1))%float.

(** [calculateMean(values)] *)
Definition calculateMean (values : list numeric) : float :=
  if bool_decide (length values = 0) then zero
  else
    let validValues := validValues values in
    if bool_decide (length validValues = 0) then zero
    else
      (foldl (fun sum val => sum + val) zero validValues
       / ofNat (length validValues))%float.

(** [(a, b) => a - b] *)
Definition ascending (a b : float) : float := (a - b)%float.

(** [array.sort(comparefn)] on numbers. The language asks for a stable
    sort whenever the comparator orders the elements consistently, as
    [a - b] does on numbers other than [NaN]; such a sort puts each element
    behind those that do not compare greater, which is insertion. *)
Fixpoint sortInsert (comparefn : float -> float -> float) (x : float)
    (sorted : list float) : list float :=
  match sorted with
  | [] => [x]
  | y :: rest =>
      if (0 <? comparefn y x)%float then x :: sorted
      else y :: sortInsert comparefn x rest
  end.

Definition Array_sort (comparefn : float -> float -> float)
    (array : list float) : list float :=
  foldl (fun sorted x => sortInsert comparefn x sorted) [] array.

(** [calculateMedian(values)]; the indices it reads are in range. *)
Definition calculateMedian (values : list numeric) : float :=
  if bool_decide (length values = 0) then zero
  else
    let validValues := Array_sort ascending (validValues values) in
    if bool_decide (length validValues = 0) then zero
    else
      let mid := length validValues / 2 in
      if bool_decide (length validValues mod 2 = 0)
      then ((ToNumber (at_index validValues (mid - 1))
             + ToNumber (at_index validValues mid)) / 2)%float
      else ToNumber (at_index validValues mid).

(** [Array.from({length: n}, (_, i) => i)] *)
Definition indices (n : nat) : list float := ofNat <$> seq 0 n.

(** The points [[x, y]] whose [y] is a number other than [NaN]. *)
Definition validPoints (xValues : list float) (yValues : list numeric)
  : list (float * float) :=
  omap (fun xy : float * numeric =>
          match xy.2 with
          | num y => if isNaN y then None else Some (xy.1, y)
          | _ => None
          end)
       (zip xValues yValues).

(** [calculateLinearRegression(yValues)]: an array of numbers, or of
    [null]s. *)
Definition calculateLinearRegression (yValues : list numeric)
  : list numeric :=
  if bool_decide (length yValues < 2) then []
  else
    let n := length yValues in
    let xValues := indices n in
    let validPoints := validPoints xValues yValues in
    if bool_decide (length validPoints < 2) then replicate n null
    else
      let '(sumX, sumY, sumXY, sumXX) :=
        foldl (fun sums xy =>
                 let '(sumX, sumY, sumXY, sumXX) := sums in
                 let '(x, y) := xy in
                 (sumX + x, sumY + y, sumXY + x * y, sumXX + x * x)%float)
              (zero, zero, zero, zero) validPoints in
      let vn := ofNat (length validPoints) in
      let denominator := (vn * sumXX - sumX * sumX)%float in
      let '(slope, intercept) :=
        if (denominator =? 0)%float then (zero, (sumY / vn)%float)
        else
          let slope := ((vn * sumXY - sumX * sumY) / denominator)%float in
          (slope, ((sumY - slope * sumX) / vn)%float) in
      (fun x => num (slope * x + intercept)%float) <$> xValues.

End Statistics.

Import Statistics.

(* ===================================================================== *)
(** * modules/parser                                                     *)
(* ===================================================================== *)

Module Parser.

(** What a caller may pass as [text]. *)
Inductive argument : Type :=
| NotAString
| Text (s : jstring).

(** [{ 'value': value, 'isFlagged': isFlagged }] *)
Record MetricReading : Type := { value : float; isFlagged : bool }.

(** [{category: {metric: {value, isFlagged}}}] *)
Abbreviation Metrics := (gmap jstring MetricReading) (only parsing).
Abbreviation DataMap := (gmap jstring (gmap jstring MetricReading))
  (only parsing).

(** ** [valueRegex = /: ([\d.-]+)[\s%a-zA-Z]*?(\| FLAG)?$/] *)

(** [[\d.-]] *)
Definition isNumberChar (c : jchar) : bool :=
  (isDigit c || (c =? 46) || (c =? 45))%N.

(** [[\s%a-zA-Z]] *)
Definition isNoiseChar (c : jchar) : bool :=
  (isWhiteSpace c || (c =? 37)
   || (97 <=? c) && (c <=? 122) || (65 <=? c) && (c <=? 90))%N.

Definition FLAG : jstring := js "| FLAG".

(** [[\s%a-zA-Z]*?(\| FLAG)?$]: the lazy star stops at the first position
    where the rest of the line is the marker ([Some true]: group 2 took
    part) or is empty ([Some false]). *)
Fixpoint valueRegex_tail (s : jstring) : option bool :=
  if bool_decide (s = FLAG) then Some true
  else
    match s with
    | [] => Some false
    | c :: s' => if isNoiseChar c then valueRegex_tail s' else None
    end.

(** [([\d.-]+)] and what follows: the greedy plus first takes one more
    character and gives it back when the rest fails. *)
Fixpoint valueRegex_number (s : jstring) : option (jstring * bool) :=
  match s with
  | c :: s' =>
      if isNumberChar c then
        match valueRegex_number s' with
        | Some (token, flag) => Some (c :: token, flag)
        | None => (fun flag => ([c], flag)) <$> valueRegex_tail s'
        end
      else None
  | [] => None
  end.

(** [valueRegex.exec(s)]: the match at the leftmost position that has one,
    as [(match[1], match[2] !== undefined)]. *)
Fixpoint valueRegex_exec (s : jstring) : option (jstring * bool) :=
  match s with
  | [] => None
  | _ :: s' =>
      match (if startsWith s (js ": ")
             then valueRegex_number (drop 2 s) else None) with
      | Some m => Some m
      | None => valueRegex_exec s'
      end
  end.

Definition valueRegex_test (s : jstring) : bool :=
  bool_decide (is_Some (valueRegex_exec s)).

(** ** [/\s*\([^)]+\)$/] *)

(** [[^)]+\)$] *)
Fixpoint parenRegex_inside (s : jstring) : bool :=
  match s with
  | c :: s' =>
      negb (c =? 41)%N && (parenRegex_inside s' || bool_decide (s' = [41%N]))
  | [] => false
  end.

(** [\s*\([^)]+\)$] at the start of [s] *)
Fixpoint parenRegex_at (s : jstring) : bool :=
  match s with
  | c :: s' =>
      isWhiteSpace c && parenRegex_at s' || (c =? 40)%N && parenRegex_inside s'
  | [] => false
  end.

(** [s.replace(/\s*\([^)]+\)$/, '')]: the leftmost match runs to the end
    of [s], so what is left is the part before it. *)
Fixpoint removeTrailingParens (s : jstring) : jstring :=
  if parenRegex_at s then []
  else
    match s with
    | c :: s' => c :: removeTrailingParens s'
    | [] => []
    end.

(** ** [parseVngText] *)

(** The variables of the loop. *)
Record State : Type := { dataMap : DataMap; currentCategory : jstring }.

(** [trimmedLine.substring(0, colonIndex).trim()], then
    [.replace(/\s*\([^)]+\)$/, '').trim()]. *)
Definition metricNameOf (trimmedLine : jstring) (colonIndex : nat) : jstring :=
  let metricName := trim (substring0 trimmedLine colonIndex) in
  trim (removeTrailingParens metricName).

(** [trimmedLine.slice(0, -1).trim()], then without a final [" //"]. *)
Definition categoryOf (trimmedLine : jstring) : jstring :=
  let currentCategory := trim (sliceEnd trimmedLine 1) in
  if endsWith currentCategory (js " //")
  then trim (sliceEnd currentCategory 3)
  else currentCategory.

(** [match && match[1]] *)
Definition matched (m : option (jstring * bool)) : option (jstring * bool) :=
  match m with
  | Some (_ :: _, _) => m
  | _ => None
  end.

(** The body of [for (const line of lines)]. ([parseFloat] does not
    throw: the [catch] around it is never entered.) *)
Definition processLine (st : State) (line : jstring) : outcome State :=
  let trimmedLine := trim line in
  match trimmedLine with
  | [] => Returned st
  | _ :: _ =>
      match matched (valueRegex_exec trimmedLine) with
      | Some (token, flag) =>
          let value := parseFloat token in
          if isNaN value then Returned st
          else
            let isFlagged := flag in
            match indexOf trimmedLine 58 with
            | None => Returned st
            | Some colonIndex =>
                let metricName := metricNameOf trimmedLine colonIndex in
                bind (storeEntry (dataMap st) (currentCategory st) metricName
                        {| value := value; isFlagged := isFlagged |})
                  (fun dataMap =>
                     Returned {| dataMap := dataMap;
                                 currentCategory := currentCategory st |})
            end
      | None =>
          if endsWith trimmedLine (js ":") && negb (valueRegex_test trimmedLine)
          then
            if negb (includes trimmedLine (js "Summary of Flagged Findings"))
            then Returned {| dataMap := dataMap st;
                             currentCategory := categoryOf trimmedLine |}
            else Returned st
          else Returned st
      end
  end.

Definition parseLines (st : State) (lines : list jstring) : outcome State :=
  forOf processLine lines st.

Definition initial : State :=
  {| dataMap := ∅; currentCategory := js "General" |}.

Definition parseVngText (text : argument) : outcome DataMap :=
  match text with
  | NotAString | Text [] => Returned ∅
  | Text text =>
      bind (parseLines initial (lines text)) (fun st => Returned (dataMap st))
  end.

End Parser.

Import Parser.

(* ===================================================================== *)
(** * modules/analyzer                                                   *)
(* ===================================================================== *)

Module Analyzer.

(** [{'name': string, 'data': {category: {metric: {value, isFlagged}}}}] *)
Record FileData : Type := { name : jstring; data : DataMap }.

(** [{values, flags, delta, stdDev, percentChange}]. An entry of
    [values] is a number or [undefined]; an entry of [flags] is a boolean
    or [undefined] ([None]). *)
Record MetricSeries : Type := {
  values : list numeric;
  flags : list (option bool);
  delta : option float;
  stdDev : option float;
  percentChange : option float
}.

Abbreviation Results := (gmap jstring (gmap jstring MetricSeries))
  (only parsing).

(** [`${category}::${metric}`] *)
Definition pairKey (category metric : jstring) : jstring :=
  category ++ js "::" ++ metric.

(** [[
    for (const category in map)
      for (const metric in map[category])
        pairs.add(`${category}::${metric}`);
    ]] *)
Definition pairsOf (map : DataMap) : list jstring :=
  foldl (fun pairs '(category, metrics) =>
           foldl (fun pairs '(metric, _) =>
                    Set_add pairs (pairKey category metric))
                 pairs (map_to_list metrics))
        [] (map_to_list map).

(** The body of [for (let i = 1; i < fileDataList.length; i++)]. *)
Definition keepCommon (commonPairs : list jstring) (fileData : FileData)
  : list jstring :=
  let filePairs := pairsOf (data fileData) in
  let newCommonPairs :=
    foldl (fun new pair => if Set_has filePairs pair then Set_add new pair
                           else new)
          [] commonPairs in
  foldl Set_add [] newCommonPairs.

(** What [fileData['data'][category][metric]] is, as far as the loop
    tells: an own entry (an object, hence truthy); a member of
    [Object.prototype] that the object inherits (a function, or for
    ["__proto__"] the prototype itself: truthy, with no property [value]
    or [isFlagged]); or a falsy value ([undefined], [null]). *)
Inductive found : Type :=
| OwnEntry (metricData : MetricReading)
| InheritedMember
| Nothing.

(** [fileData['data'] && fileData['data'][category] &&
    fileData['data'][category][metric]], then [metricData]. A name that
    is not an own property is looked up on [Object.prototype]. There
    [data["__proto__"]] is [Object.prototype] itself, whose own
    ["__proto__"] reads [null]; the other inherited categories are
    built-in functions, whose properties the embedding does not list. *)
Definition readMetric (fileData : FileData) (category metric : jstring)
  : outcome found :=
  match data fileData !! category with
  | Some metrics =>
      match metrics !! metric with
      | Some metricData => Returned (OwnEntry metricData)
      | None =>
          Returned (if inherited metric then InheritedMember else Nothing)
      end
  | None =>
      if bool_decide (category = proto)
      then Returned (if inherited metric && negb (bool_decide (metric = proto))
                     then InheritedMember else Nothing)
      else if inherited category then TouchedPrototype
      else Returned Nothing
  end.

(** The body of [for (const fileData of fileDataList)]: push
    [metricData['value']] and [metricData['isFlagged']], or [continue]. *)
Definition pushMetric (category metric : jstring)
    (acc : list numeric * list (option bool)) (fileData : FileData)
  : outcome (list numeric * list (option bool)) :=
  let '(values, flags) := acc in
  bind (readMetric fileData category metric)
    (fun found =>
       match found with
       | OwnEntry metricData =>
           Returned (values ++ [num (value metricData)],
                     flags ++ [Some (isFlagged metricData)])
       | InheritedMember =>
           Returned (values ++ [undefined], flags ++ [None])
       | Nothing => Returned (values, flags)
       end).

Definition collect (fileDataList : list FileData) (category metric : jstring)
  : outcome (list numeric * list (option bool)) :=
  forOf (pushMetric category metric) fileDataList ([], []).

(** [values[i]]: [undefined] out of range. *)
Definition item (values : list numeric) (i : nat) : numeric :=
  default undefined (values !! i).

(** The statistics of one series and the object that holds them, for
    [count = fileDataList.length]: what the loop body computes between the
    length check and the assignment into [results]. *)
Definition seriesFor (count : nat) (values : list numeric)
    (flags : list (option bool)) : MetricSeries :=
  let delta :=
    if bool_decide (count = 2)
    then Some (ToNumber (item values 1) - ToNumber (item values 0))%float
    else None in
  let percentChange :=
    if bool_decide (count = 2)
    then calculatePercentChange (item values 0) (item values 1)
    else None in
  let stdDev :=
    if bool_decide (2 ≤ count)
    then Some (calculateStdDev values)
    else None in
  {| values := values; flags := flags; delta := delta;
     stdDev := stdDev; percentChange := percentChange |}.

(** The body of [for (const pair of commonPairs)]. *)
Definition processPair (fileDataList : list FileData) (results : Results)
    (pair : jstring) : outcome Results :=
  let parts := splitColons [] pair in
  let category := nth 0 parts undefinedKey in
  let metric := nth 1 parts undefinedKey in
  bind (collect fileDataList category metric)
    (fun '(values, flags) =>
       if bool_decide (length values ≠ length fileDataList)
       then Returned results
       else
         storeEntry results category metric
           (seriesFor (length fileDataList) values flags)).

Definition runAnalysis (fileDataList : list FileData) : outcome Results :=
  match fileDataList with
  | [] => Returned ∅
  | first :: rest =>
      let commonPairs := foldl keepCommon (pairsOf (data first)) rest in
      forOf (processPair fileDataList) commonPairs ∅
  end.

End Analyzer.

Import Analyzer.

(* ===================================================================== *)
(** * domain/models and domain/exceptions                                *)
(* ===================================================================== *)

Module Domain.

(** [new Date()]: milliseconds since the epoch, read from the clock. *)
Abbreviation Date := Z (only parsing).

Record MetricValue : Type := { value : float; isFlagged : bool }.

Record MetricData : Type := {
  values : list numeric;
  flags : list (option bool);
  delta : option float;
  percentChange : option float;
  stdDev : option float
}.

Record ParsedFile : Type := {
  name : jstring;
  data : gmap jstring (gmap jstring MetricValue);
  uploadedAt : Date;
  sizeBytes : float
}.

(** [new ParsedFile(name, data, sizeBytes = 0)], at time [now]. *)
Definition new_ParsedFile (now : Date) (name : jstring)
    (data : gmap jstring (gmap jstring MetricValue))
    (sizeBytes : option float) : ParsedFile :=
  {| name := name; data := data; uploadedAt := now;
     sizeBytes := default zero sizeBytes |}.

Record AnalysisResult : Type := {
  category : jstring;
  metrics : gmap jstring MetricData
}.

Record AnalysisResults : Type := {
  results : gmap jstring AnalysisResult;
  fileCount : nat;
  totalMetrics : nat;
  createdAt : Date
}.

(** [new AnalysisResults(results, fileCount, totalMetrics)], at time
    [now]. *)
Definition new_AnalysisResults (now : Date)
    (results : gmap jstring AnalysisResult) (fileCount totalMetrics : nat)
  : AnalysisResults :=
  {| results := results; fileCount := fileCount;
     totalMetrics := totalMetrics; createdAt := now |}.

(** The errors the services throw. *)
Inductive VNGError : Type :=
| ParsingError (message : jstring)
| AnalysisError (message : jstring).

(** How a call of a service ends: with a result, with one of the errors
    above, or outside the tracked objects (see [TouchedPrototype]). *)
Inductive completion (A : Type) : Type :=
| Normal (a : A)
| Throw (e : VNGError)
| Untracked.
Arguments Normal {A} a.
Arguments Throw {A} e.
Arguments Untracked {A}.

(** [try { body } catch (error) { throw wrap(error.message) }], where
    [typeErrorMessage] is the message the engine gives its [TypeError]. *)
Definition tryCatch {A} (typeErrorMessage : jstring)
    (wrap : jstring -> VNGError) (body : outcome A) : completion A :=
  match body with
  | Returned a => Normal a
  | Threw => Throw (wrap typeErrorMessage)
  | TouchedPrototype => Untracked
  end.

End Domain.

(* ===================================================================== *)
(** * services/parsingService                                            *)
(* ===================================================================== *)

Module ParsingService.

(** [ParsingService.parseFile(fileName, fileContent, sizeBytes = 0)] *)
Definition parseFile (typeErrorMessage : jstring) (now : Domain.Date)
    (fileName : jstring) (fileContent : argument) (sizeBytes : option float)
  : Domain.completion Domain.ParsedFile :=
  Domain.tryCatch typeErrorMessage
    (fun message =>
       Domain.ParsingError
         (js "Failed to parse file " ++ fileName ++ js ": " ++ message))
    (bind (parseVngText fileContent)
       (fun rawData =>
          bind
            (forOf
               (fun parsedData '(category, metrics) =>
                  bind (assign parsedData category ∅)
                    (fun parsedData =>
                       forOf
                         (fun parsedData '(metric, data) =>
                            assignInner parsedData category metric
                              {| Domain.value := value data;
                                 Domain.isFlagged := isFlagged data |})
                         (Object_entries metrics) parsedData))
               (Object_entries rawData) ∅)
            (fun parsedData =>
               Returned
                 (Domain.new_ParsedFile now fileName parsedData
                    (Some (default zero sizeBytes)))))).

(** [ParsingService.parseToDict(fileContent)] *)
Definition parseToDict (fileContent : argument) : outcome DataMap :=
  parseVngText fileContent.

End ParsingService.

(* ===================================================================== *)
(** * services/analysisService                                           *)
(* ===================================================================== *)

Module AnalysisService.

(** [AnalysisService._convertParsedFileToDict(parsedFile)] *)
Definition _convertParsedFileToDict (parsedFile : Domain.ParsedFile)
  : outcome DataMap :=
  forOf
    (fun result '(category, metrics) =>
       bind (assign result category ∅)
         (fun result =>
            forOf
              (fun result '(metric, metricValue) =>
                 assignInner result category metric
                   {| value := Domain.value metricValue;
                      isFlagged := Domain.isFlagged metricValue |})
              (Object_entries metrics) result))
    (Object_entries (Domain.data parsedFile)) ∅.

(** [AnalysisService.analyzeFiles(parsedFiles)] *)
Definition analyzeFiles (typeErrorMessage : jstring) (now : Domain.Date)
    (parsedFiles : list Domain.ParsedFile)
  : Domain.completion Domain.AnalysisResults :=
  Domain.tryCatch typeErrorMessage
    (fun message => Domain.AnalysisError (js "Analysis failed: " ++ message))
    (if bool_decide (length parsedFiles = 0)
     then Returned (Domain.new_AnalysisResults now ∅ 0 0)
     else
       bind
         (Array_map
            (fun pf =>
               bind (_convertParsedFileToDict pf)
                 (fun d => Returned {| name := Domain.name pf; data := d |}))
            parsedFiles)
         (fun fileDataList =>
            bind (runAnalysis fileDataList)
              (fun rawResults =>
                 bind
                   (forOf
                      (fun '(analysisResults, totalMetrics)
                           '(category, metricsMap) =>
                         bind
                           (forOf
                              (fun '(metricDataDict, totalMetrics)
                                   '(metric, data) =>
                                 bind
                                   (assign metricDataDict metric
                                      {| Domain.values := values data;
                                         Domain.flags := flags data;
                                         Domain.delta := delta data;
                                         Domain.percentChange :=
                                           percentChange data;
                                         Domain.stdDev := stdDev data |})
                                   (fun metricDataDict =>
                                      Returned
                                        (metricDataDict, S totalMetrics)))
                              (Object_entries metricsMap) (∅, totalMetrics))
                           (fun '(metricDataDict, totalMetrics) =>
                              bind
                                (assign analysisResults category
                                   {| Domain.category := category;
                                      Domain.metrics := metricDataDict |})
                                (fun analysisResults =>
                                   Returned (analysisResults, totalMetrics))))
                      (Object_entries rawResults) (∅, 0))
                   (fun '(analysisResults, totalMetrics) =>
                      Returned
                        (Domain.new_AnalysisResults now analysisResults
                           (length parsedFiles) totalMetrics))))).

(** [AnalysisService.analyzeFilesDict(fileDataList)] *)
Definition analyzeFilesDict (fileDataList : list FileData) : outcome Results :=
  runAnalysis fileDataList.

End AnalysisService.

(* ===================================================================== *)
(** * services/visualizationService                                      *)
(* ===================================================================== *)

Module VisualizationService.

(** [{categories, metrics, values, fileNames}] *)
Record Heatmap : Type := {
  categories : list jstring;
  metrics : list jstring;
  values : list (list numeric);
  fileNames : list jstring
}.

(** [VisualizationService.createHeatmap(analysisResults, fileDataList)].
    The names come from [Object.keys], so what they index are own
    properties. *)
Definition createHeatmap (analysisResults : Results)
    (fileDataList : list FileData) : Heatmap :=
  let heatmapData :=
    {| categories := []; metrics := []; values := [];
       fileNames := name <$> fileDataList |} in
  let sortedCategories := Array_sortStrings (Object_keys analysisResults) in
  foldl
    (fun heatmapData category =>
       let categoryMetrics :=
         Array_sortStrings
           (Object_keys (default ∅ (analysisResults !! category))) in
       foldl
         (fun heatmapData metric =>
            {| categories := categories heatmapData ++ [category];
               metrics :=
                 metrics heatmapData ++ [category ++ js ": " ++ metric];
               values :=
                 values heatmapData
                 ++ [default []
                       (Analyzer.values
                          <$> entry analysisResults category metric)];
               fileNames := fileNames heatmapData |})
         heatmapData categoryMetrics)
    heatmapData sortedCategories.

(** [VisualizationService._calculateTrendline(values)] *)
Definition _calculateTrendline (values : list numeric) : list float :=
  let n := length values in
  if bool_decide (n < 2) then []
  else
    let xValues := indices n in
    let validPoints := validPoints xValues values in
    if bool_decide (length validPoints < 2) then []
    else
      let sumX := foldl (fun sum xy => sum + xy.1)%float zero validPoints in
      let sumY := foldl (fun sum xy => sum + xy.2)%float zero validPoints in
      let sumXY :=
        foldl (fun sum xy => sum + xy.1 * xy.2)%float zero validPoints in
      let sumXX :=
        foldl (fun sum xy => sum + xy.1 * xy.1)%float zero validPoints in
      let vn := ofNat (length validPoints) in
      let denominator := (vn * sumXX - sumX * sumX)%float in
      if (denominator =? 0)%float then []
      else
        let slope := ((vn * sumXY - sumX * sumY) / denominator)%float in
        let intercept := ((sumY - slope * sumX) / vn)%float in
        (fun x => slope * x + intercept)%float <$> xValues.

End VisualizationService.

(* ===================================================================== *)
(** * app                                                                *)
(* ===================================================================== *)

Module App.

(** [countFlaggedMetrics()], for the value of the global
    [analysisResults]. *)
Definition countFlaggedMetrics (analysisResults : Domain.AnalysisResults)
  : nat :=
  foldl
    (fun count category =>
       foldl
         (fun count metricData =>
            if existsb (fun flag => default false flag)
                 (Domain.flags metricData)
            then S count else count)
         count (Object_values (Domain.metrics category)))
    0 (Object_values (Domain.results analysisResults)).

(** [countSignificantChanges()], for the value of the global
    [analysisResults]. *)
Definition countSignificantChanges (analysisResults : Domain.AnalysisResults)
  : nat :=
  foldl
    (fun count category =>
       foldl
         (fun count metricData =>
            match Domain.percentChange metricData with
            | Some percentChange =>
                if (10 <? abs percentChange)%float then S count else count
            | None => count
            end)
         count (Object_values (Domain.metrics category)))
    0 (Object_values (Domain.results analysisResults)).

(** [convertAnalysisResultsToDict(analysisResults)] *)
Definition convertAnalysisResultsToDict
    (analysisResults : Domain.AnalysisResults) : outcome Results :=
  forOf
    (fun result '(categoryName, category) =>
       bind (assign result categoryName ∅)
         (fun result =>
            forOf
              (fun result '(metricName, metricData) =>
                 assignInner result categoryName metricName
                   {| values := Domain.values metricData;
                      flags := Domain.flags metricData;
                      delta := Domain.delta metricData;
                      percentChange := Domain.percentChange metricData;
                      stdDev := Domain.stdDev metricData |})
              (Object_entries (Domain.metrics category)) result))
    (Object_entries (Domain.results analysisResults)) ∅.

(** [convertParsedFileDataToDict(data)] *)
Definition convertParsedFileDataToDict
    (data : gmap jstring (gmap jstring Domain.MetricValue)) : outcome DataMap :=
  forOf
    (fun result '(category, metrics) =>
       bind (assign result category ∅)
         (fun result =>
            forOf
              (fun result '(metric, metricValue) =>
                 assignInner result category metric
                   {| value := Domain.value metricValue;
                      isFlagged := Domain.isFlagged metricValue |})
              (Object_entries metrics) result))
    (Object_entries data) ∅.

(** [convertParsedFilesToDict(parsedFiles)] *)
Definition convertParsedFilesToDict (parsedFiles : list Domain.ParsedFile)
  : outcome (list FileData) :=
  Array_map
    (fun pf =>
       bind (convertParsedFileDataToDict (Domain.data pf))
         (fun d => Returned {| name := Domain.name pf; data := d |}))
    parsedFiles.

End App.

(* ===================================================================== *)
(** * Vocabulary of the properties                                       *)
(* ===================================================================== *)

(** A string is trimmed when it has no white space at either end. *)
Definition trimmed (s : jstring) : Prop :=
  trimStart s = s /\ trimStart (rev s) = rev s.

(** Readings hold numbers that are not [NaN]. *)
Definition readings_valid (d : DataMap)
  : Prop :=
  forall category metric r,
    entry d category metric = Some r -> isNaN (value r) = false.

(** A line that names no member of [Object.prototype]. *)
Definition plainLine (line : jstring) : Prop :=
  inherited (categoryOf (trim line)) = false
  /\ forall i, metricNameOf (trim line) i <> proto.

(** The names in a map the parser returns: no category is a member of
    [Object.prototype], no metric name is ["__proto__"] or holds a
    colon. *)
Definition parsedNames (d : DataMap)
  : Prop :=
  (forall category, is_Some (d !! category) -> inherited category = false)
  /\ (forall category metric,
        is_Some (entry d category metric) ->
        metric <> proto /\ 58%N ∉ metric).

(** What the loop over the files pushes for what it found in a file:
    [metricData['value']] and [metricData['isFlagged']]. *)
Definition pushed (found : found) : option (numeric * option bool) :=
  match found with
  | OwnEntry metricData =>
      Some (num (value metricData), Some (isFlagged metricData))
  | InheritedMember => Some (undefined, None)
  | Nothing => None
  end.

(** The series the analyzer builds for a pair: from what it found under
    the pair in each file, in the order of the files. *)
Definition seriesOk (files : list FileData) (category metric : jstring)
    (s : MetricSeries) : Prop :=
  exists items : list (numeric * option bool),
    Forall2 (fun f item =>
               exists found,
                 readMetric f category metric = Returned found
                 /\ pushed found = Some item)
            files items
    /\ s = seriesFor (length files) items.*1 items.*2.

(** The values and the flags of readings, as a series holds them. *)
Definition valuesOf (readings : list MetricReading) : list numeric :=
  (fun r => num (value r)) <$> readings.

Definition flagsOf (readings : list MetricReading) : list (option bool) :=
  (fun r => Some (isFlagged r)) <$> readings.

(** Names that survive the round trip through [`${category}::${metric}`]
    and [split('::')], and that no plain object inherits. *)
Definition cleanCategory (category : jstring) : Prop :=
  includes category (js "::") = false
  /\ endsWith category (js ":") = false
  /\ inherited category = false.

Definition cleanMetric (metric : jstring) : Prop :=
  includes metric (js "::") = false /\ metric <> proto.

Definition cleanFile (f : FileData) : Prop :=
  forall category metric,
    is_Some (entry (data f) category metric) ->
    cleanCategory category /\ cleanMetric metric.

(** Executable form of [cleanFile]. *)
Definition checkNames (f : FileData) : bool :=
  forallb
    (fun cm : jstring * Metrics =>
       forallb
         (fun mr : jstring * MetricReading =>
            negb (includes cm.1 (js "::")) && negb (endsWith cm.1 (js ":"))
            && negb (inherited cm.1)
            && negb (includes mr.1 (js "::"))
            && negb (bool_decide (mr.1 = proto)))
         (map_to_list cm.2))
    (map_to_list (data f)).

(** What a pair of the common set looks like when the files are clean. *)
Definition commonPair (files : list FileData) (k : jstring) : Prop :=
  exists category metric readings,
    k = pairKey category metric
    /\ cleanCategory category /\ cleanMetric metric
    /\ Forall2 (fun f r => entry (data f) category metric = Some r)
         files readings.

(** ** Sample reports *)

Definition reading (v : float) (flagged : bool) : MetricReading :=
  {| value := v; isFlagged := flagged |}.

Definition firstVisit : FileData :=
  {| name := js "visit1.txt";
     data := {[ js "Saccades" :=
                  {[ js "Latency" := reading 200 false;
                     js "Accuracy" := reading 90 false ]} ]} |}.

Definition secondVisit : FileData :=
  {| name := js "visit2.txt";
     data := {[ js "Saccades" := {[ js "Latency" := reading 250 true ]} ]} |}.

(** A report whose header line was ["Oculomotor::Saccades:"]. *)
Definition namespacedVisit (v : float) : FileData :=
  {| name := js "visit.txt";
     data := {[ js "Oculomotor::Saccades" :=
                  {[ js "Latency" := reading v false ]} ]} |}.

(** A report whose header line was ["Notes::"]. *)
Definition colonVisit : FileData :=
  {| name := js "visit.txt";
     data := {[ js "Notes:" := {[ js "Latency" := reading 200 false ]} ]} |}.

(** A report with a metric named ["Left::Gain"]. *)
Definition splitMetricVisit : FileData :=
  {| name := js "visit.txt";
     data := {[ js "VOR" := {[ js "Left::Gain" := reading 1 false ]} ]} |}.

(** A report with an own category named ["constructor"]. *)
Definition constructorVisit : FileData :=
  {| name := js "visit.txt";
     data := {[ js "constructor" := {[ js "Latency" := reading 200 false ]} ]} |}.

(** A report with the header lines ["Saccades::toString:"] and
    ["Saccades:"]. *)
Definition inheritedMetricVisit : FileData :=
  {| name := js "visit.txt";
     data := {[ js "Saccades::toString" := {[ js "Gain" := reading 1 false ]};
                js "Saccades" := {[ js "Latency" := reading 200 false ]} ]} |}.

(** The series of one file in which nothing was read from a reading. *)
Definition inheritedSeries : MetricSeries :=
  {| values := [undefined]; flags := [None];
     delta := None; stdDev := None; percentChange := None |}.

(** The series of [Saccades / Latency] over the two visits. *)
Definition latencySeries : MetricSeries :=
  {| values := [num 200; num 250]; flags := [Some false; Some true];
     delta := Some 50%float;
     stdDev := Some (sqrt 1250)%float;
     percentChange := Some 25%float |}.

(** ** Vocabulary of the further properties *)

(** [lines.join(sep)] *)
Fixpoint joinLines (sep : jstring) (ls : list jstring) : jstring :=
  match ls with
  | [] => []
  | [l] => l
  | l :: ls' => l ++ sep ++ joinLines sep ls'
  end.

(** Carriage return and line feed. *)
Definition CRLF : jstring := [13%N; 10%N].

(** A line that holds the reading [r] of the metric [metric]: what
    [processLine] takes from a line before it stores anything. *)
Definition valueLine (line metric : jstring) (r : MetricReading) : Prop :=
  exists token flag colonIndex,
    matched (valueRegex_exec (trim line)) = Some (token, flag)
    /\ isNaN (parseFloat token) = false
    /\ indexOf (trim line) 58 = Some colonIndex
    /\ metric = metricNameOf (trim line) colonIndex
    /\ r = {| value := parseFloat token; isFlagged := flag |}.

(** The loop keeps the category trimmed, every category object
    inhabited and every name trimmed. *)
Definition tidy (st : State) : Prop :=
  trim (currentCategory st) = currentCategory st
  /\ (forall category metrics,
        dataMap st !! category = Some metrics ->
        metrics <> ∅ /\ trim category = category)
  /\ (forall category metric,
        is_Some (entry (dataMap st) category metric) -> trim metric = metric).

(** The dictionary of dictionaries with [g] applied to every entry. *)
Definition mapEntries {A B} (g : A -> B) (o : gmap jstring (gmap jstring A))
  : gmap jstring (gmap jstring B) :=
  (fun inner : gmap jstring A => g <$> inner) <$> o.

(** The reading a [MetricValue] holds, and back; the series a
    [MetricData] holds, and back. *)
Definition asMetricValue (r : MetricReading) : Domain.MetricValue :=
  {| Domain.value := value r; Domain.isFlagged := isFlagged r |}.

Definition asReading (v : Domain.MetricValue) : MetricReading :=
  {| value := Domain.value v; isFlagged := Domain.isFlagged v |}.

Definition asMetricData (s : MetricSeries) : Domain.MetricData :=
  {| Domain.values := values s; Domain.flags := flags s;
     Domain.delta := delta s; Domain.percentChange := percentChange s;
     Domain.stdDev := stdDev s |}.

Definition asSeries (d : Domain.MetricData) : MetricSeries :=
  {| values := Domain.values d; flags := Domain.flags d;
     delta := Domain.delta d; percentChange := Domain.percentChange d;
     stdDev := Domain.stdDev d |}.

(** The number of series in a result of the analyzer. *)
Definition seriesCount (res : Results) : nat :=
  sum_list ((fun cm : jstring * gmap jstring MetricSeries => size cm.2)
              <$> map_to_list res).

(** The [AnalysisResult]s that hold the series of a result of the
    analyzer. *)
Definition asAnalysisResult (category : jstring)
    (metrics : gmap jstring MetricSeries) : Domain.AnalysisResult :=
  {| Domain.category := category; Domain.metrics := asMetricData <$> metrics |}.

Definition asAnalysisResults (res : Results)
  : gmap jstring Domain.AnalysisResult :=
  map_imap (fun category metrics => Some (asAnalysisResult category metrics))
           res.

(** The file as the analyzer reads it that stands for a parsed file. *)
Definition legacyFile (pf : Domain.ParsedFile) (fd : FileData) : Prop :=
  name fd = Domain.name pf
  /\ AnalysisService._convertParsedFileToDict pf = Returned (data fd).

(** Names under which a result of the analyzer can be copied entry by
    entry. *)
Definition tidyResult (res : Results) : Prop :=
  (forall category, is_Some (res !! category) -> inherited category = false)
  /\ (forall category metric,
        is_Some (entry res category metric) -> metric <> proto).

(** A text none of whose lines holds an underscore or, read as a header,
    names a member of [Object.prototype]. *)
Definition plainText (s : jstring) : Prop :=
  Forall (fun line => inherited (categoryOf (trim line)) = false
                      /\ 95%N ∉ line) (lines s).

(** The [ParsedFile] that [parseFile] makes of the text of a sample
    report, at time [0] and with no size given. *)
Definition parsedVisit (fd : FileData) : Domain.ParsedFile :=
  {| Domain.name := name fd;
     Domain.data := mapEntries asMetricValue (data fd);
     Domain.uploadedAt := 0;
     Domain.sizeBytes := zero |}.

(** The analysis of the two sample visits. *)
Definition visitsAnalysis : Results :=
  {[ js "Saccades" := {[ js "Latency" := latencySeries ]} ]}.

(** The rows of the heat map: each category in order with each of its
    metrics in order. *)
Definition heatmapRows (analysisResults : Results) : list (jstring * jstring) :=
  Array_sortStrings (Object_keys analysisResults)
    ≫= (fun category =>
          (fun metric => (category, metric))
            <$> Array_sortStrings
                  (Object_keys (default ∅ (analysisResults !! category)))).

(** The order of the rows: by category, then by metric. *)
Definition rowBefore (a b : jstring * jstring) : Prop :=
  String_lt a.1 b.1 = true \/ (a.1 = b.1 /\ String_lt a.2 b.2 = true).

(** The label and the cells of a row. *)
Definition rowLabel (cm : jstring * jstring) : jstring :=
  cm.1 ++ js ": " ++ cm.2.

Definition rowCells (analysisResults : Results) (cm : jstring * jstring)
  : list numeric :=
  default [] (values <$> entry analysisResults cm.1 cm.2).

(** The heat map with the given column heads and rows. *)
Definition heatmapWith (analysisResults : Results) (fileNames : list jstring)
    (rows : list (jstring * jstring)) : VisualizationService.Heatmap :=
  {| VisualizationService.categories := rows.*1;
     VisualizationService.metrics := rowLabel <$> rows;
     VisualizationService.values := rowCells analysisResults <$> rows;
     VisualizationService.fileNames := fileNames |}.

(** Turns a hypothesis on a character class into arithmetic. *)
Ltac char_class H :=
  unfold isNumberChar, isNoiseChar, isDigit, isWhiteSpace in H;
  repeat (rewrite ?orb_true_iff, ?andb_true_iff, ?N.leb_le, ?N.eqb_eq in H).

(* ===================================================================== *)
(** * Properties of the statistics                                       *)
(* ===================================================================== *)

Section StatisticsFacts.

Lemma validValues_length (values : list numeric) :
  length (validValues values) <= length values.
Proof.
  induction values as [|v values IH]; simpl; [lia|].
  destruct v as [| |x]; simpl; try lia.
  destruct (isNaN x); simpl; lia.
Qed.

(** The running sum of squares of the source is the sum of the squared
    deviations. *)
Lemma sum_squaredDeviations (xs : list float) :
  foldl (fun sum val => (sum + Math_pow2 (val - mean xs))%float) zero xs
  = sum (squaredDeviations xs).
Proof.
  unfold sum, squaredDeviations. rewrite foldl_fmap. reflexivity.
Qed.

Lemma calculateStdDev_few (values : list numeric) :
  length (validValues values) < 2 -> calculateStdDev values = zero.
Proof.
  intros Hfew. unfold calculateStdDev.
  case_bool_decide; [reflexivity|].
  case_bool_decide; [reflexivity|lia].
Qed.

Lemma calculateStdDev_many (values : list numeric) :
  2 <= length (validValues values) ->
  calculateStdDev values = sqrt (sampleVariance (validValues values)).
Proof.
  intros Hmany. pose proof (validValues_length values) as Hle.
  unfold calculateStdDev.
  case_bool_decide; [lia|].
  case_bool_decide; [lia|].
  unfold sampleVariance. rewrite <- sum_squaredDeviations. reflexivity.
Qed.

End StatisticsFacts.

(** C6. [calculateStdDev] returns 0 for every input with fewer than two
    numeric (non-null, non-NaN) values, and otherwise the square root of
    the sample variance of the valid values: the sum of their squared
    deviations from the mean divided by [n - 1]. In particular
    [sampleStdDev([5]) = 0], [sampleStdDev([2, 2]) = 0] and
    [sampleStdDev([1, 2, 3]) = 1]. *)
Theorem calculateStdDev_sample :
  (forall values : list numeric,
      length (validValues values) < 2 -> calculateStdDev values = 0%float)
  /\ (forall values : list numeric,
        2 <= length (validValues values) ->
        calculateStdDev values = sqrt (sampleVariance (validValues values)))
  /\ calculateStdDev [num 5] = 0%float
  /\ calculateStdDev [num 2; num 2] = 0%float
  /\ calculateStdDev [num 1; num 2; num 3] = 1%float.
Proof.
  split; [exact calculateStdDev_few|].
  split; [exact calculateStdDev_many|].
  repeat split; vm_compute; reflexivity.
Qed.

Lemma calculateStdDev_sample_witness :
  (length (validValues [null; num nan; num 7]) < 2
   /\ calculateStdDev [null; num nan; num 7] = 0%float)
  /\ (2 <= length (validValues [num 1; undefined; num 2; num 3])
      /\ calculateStdDev [num 1; undefined; num 2; num 3]
         = sqrt (sampleVariance [1; 2; 3]%float)).
Proof.
  destruct calculateStdDev_sample as (Hfew & Hmany & _).
  split.
  - split; [vm_compute; lia|]. apply Hfew. vm_compute; lia.
  - split; [vm_compute; lia|].
    apply (Hmany [num 1; undefined; num 2; num 3]). vm_compute; lia.
Defined.

(** C5. [calculatePercentChange] returns [null] when either argument is
    [null] or [undefined]; from a zero baseline it returns [0] when the new
    value is zero too and [null] otherwise; for every other pair of numbers
    it returns [(newValue - baseline) / baseline * 100]. In particular
    [percentChange(0, 0) = 0], [percentChange(0, 5) = null] and
    [percentChange(100, 150) = 50]. *)
Theorem calculatePercentChange_cases :
  (forall v : numeric,
      calculatePercentChange null v = None
      /\ calculatePercentChange undefined v = None
      /\ calculatePercentChange v null = None
      /\ calculatePercentChange v undefined = None)
  /\ (forall b n : float,
        (b =? 0)%float = true -> (n =? 0)%float = true ->
        calculatePercentChange (num b) (num n) = Some 0%float)
  /\ (forall b n : float,
        (b =? 0)%float = true -> (n =? 0)%float = false ->
        calculatePercentChange (num b) (num n) = None)
  /\ (forall b n : float,
        (b =? 0)%float = false ->
        calculatePercentChange (num b) (num n)
        = Some ((n - b) / b * 100)%float)
  /\ calculatePercentChange (num 0) (num 0) = Some 0%float
  /\ calculatePercentChange (num 0) (num 5) = None
  /\ calculatePercentChange (num 100) (num 150) = Some 50%float.
Proof.
  split; [|split; [|split; [|split]]].
  - intros v. repeat split; destruct v; reflexivity.
  - intros b n Hb Hn. unfold calculatePercentChange. rewrite Hb, Hn. reflexivity.
  - intros b n Hb Hn. unfold calculatePercentChange. rewrite Hb, Hn. reflexivity.
  - intros b n Hb. unfold calculatePercentChange. rewrite Hb. reflexivity.
  - repeat split; vm_compute; reflexivity.
Qed.

Lemma calculatePercentChange_cases_witness :
  calculatePercentChange (num (-0)) (num 0) = Some 0%float
  /\ calculatePercentChange (num (-0)) (num 3) = None
  /\ calculatePercentChange (num 8) (num 10) = Some 25%float.
Proof.
  destruct calculatePercentChange_cases as (_ & Hzz & Hzn & Hnz & _).
  split; [|split].
  - apply Hzz; vm_compute; reflexivity.
  - apply Hzn; vm_compute; reflexivity.
  - rewrite Hnz by (vm_compute; reflexivity). vm_compute. reflexivity.
Defined.

(* ===================================================================== *)
(** * Properties of the string primitives                                *)
(* ===================================================================== *)

Section StringFacts.

Implicit Types s t r : jstring.

Lemma startsWith_app t r : startsWith (t ++ r) t = true.
Proof.
  induction t as [|d t IH]; simpl; [reflexivity|].
  rewrite N.eqb_refl. exact IH.
Qed.

Lemma startsWith_inv s t : startsWith s t = true -> exists r, s = t ++ r.
Proof.
  revert s. induction t as [|d t IH]; intros s H; simpl in *.
  - exists s. reflexivity.
  - destruct s as [|c s]; [discriminate|].
    apply andb_true_iff in H as [Hc Ht]. apply N.eqb_eq in Hc. subst c.
    destruct (IH _ Ht) as [r ->]. exists r. reflexivity.
Qed.

Lemma endsWith_app r t : endsWith (r ++ t) t = true.
Proof. unfold endsWith. rewrite rev_app_distr. apply startsWith_app. Qed.

Lemma endsWith_inv s t : endsWith s t = true -> exists r, s = r ++ t.
Proof.
  unfold endsWith. intros H. apply startsWith_inv in H as [r Hr].
  exists (rev r). rewrite <- (rev_involutive s), Hr, rev_app_distr.
  rewrite rev_involutive. reflexivity.
Qed.

(** [indexOf] finds the first occurrence. *)
Lemma indexOf_first s c before after :
  c ∉ before -> indexOf (before ++ c :: after) c = Some (length before).
Proof.
  induction before as [|d before IH]; intros Hnot; simpl.
  - rewrite N.eqb_refl. reflexivity.
  - apply not_elem_of_cons in Hnot as [Hne Hnot].
    destruct (N.eqb_spec d c) as [->|_]; [congruence|].
    rewrite IH by assumption. reflexivity.
Qed.

Lemma indexOf_Some s c i :
  indexOf s c = Some i ->
  exists before after,
    s = before ++ c :: after /\ (c ∉ before) /\ i = length before.
Proof.
  revert i. induction s as [|d s IH]; intros i H; simpl in H; [discriminate|].
  destruct (N.eqb_spec d c) as [->|Hne].
  - injection H as <-. exists [], s. split; [reflexivity|].
    split; [apply not_elem_of_nil|reflexivity].
  - destruct (indexOf s c) as [j|] eqn:Hj; [|discriminate].
    injection H as <-.
    destruct (IH j eq_refl) as (before & after & -> & Hnot & ->).
    exists (d :: before), after. split; [reflexivity|].
    split; [|reflexivity]. apply not_elem_of_cons. split; [congruence|exact Hnot].
Qed.

Lemma trim_trimmed s : trimmed s -> trim s = s.
Proof.
  intros [Hs He]. unfold trim, trimEnd. rewrite Hs, He.
  apply rev_involutive.
Qed.

Lemma trimStart_app_keep s t :
  s <> [] -> trimStart s = s -> trimStart (s ++ t) = s ++ t.
Proof.
  destruct s as [|c s]; [congruence|]. intros _ H. simpl in *.
  destruct (isWhiteSpace c); [|reflexivity].
  exfalso. assert (Hlen : length (trimStart s) = S (length s)) by (rewrite H; reflexivity).
  clear H. assert (Hle : forall u, length (trimStart u) <= length u).
  { clear. induction u as [|d u IH]; simpl; [lia|].
    destruct (isWhiteSpace d); simpl; lia. }
  specialize (Hle s). lia.
Qed.

End StringFacts.

(* ===================================================================== *)
(** * Properties of the object primitives                                *)
(* ===================================================================== *)

Section ObjectFacts.

Context {V : Type}.
Implicit Types o : gmap (jstring) (gmap (jstring) V).

Lemma inherited_proto : inherited proto = true.
Proof. reflexivity. Qed.

Lemma entry_insert o k inner c m :
  entry (<[k := inner]> o) c m =
    if decide (c = k) then inner !! m else entry o c m.
Proof.
  unfold entry. destruct (decide (c = k)) as [->|Hne].
  - rewrite lookup_insert_eq. reflexivity.
  - rewrite lookup_insert_ne by congruence. reflexivity.
Qed.

(** What [storeEntry] does when it stays among own properties. *)
Lemma storeEntry_Returned o k m v o' :
  storeEntry o k m v = Returned o' ->
  o' = <[k := <[m := v]> (default ∅ (o !! k))]> o
  /\ m <> proto
  /\ (o !! k = None -> inherited k = false).
Proof.
  unfold storeEntry, has_property, assign. intros H.
  destruct (o !! k) as [inner|] eqn:Hk; simpl in H.
  - rewrite Hk in H. simpl in H.
    case_bool_decide; [discriminate|]. simpl in H. injection H as <-.
    split; [reflexivity|]. split; [assumption|discriminate].
  - destruct (inherited k) eqn:Hinh; simpl in H.
    + rewrite Hk in H. destruct (_ && _); discriminate.
    + case_bool_decide; [discriminate|]. simpl in H.
      rewrite lookup_insert_eq in H. simpl in H.
      case_bool_decide; [discriminate|]. simpl in H. injection H as <-.
      rewrite insert_insert_eq. split; [reflexivity|]. split; [assumption|reflexivity].
Qed.

Lemma storeEntry_plain o k m v :
  inherited k = false -> m <> proto ->
  storeEntry o k m v = Returned (<[k := <[m := v]> (default ∅ (o !! k))]> o).
Proof.
  intros Hk Hm. unfold storeEntry, has_property, assign.
  assert (Hkp : k <> proto).
  { intros ->. rewrite inherited_proto in Hk. discriminate. }
  rewrite Hk, orb_false_r.
  destruct (o !! k) as [inner|] eqn:Hok.
  - rewrite bool_decide_eq_true_2 by eauto. simpl. rewrite Hok. simpl.
    rewrite bool_decide_eq_false_2 by assumption. reflexivity.
  - rewrite bool_decide_eq_false_2 by (apply is_Some_None).
    rewrite bool_decide_eq_false_2 by assumption. simpl.
    rewrite lookup_insert_eq. simpl.
    rewrite bool_decide_eq_false_2 by assumption. simpl.
    rewrite insert_insert_eq. reflexivity.
Qed.

(** The entries after [storeEntry]: the new one, and the old ones. *)
Lemma storeEntry_entry o k m v o' c m' :
  storeEntry o k m v = Returned o' ->
  entry o' c m' = if decide (c = k /\ m' = m) then Some v else entry o c m'.
Proof.
  intros H. apply storeEntry_Returned in H as (-> & _ & _).
  rewrite entry_insert.
  destruct (decide (c = k)) as [->|Hck].
  - destruct (decide (m' = m)) as [->|Hm].
    + rewrite lookup_insert_eq. rewrite decide_True by auto. reflexivity.
    + rewrite lookup_insert_ne by congruence.
      rewrite decide_False by (intros [_ ?]; congruence).
      unfold entry. destruct (o !! k); reflexivity.
  - rewrite decide_False by (intros [? _]; congruence). reflexivity.
Qed.

End ObjectFacts.

(* ===================================================================== *)
(** * Properties of the parser                                           *)
(* ===================================================================== *)

Section RegexFacts.

Implicit Types s rest token : jstring.

Lemma number_char_neq c d :
  isNumberChar c = true -> ~ (45 <= d <= 57)%N -> (c =? d)%N = false.
Proof. intros H Hd. apply N.eqb_neq. char_class H. lia. Qed.

Lemma noise_char_neq c d :
  isNoiseChar c = true -> (d = 124 \/ d = 58 \/ d = 40)%N -> (c =? d)%N = false.
Proof. intros H Hd. apply N.eqb_neq. char_class H. lia. Qed.

Lemma valueRegex_tail_eq s :
  valueRegex_tail s =
    if bool_decide (s = FLAG) then Some true
    else
      match s with
      | [] => Some false
      | c :: s' => if isNoiseChar c then valueRegex_tail s' else None
      end.
Proof. destruct s; reflexivity. Qed.

(** What [valueRegex] leaves after the number: unit noise, then the marker
    exactly when group 2 took part. *)
Lemma valueRegex_tail_Some s flag :
  valueRegex_tail s = Some flag ->
  exists noise,
    Forall (fun c => isNoiseChar c = true) noise
    /\ s = noise ++ (if flag then FLAG else []).
Proof.
  revert flag. induction s as [|c s IH]; intros flag H;
    rewrite valueRegex_tail_eq in H; case_bool_decide as Heq.
  - discriminate.
  - injection H as <-. exists []. split; [constructor|reflexivity].
  - injection H as <-. exists []. split; [constructor|]. rewrite Heq. reflexivity.
  - destruct (isNoiseChar c) eqn:Hc; [|discriminate].
    destruct (IH _ H) as (noise & Hnoise & ->).
    exists (c :: noise). split; [constructor; assumption|reflexivity].
Qed.

Lemma valueRegex_number_Some s token flag :
  valueRegex_number s = Some (token, flag) ->
  exists last_char front rest,
    token = front ++ [last_char]
    /\ isNumberChar last_char = true
    /\ s = token ++ rest
    /\ valueRegex_tail rest = Some flag.
Proof.
  revert token flag. induction s as [|c s IH]; intros token flag H; simpl in H;
    [discriminate|].
  destruct (isNumberChar c) eqn:Hc; [|discriminate].
  destruct (valueRegex_number s) as [[token' flag']|] eqn:Hrec.
  - injection H as <- <-.
    destruct (IH _ _ eq_refl) as (l & front & rest & -> & Hl & -> & Htail).
    exists l, (c :: front), rest. repeat split; assumption.
  - destruct (valueRegex_tail s) as [flag'|] eqn:Htail; [|discriminate].
    injection H as <- <-.
    exists c, [], s. repeat split; assumption.
Qed.

Lemma valueRegex_exec_cons c s :
  valueRegex_exec (c :: s) =
    match (if startsWith (c :: s) (js ": ")
           then valueRegex_number (drop 2 (c :: s)) else None) with
    | Some m => Some m
    | None => valueRegex_exec s
    end.
Proof. reflexivity. Qed.

(** The shape of a line that [valueRegex] matches. *)
Lemma valueRegex_exec_Some s token flag :
  valueRegex_exec s = Some (token, flag) ->
  exists before last_char front noise,
    token = front ++ [last_char]
    /\ isNumberChar last_char = true
    /\ Forall (fun c => isNoiseChar c = true) noise
    /\ s = before ++ js ": " ++ token ++ noise ++ (if flag then FLAG else []).
Proof.
  induction s as [|c s IH]; intros H; [discriminate|].
  rewrite valueRegex_exec_cons in H.
  destruct (startsWith (c :: s) (js ": ")) eqn:Hstart.
  - destruct (valueRegex_number (drop 2 (c :: s))) as [m|] eqn:Hnum.
    + injection H as ->.
      apply startsWith_inv in Hstart as [r Hr]. rewrite Hr in Hnum |- *.
      change (drop 2 (js ": " ++ r)) with r in Hnum.
      apply valueRegex_number_Some in Hnum
        as (l & front & rest & -> & Hl & -> & Htail).
      apply valueRegex_tail_Some in Htail as (noise & Hnoise & ->).
      exists [], l, front, noise. repeat split; assumption.
    + destruct (IH H) as (before & l & front & noise & -> & Hl & Hnoise & ->).
      exists (c :: before), l, front, noise. repeat split; assumption.
  - destruct (IH H) as (before & l & front & noise & -> & Hl & Hnoise & ->).
    exists (c :: before), l, front, noise. repeat split; assumption.
Qed.

(** Read from the end, a matched line without the marker shows noise and
    then a character of the number: never the marker, never a colon. *)
Lemma noise_then_number_not_FLAG noise c r :
  Forall (fun c => isNoiseChar c = true) noise ->
  isNumberChar c = true ->
  startsWith (noise ++ c :: r) (rev FLAG) = false.
Proof.
  intros Hnoise Hc.
  change (rev FLAG) with [71; 65; 76; 70; 32; 124]%N.
  do 5 (destruct noise as [|? noise];
        [simpl; rewrite (number_char_neq c) by (assumption || lia);
         rewrite ?andb_false_r; reflexivity|]).
  destruct noise as [|n5 noise]; simpl.
  - rewrite (number_char_neq c) by (assumption || lia).
    rewrite ?andb_false_r; reflexivity.
  - do 5 (apply Forall_cons in Hnoise as [_ Hnoise]).
    apply Forall_cons in Hnoise as [Hn5 _].
    rewrite (noise_char_neq n5) by (assumption || lia).
    rewrite ?andb_false_r; reflexivity.
Qed.

(** [match[2]] is defined exactly when the line ends with the marker. *)
Lemma valueRegex_flag s token flag :
  valueRegex_exec s = Some (token, flag) -> flag = endsWith s FLAG.
Proof.
  intros H.
  apply valueRegex_exec_Some in H
    as (before & l & front & noise & -> & Hl & Hnoise & ->).
  destruct flag.
  - rewrite !app_assoc. symmetry. apply endsWith_app.
  - symmetry. unfold endsWith. rewrite app_nil_r.
    rewrite !rev_app_distr. simpl rev at 2. rewrite <- !app_assoc.
    simpl app at 2.
    apply noise_then_number_not_FLAG; [|assumption].
    apply Forall_rev. assumption.
Qed.

(** A line that ends with a colon is never a value line. *)
Lemma valueRegex_not_header s :
  endsWith s (js ":") = true -> valueRegex_exec s = None.
Proof.
  intros Hend. destruct (valueRegex_exec s) as [[token flag]|] eqn:H;
    [|reflexivity].
  exfalso.
  apply valueRegex_exec_Some in H
    as (before & l & front & noise & -> & Hl & Hnoise & ->).
  unfold endsWith in Hend. rewrite !rev_app_distr in Hend.
  destruct flag; [discriminate|].
  simpl rev at 1 in Hend. simpl app at 1 in Hend.
  rewrite <- !app_assoc in Hend. simpl rev at 2 in Hend.
  simpl app at 2 in Hend.
  apply Forall_rev in Hnoise.
  destruct (rev noise) as [|n noise']; simpl in Hend.
  - rewrite (number_char_neq l) in Hend by (assumption || lia). discriminate.
  - apply Forall_cons in Hnoise as [Hn _].
    rewrite (noise_char_neq n) in Hend by (assumption || lia). discriminate.
Qed.

End RegexFacts.

Section ParserFacts.

Implicit Types (st : State) (line token before after : jstring).

(** A value line whose number parses stores one reading. *)
Lemma processLine_value st line token flag before after :
  valueRegex_exec (trim line) = Some (token, flag) ->
  isNaN (parseFloat token) = false ->
  trim line = before ++ 58%N :: after ->
  58%N ∉ before ->
  processLine st line =
    bind (storeEntry (dataMap st) (currentCategory st)
            (trim (removeTrailingParens (trim before)))
            {| value := parseFloat token;
               isFlagged := endsWith (trim line) FLAG |})
      (fun dataMap => Returned {| dataMap := dataMap;
                                  currentCategory := currentCategory st |}).
Proof.
  intros Hexec Hnum Hline Hfirst. unfold processLine.
  pose proof (valueRegex_flag _ _ _ Hexec) as Hflag.
  pose proof (valueRegex_exec_Some _ _ _ Hexec)
    as (_ & l & front & _ & Htoken & _).
  destruct (trim line) as [|c tl] eqn:Htrim; [discriminate|].
  rewrite Hexec.
  assert (Hm : matched (Some (token, flag)) = Some (token, flag)).
  { rewrite Htoken. destruct front; reflexivity. }
  rewrite Hm, Hnum, Hline, (indexOf_first (c :: tl)) by assumption.
  unfold metricNameOf, substring0. rewrite take_app_length.
  rewrite <- Hline, <- Hflag. reflexivity.
Qed.

(** A value line whose number does not parse is skipped. *)
Lemma processLine_unparsable st line token flag :
  valueRegex_exec (trim line) = Some (token, flag) ->
  isNaN (parseFloat token) = true ->
  processLine st line = Returned st.
Proof.
  intros Hexec Hnum. unfold processLine.
  destruct (trim line) as [|c tl]; [reflexivity|].
  rewrite Hexec. unfold matched.
  destruct token; [|rewrite Hnum; reflexivity].
  apply valueRegex_exec_Some in Hexec as (_ & l & front & _ & Htoken & _).
  destruct front; discriminate.
Qed.

(** A header line moves the category cursor and stores nothing. *)
Lemma processLine_header st line :
  endsWith (trim line) (js ":") = true ->
  valueRegex_exec (trim line) = None ->
  processLine st line =
    Returned
      (if includes (trim line) (js "Summary of Flagged Findings") then st
       else {| dataMap := dataMap st;
               currentCategory := categoryOf (trim line) |}).
Proof.
  intros Hend Hexec. unfold processLine, valueRegex_test.
  destruct (trim line) as [|c tl]; [discriminate|].
  rewrite Hexec, Hend. simpl matched.
  rewrite bool_decide_eq_false_2 by (apply is_Some_None).
  cbn [andb negb]. destruct (includes _ _); reflexivity.
Qed.

(** Any other line is ignored. *)
Lemma processLine_other st line :
  valueRegex_exec (trim line) = None ->
  endsWith (trim line) (js ":") = false ->
  processLine st line = Returned st.
Proof.
  intros Hexec Hend. unfold processLine.
  destruct (trim line) as [|c tl]; [reflexivity|].
  rewrite Hexec, Hend. reflexivity.
Qed.

(** Every line is of one of the four kinds above. *)
Lemma processLine_cases st line st' :
  processLine st line = Returned st' ->
  st' = st
  \/ (dataMap st' = dataMap st /\ currentCategory st' = categoryOf (trim line))
  \/ (exists token before,
        (58%N ∉ before)
        /\ isNaN (parseFloat token) = false
        /\ currentCategory st' = currentCategory st
        /\ storeEntry (dataMap st) (currentCategory st)
             (trim (removeTrailingParens (trim before)))
             {| value := parseFloat token;
                isFlagged := endsWith (trim line) FLAG |}
           = Returned (dataMap st')).
Proof.
  intros H.
  destruct (valueRegex_exec (trim line)) as [[token flag]|] eqn:Hexec.
  - destruct (isNaN (parseFloat token)) eqn:Hnum.
    + rewrite (processLine_unparsable _ _ _ _ Hexec Hnum) in H.
      injection H as <-. left. reflexivity.
    + pose proof (valueRegex_exec_Some _ _ _ Hexec)
        as (before & l & front & noise & _ & _ & _ & Hline).
      destruct (indexOf (trim line) 58) as [i|] eqn:Hi.
      * apply indexOf_Some in Hi as (b & a & Hb & Hnot & _).
        rewrite (processLine_value _ _ _ _ _ _ Hexec Hnum Hb Hnot) in H.
        destruct (storeEntry _ _ _ _) as [d| |] eqn:Hstore; try discriminate.
        injection H as <-. right. right. exists token, b.
        split; [exact Hnot|]. split; [exact Hnum|].
        split; [reflexivity|exact Hstore].
      * exfalso. rewrite Hline in Hi.
        change (js ": ") with ([58; 32]%N) in Hi.
        clear -Hi. induction before as [|c before IH]; simpl in Hi.
        -- discriminate.
        -- destruct (c =? 58)%N; [discriminate|].
           destruct (indexOf _ _); [discriminate|]. apply IH. reflexivity.
  - destruct (endsWith (trim line) (js ":")) eqn:Hend.
    + rewrite (processLine_header _ _ Hend Hexec) in H. injection H as <-.
      destruct (includes _ _); [left; reflexivity|right; left; split; reflexivity].
    + rewrite (processLine_other _ _ Hexec Hend) in H. injection H as <-.
      left. reflexivity.
Qed.

Lemma processLine_valid st line st' :
  readings_valid (dataMap st) ->
  processLine st line = Returned st' ->
  readings_valid (dataMap st').
Proof.
  intros Hvalid H.
  apply processLine_cases in H
    as [->|[[-> _]|(token & before & _ & Hnum & _ & Hstore)]];
    try assumption.
  intros category metric r Hr.
  rewrite (storeEntry_entry _ _ _ _ _ _ _ Hstore) in Hr.
  case_decide; [|eauto]. injection Hr as <-. exact Hnum.
Qed.

Lemma parseLines_valid lines st st' :
  readings_valid (dataMap st) ->
  parseLines st lines = Returned st' ->
  readings_valid (dataMap st').
Proof.
  unfold parseLines. revert st.
  induction lines as [|line lines IH]; intros st Hvalid H; simpl in H.
  - injection H as <-. exact Hvalid.
  - destruct (processLine st line) as [st1| |] eqn:Hline; try discriminate.
    simpl in H. eapply IH; [|exact H].
    eapply processLine_valid; eassumption.
Qed.

Lemma processLine_plain st line :
  inherited (currentCategory st) = false ->
  plainLine line ->
  exists st',
    processLine st line = Returned st'
    /\ inherited (currentCategory st') = false.
Proof.
  intros Hcat [Hheader Hmetric].
  destruct (valueRegex_exec (trim line)) as [[token flag]|] eqn:Hexec.
  - destruct (isNaN (parseFloat token)) eqn:Hnum.
    + rewrite (processLine_unparsable _ _ _ _ Hexec Hnum). eauto.
    + unfold processLine.
      pose proof (valueRegex_exec_Some _ _ _ Hexec)
        as (_ & l & front & _ & Htoken & _).
      destruct (trim line) as [|c tl] eqn:Htrim; [discriminate|].
      rewrite Hexec.
      assert (Hm : matched (Some (token, flag)) = Some (token, flag)).
      { rewrite Htoken. destruct front; reflexivity. }
      rewrite Hm, Hnum.
      destruct (indexOf (c :: tl) 58) as [i|]; [|eauto].
      rewrite storeEntry_plain by auto. simpl. eauto.
  - destruct (endsWith (trim line) (js ":")) eqn:Hend.
    + rewrite (processLine_header _ _ Hend Hexec).
      destruct (includes _ _); eauto.
    + rewrite (processLine_other _ _ Hexec Hend). eauto.
Qed.

Lemma parseLines_plain lines st :
  inherited (currentCategory st) = false ->
  Forall plainLine lines ->
  exists st', parseLines st lines = Returned st'.
Proof.
  unfold parseLines. revert st.
  induction lines as [|line lines IH]; intros st Hcat Hplain; simpl.
  - eauto.
  - apply Forall_cons in Hplain as [Hline Hplain].
    destruct (processLine_plain st line Hcat Hline) as (st1 & -> & Hcat1).
    simpl. apply IH; assumption.
Qed.

(** The parser returns on every text whose lines name no member of
    [Object.prototype], and on every argument that is no text. *)
Lemma parseVngText_returns text :
  match text with
  | Text s => Forall plainLine (lines s)
  | NotAString => True
  end ->
  exists d, parseVngText text = Returned d.
Proof.
  destruct text as [|s]; intros Hplain; simpl; [eauto|].
  destruct s as [|c s]; [eauto|].
  destruct (parseLines_plain (lines (c :: s)) initial eq_refl Hplain)
    as [st ->].
  simpl. eauto.
Qed.

Lemma parseVngText_short_circuit :
  parseVngText NotAString = Returned ∅ /\ parseVngText (Text []) = Returned ∅.
Proof. split; reflexivity. Qed.

End ParserFacts.

Section NameFacts.

Implicit Types (s name unit tail : jstring).

Lemma trimStart_suffix s : exists ws, s = ws ++ trimStart s.
Proof.
  induction s as [|c s [ws IH]]; simpl.
  - exists []. reflexivity.
  - destruct (isWhiteSpace c).
    + exists (c :: ws). simpl. rewrite <- IH. reflexivity.
    + exists []. reflexivity.
Qed.

Lemma trimStart_same_length s : length (trimStart s) = length s -> trimStart s = s.
Proof.
  destruct (trimStart_suffix s) as [ws Hs]. intros Hlen.
  rewrite Hs in Hlen at 2. rewrite length_app in Hlen.
  destruct ws; [symmetry; exact Hs|simpl in Hlen; lia].
Qed.

Lemma trimStart_length s : length (trimStart s) <= length s.
Proof.
  destruct (trimStart_suffix s) as [ws Hs].
  rewrite Hs at 2. rewrite length_app. lia.
Qed.

(** A string that [trim] leaves alone has no white space at its ends. *)
Lemma trim_fixed s : trim s = s -> trimmed s.
Proof.
  intros H. assert (Hlen : length (trim s) = length s) by (rewrite H; reflexivity).
  unfold trim, trimEnd in Hlen. rewrite length_rev in Hlen.
  pose proof (trimStart_length (rev (trimStart s))) as H1.
  pose proof (trimStart_length s) as H2.
  rewrite length_rev in H1.
  assert (Hs : trimStart s = s) by (apply trimStart_same_length; lia).
  split; [exact Hs|].
  apply trimStart_same_length. rewrite length_rev. rewrite Hs in Hlen. exact Hlen.
Qed.

Lemma trimmed_last s :
  trimmed s -> s = [] \/ exists front l, s = front ++ [l] /\ isWhiteSpace l = false.
Proof.
  intros [_ He]. destruct (rev s) as [|l r] eqn:Hr.
  - left. rewrite <- (rev_involutive s), Hr. reflexivity.
  - right. exists (rev r), l. split.
    + rewrite <- (rev_involutive s), Hr. reflexivity.
    + simpl in He. destruct (isWhiteSpace l); [|reflexivity].
      pose proof (trimStart_length r) as Hle. rewrite He in Hle.
      simpl in Hle. lia.
Qed.

(** [[^)]+\)$] matches a non-empty run without [)] followed by the final [)]. *)
Lemma parenRegex_inside_unit unit :
  unit <> [] -> 41%N ∉ unit -> parenRegex_inside (unit ++ [41%N]) = true.
Proof.
  induction unit as [|c unit IH]; intros Hne Hnot; [congruence|].
  apply not_elem_of_cons in Hnot as [Hc Hnot].
  change ((c :: unit) ++ [41%N]) with (c :: (unit ++ [41%N])).
  cbn [parenRegex_inside].
  destruct (N.eqb_spec c 41) as [->|_]; [congruence|]. cbn [negb andb].
  destruct unit as [|d unit].
  - rewrite bool_decide_eq_true_2 by reflexivity. apply orb_true_r.
  - rewrite IH by (assumption || discriminate). reflexivity.
Qed.

(** The pattern does not match where the text before the parenthesis still
    holds a character that is neither white space nor an opening one. *)
Lemma parenRegex_at_text s tail :
  40%N ∉ s -> (exists c, c ∈ s /\ isWhiteSpace c = false) ->
  parenRegex_at (s ++ tail) = false.
Proof.
  induction s as [|x s IH]; intros Hnot (c & Hin & Hc).
  - apply elem_of_nil in Hin. contradiction.
  - apply not_elem_of_cons in Hnot as [Hx Hnot].
    change ((x :: s) ++ tail) with (x :: (s ++ tail)). cbn [parenRegex_at].
    destruct (N.eqb_spec x 40) as [->|_]; [congruence|].
    rewrite andb_false_l, orb_false_r.
    destruct (isWhiteSpace x) eqn:Hws; [|reflexivity].
    cbn [andb]. apply IH; [assumption|].
    apply elem_of_cons in Hin as [->|Hin]; [congruence|]. eauto.
Qed.

(** A trailing parenthesized unit such as ["(ms)"] is removed together with
    the space before it. *)
Lemma removeTrailingParens_unit name unit :
  trim name = name -> 40%N ∉ name -> unit <> [] -> 41%N ∉ unit ->
  removeTrailingParens (name ++ js " (" ++ unit ++ js ")") = name.
Proof.
  intros Htrim Hparen Hne Hclose.
  assert (Htail : removeTrailingParens (js " (" ++ unit ++ js ")") = []).
  { change (js " (" ++ unit ++ js ")") with (32%N :: 40%N :: (unit ++ [41%N])).
    cbn [removeTrailingParens parenRegex_at].
    rewrite parenRegex_inside_unit by assumption. reflexivity. }
  destruct (trimmed_last name (trim_fixed _ Htrim)) as [->|(front & l & -> & Hl)];
    [exact Htail|].
  clear Htrim. induction front as [|x front IH].
  - change (([] ++ [l]) ++ js " (" ++ unit ++ js ")")
      with (l :: (js " (" ++ unit ++ js ")")).
    cbn [removeTrailingParens].
    replace (parenRegex_at (l :: js " (" ++ unit ++ js ")")) with false.
    + rewrite Htail. reflexivity.
    + symmetry. apply (parenRegex_at_text [l]); [assumption|].
      exists l. split; [apply list_elem_of_here|assumption].
  - change (((x :: front) ++ [l]) ++ js " (" ++ unit ++ js ")")
      with (x :: ((front ++ [l]) ++ js " (" ++ unit ++ js ")")).
    cbn [removeTrailingParens].
    replace (parenRegex_at (x :: (front ++ [l]) ++ js " (" ++ unit ++ js ")"))
      with false.
    + rewrite IH; [reflexivity|].
      apply not_elem_of_cons in Hparen as [_ Hparen]. exact Hparen.
    + symmetry. apply (parenRegex_at_text (x :: front ++ [l])); [assumption|].
      exists l. split; [|assumption].
      apply elem_of_cons. right. apply elem_of_app. right. apply list_elem_of_here.
Qed.

(** Without a closing parenthesis at the end there is nothing to remove. *)
Lemma removeTrailingParens_none s :
  endsWith s (js ")") = false -> removeTrailingParens s = s.
Proof.
  assert (Hin : forall u, parenRegex_inside u = true -> endsWith u (js ")") = true).
  { induction u as [|c u IH]; cbn [parenRegex_inside]; [discriminate|].
    intros H. apply andb_true_iff in H as [_ H].
    apply orb_true_iff in H as [H|H].
    - apply IH in H. apply endsWith_inv in H as [r ->].
      change (c :: r ++ js ")") with ((c :: r) ++ js ")"). apply endsWith_app.
    - apply bool_decide_eq_true in H. subst u. reflexivity. }
  assert (Hat : forall u, parenRegex_at u = true -> endsWith u (js ")") = true).
  { induction u as [|c u IH]; cbn [parenRegex_at]; [discriminate|].
    intros H. apply orb_true_iff in H as [H|H];
      apply andb_true_iff in H as [_ H].
    - apply IH in H. apply endsWith_inv in H as [r ->].
      change (c :: r ++ js ")") with ((c :: r) ++ js ")"). apply endsWith_app.
    - apply Hin in H. apply endsWith_inv in H as [r ->].
      change (c :: r ++ js ")") with ((c :: r) ++ js ")"). apply endsWith_app. }
  induction s as [|c s IH]; intros Hend; [reflexivity|].
  cbn [removeTrailingParens].
  destruct (parenRegex_at (c :: s)) eqn:Hp.
  - apply Hat in Hp. congruence.
  - f_equal. apply IH.
    destruct (endsWith s (js ")")) eqn:Hs; [|reflexivity].
    apply endsWith_inv in Hs as [r ->].
    change (c :: r ++ js ")") with ((c :: r) ++ js ")") in Hend.
    rewrite endsWith_app in Hend. discriminate.
Qed.

Lemma sliceEnd_app s t : sliceEnd (s ++ t) (length t) = s.
Proof.
  unfold sliceEnd. rewrite length_app.
  replace (length s + length t - length t) with (length s) by lia.
  apply take_app_length.
Qed.

(** The category named by a header line. *)
Lemma categoryOf_plain name :
  trim name = name -> endsWith name (js " //") = false ->
  categoryOf (name ++ js ":") = name.
Proof.
  intros Htrim Hend. unfold categoryOf.
  replace (sliceEnd (name ++ js ":") 1) with name
    by (symmetry; apply (sliceEnd_app name (js ":"))).
  rewrite Htrim, Hend. reflexivity.
Qed.

Lemma categoryOf_slashes name :
  trim name = name -> name <> [] ->
  categoryOf (name ++ js " //:") = name.
Proof.
  intros Htrim Hne. unfold categoryOf.
  change (js " //:") with (js " //" ++ js ":"). rewrite app_assoc.
  replace (sliceEnd ((name ++ js " //") ++ js ":") 1) with (name ++ js " //")
    by (symmetry; apply (sliceEnd_app (name ++ js " //") (js ":"))).
  assert (Hkeep : trim (name ++ js " //") = name ++ js " //").
  { apply trim_trimmed. destruct (trim_fixed _ Htrim) as [Hs _]. split.
    - apply trimStart_app_keep; assumption.
    - rewrite rev_app_distr. reflexivity. }
  rewrite Hkeep, endsWith_app.
  replace (sliceEnd (name ++ js " //") 3) with name
    by (symmetry; apply (sliceEnd_app name (js " //"))).
  exact Htrim.
Qed.

End NameFacts.

(** C3. Parsing the value line ["Latency (ms): 123.4 | FLAG"] while the
    current category is ["Saccades"] yields exactly
    [{Saccades: {Latency: {value: 123.4, isFlagged: true}}}]. In general a
    value line stores, under the current category, the number of the line
    under the metric name: everything before the first colon, trimmed,
    with a trailing parenthesized suffix removed; [isFlagged] is true if
    and only if the line ends with the ["| FLAG"] marker. *)
Theorem parse_value_line :
  parseLines {| dataMap := ∅; currentCategory := js "Saccades" |}
             [js "Latency (ms): 123.4 | FLAG"]
  = Returned
      {| dataMap :=
           {[ js "Saccades" :=
                {[ js "Latency" := {| value := 123.4; isFlagged := true |} ]} ]};
         currentCategory := js "Saccades" |}
  /\ parseVngText
       (Text (js "Saccades:" ++ LF ++ js "Latency (ms): 123.4 | FLAG"))
     = Returned
         {[ js "Saccades" :=
              {[ js "Latency" := {| value := 123.4; isFlagged := true |} ]} ]}
  /\ (forall (st : State) (line token before after : jstring) (flag : bool),
        valueRegex_exec (trim line) = Some (token, flag) ->
        isNaN (parseFloat token) = false ->
        trim line = before ++ 58%N :: after ->
        58%N ∉ before ->
        inherited (currentCategory st) = false ->
        trim (removeTrailingParens (trim before)) <> proto ->
        processLine st line =
          Returned
            {| dataMap :=
                 <[currentCategory st :=
                     <[trim (removeTrailingParens (trim before)) :=
                         {| value := parseFloat token;
                            isFlagged := endsWith (trim line) FLAG |}]>
                       (default ∅ (dataMap st !! currentCategory st))]>
                   (dataMap st);
               currentCategory := currentCategory st |})
  /\ (forall name unit : jstring,
        trim name = name -> 40%N ∉ name -> unit <> [] -> 41%N ∉ unit ->
        removeTrailingParens (name ++ js " (" ++ unit ++ js ")") = name)
  /\ (forall name : jstring,
        endsWith name (js ")") = false -> removeTrailingParens name = name).
Proof.
  split; [vm_compute; reflexivity|].
  split; [vm_compute; reflexivity|].
  split; [|split].
  - intros st line token flag before after Hexec Hnum Hline Hfirst Hcat Hname.
    rewrite (processLine_value _ _ _ _ _ _ Hexec Hnum Hline Hfirst).
    rewrite storeEntry_plain by assumption. reflexivity.
  - exact removeTrailingParens_unit.
  - exact removeTrailingParens_none.
Qed.

Lemma parse_value_line_witness :
  processLine {| dataMap := ∅; currentCategory := js "Oculomotor" |}
              (js "  Peak velocity (deg/s): 412.5 deg  ")
  = Returned
      {| dataMap :=
           {[ js "Oculomotor" :=
                {[ js "Peak velocity" :=
                     {| value := 412.5; isFlagged := false |} ]} ]};
         currentCategory := js "Oculomotor" |}
  /\ removeTrailingParens (js "Peak velocity (deg/s)") = js "Peak velocity"
  /\ removeTrailingParens (js "Gain") = js "Gain".
Proof.
  destruct parse_value_line as (_ & _ & Hstore & Hunit & Hnone).
  split; [|split].
  - rewrite (Hstore _ _ (js "412.5") (js "Peak velocity (deg/s)")
               (js " 412.5 deg") false).
    + vm_compute. reflexivity.
    + vm_compute. reflexivity.
    + vm_compute. reflexivity.
    + vm_compute. reflexivity.
    + apply (bool_decide_unpack _). vm_compute. exact I.
    + vm_compute. reflexivity.
    + apply (bool_decide_unpack _). vm_compute. exact I.
  - apply (Hunit (js "Peak velocity") (js "deg/s")).
    + vm_compute. reflexivity.
    + apply (bool_decide_unpack _). vm_compute. exact I.
    + discriminate.
    + apply (bool_decide_unpack _). vm_compute. exact I.
  - apply Hnone. vm_compute. reflexivity.
Defined.

(** C4. A trimmed line that ends with [:], does not match the value-line
    pattern and is not the findings-summary header sets the current
    category to the line without its final [:] and without a final [" //"];
    the findings-summary header is skipped and leaves the category as it
    was. Parsing ["VISUOMOTOR //:"] followed by ["Gain: 0.85"] yields the
    category ["VISUOMOTOR"] holding the metric [Gain] with value [0.85] and
    [isFlagged] false. (No line that ends with [:] matches the value-line
    pattern.) *)
Theorem parse_category_header :
  (forall line : jstring,
      endsWith line (js ":") = true -> valueRegex_exec line = None)
  /\ (forall (st : State) (line : jstring),
        endsWith (trim line) (js ":") = true ->
        valueRegex_exec (trim line) = None ->
        includes (trim line) (js "Summary of Flagged Findings") = false ->
        processLine st line =
          Returned {| dataMap := dataMap st;
                      currentCategory := categoryOf (trim line) |})
  /\ (forall (st : State) (line : jstring),
        endsWith (trim line) (js ":") = true ->
        valueRegex_exec (trim line) = None ->
        includes (trim line) (js "Summary of Flagged Findings") = true ->
        processLine st line = Returned st)
  /\ (forall name : jstring,
        trim name = name -> endsWith name (js " //") = false ->
        categoryOf (name ++ js ":") = name)
  /\ (forall name : jstring,
        trim name = name -> name <> [] ->
        categoryOf (name ++ js " //:") = name)
  /\ parseVngText (Text (js "VISUOMOTOR //:" ++ LF ++ js "Gain: 0.85"))
     = Returned
         {[ js "VISUOMOTOR" :=
              {[ js "Gain" := {| value := 0.85; isFlagged := false |} ]} ]}.
Proof.
  split; [exact valueRegex_not_header|].
  split; [|split; [|split; [|split]]].
  - intros st line Hend Hexec Hsummary.
    rewrite (processLine_header _ _ Hend Hexec), Hsummary. reflexivity.
  - intros st line Hend Hexec Hsummary.
    rewrite (processLine_header _ _ Hend Hexec), Hsummary. reflexivity.
  - exact categoryOf_plain.
  - exact categoryOf_slashes.
  - vm_compute. reflexivity.
Qed.

Lemma parse_category_header_witness :
  valueRegex_exec (js "Latency: 200 ms:") = None
  /\ processLine initial (js "  Saccades:  ")
  = Returned {| dataMap := ∅; currentCategory := js "Saccades" |}
  /\ processLine initial (js "Summary of Flagged Findings:") = Returned initial
  /\ categoryOf (js "Smooth Pursuit:") = js "Smooth Pursuit"
  /\ categoryOf (js "VISUOMOTOR //:") = js "VISUOMOTOR".
Proof.
  destruct parse_category_header
    as (Hnever & Hset & Hskip & Hplain & Hslashes & _).
  split; [|split; [|split; [|split]]].
  - apply Hnever. vm_compute. reflexivity.
  - rewrite Hset; vm_compute; reflexivity.
  - apply Hskip; vm_compute; reflexivity.
  - apply (Hplain (js "Smooth Pursuit")); vm_compute; reflexivity.
  - apply (Hslashes (js "VISUOMOTOR")); [vm_compute; reflexivity|discriminate].
Defined.

(** C8, at the inputs where the code departs from it. The claim: the parser
    returns for every input without throwing and touches nothing but the
    map it returns. A header line that names ["__proto__"] makes the next
    value line write through [dataMap["__proto__"]], that is, on
    [Object.prototype]: a metric called ["__proto__"] there throws a
    [TypeError]; after a header naming any other member of
    [Object.prototype] the reading is assigned on that built-in object and
    not in the map. *)
Theorem parseVngText_prototype_names :
  parseVngText (Text (js "__proto__:" ++ LF ++ js "__proto__: 1")) = Threw
  /\ parseVngText (Text (js "__proto__:" ++ LF ++ js "Gain: 0.85"))
     = TouchedPrototype
  /\ parseVngText (Text (js "constructor:" ++ LF ++ js "Gain: 0.85"))
     = TouchedPrototype.
Proof. repeat split; vm_compute; reflexivity. Qed.

(** C10. Every metric entry of the map returned by [parseVngText] holds a
    [value] that is a number other than [NaN] (a line whose numeric token
    parses to [NaN] creates no entry) and an [isFlagged] that is a
    boolean. *)
Theorem parsed_values_not_NaN (text : argument)
    (d : DataMap)
    (category metric : jstring) (r : MetricReading) :
  parseVngText text = Returned d ->
  entry d category metric = Some r ->
  isNaN (value r) = false /\ (isFlagged r = true \/ isFlagged r = false).
Proof.
  intros Hparse Hentry. split; [|destruct (isFlagged r); auto].
  revert category metric r Hentry. change (readings_valid d).
  destruct text as [|s]; simpl in Hparse.
  - injection Hparse as <-. intros c m r H. discriminate.
  - destruct s as [|c s].
    + injection Hparse as <-. intros c m r H. discriminate.
    + destruct (parseLines initial (lines (c :: s))) as [st| |] eqn:Hlines;
        try discriminate.
      simpl in Hparse. injection Hparse as <-.
      eapply parseLines_valid; [|exact Hlines].
      intros c' m r H. discriminate.
Qed.

Lemma parsed_values_not_NaN_witness :
  isNaN 2.5 = false /\ (true = true \/ true = false).
Proof.
  apply (parsed_values_not_NaN
           (Text (js "Gain: - | FLAG" ++ LF ++ js "Gain: 2.5 | FLAG"))
           {[ js "General" :=
                {[ js "Gain" := {| value := 2.5; isFlagged := true |} ]} ]}
           (js "General") (js "Gain")
           {| value := 2.5; isFlagged := true |}).
  - vm_compute. reflexivity.
  - vm_compute. reflexivity.
Defined.

(* ===================================================================== *)
(** * Properties of the analyzer                                         *)
(* ===================================================================== *)

Section AnalyzerSound.

Implicit Types (files : list FileData) (category metric pair : jstring).
Implicit Types (res : Results).

Lemma readMetric_own (f : FileData) category metric r :
  entry (data f) category metric = Some r ->
  readMetric f category metric = Returned (OwnEntry r).
Proof.
  unfold readMetric, entry. destruct (data f !! category) as [metrics|]; simpl;
    [|discriminate].
  intros ->. reflexivity.
Qed.

Lemma readMetric_OwnEntry (f : FileData) category metric r :
  readMetric f category metric = Returned (OwnEntry r) ->
  entry (data f) category metric = Some r.
Proof.
  unfold readMetric, entry. destruct (data f !! category) as [metrics|]; simpl.
  - destruct (metrics !! metric); [congruence|].
    destruct (inherited metric); discriminate.
  - case_bool_decide.
    + destruct (inherited metric && _); discriminate.
    + destruct (inherited category); discriminate.
Qed.

Lemma omap_cons {A B} (g : A -> option B) (x : A) (l : list A) :
  omap g (x :: l) =
    match g x with
    | Some y => y :: omap g l
    | None => omap g l
    end.
Proof. reflexivity. Qed.

Lemma omap_all_Some {A B} (g : A -> option B) (l : list A) :
  length (omap g l) = length l ->
  Forall2 (fun x y => g x = Some y) l (omap g l).
Proof.
  assert (Hle : forall k : list A, length (omap g k) <= length k).
  { induction k as [|x k IH]; [reflexivity|].
    rewrite omap_cons. destruct (g x); simpl; lia. }
  induction l as [|x l IH]; [constructor|].
  rewrite omap_cons. intros Hlen.
  destruct (g x) as [y|] eqn:Hx; simpl in Hlen.
  - constructor; [exact Hx|]. apply IH. lia.
  - specialize (Hle l). lia.
Qed.

Lemma Forall2_compose {A B C} (P : A -> B -> Prop) (Q : B -> C -> Prop)
    (l : list A) (k : list B) (m : list C) :
  Forall2 P l k -> Forall2 Q k m ->
  Forall2 (fun a c => exists b, P a b /\ Q b c) l m.
Proof.
  intros H. revert m. induction H as [|a b l k Hab _ IH]; intros m Hm.
  - inversion Hm. constructor.
  - inversion Hm as [|b' c k' m' Hbc Hkm]; subst.
    constructor; [exists b; split; assumption|]. apply IH. exact Hkm.
Qed.

(** The loop over the files pushes what it finds, in file order. *)
Lemma collect_from files category metric values0 flags0 values flags :
  forOf (pushMetric category metric) files (values0, flags0)
  = Returned (values, flags) ->
  exists founds : list found,
    Forall2 (fun f found => readMetric f category metric = Returned found)
            files founds
    /\ values = values0 ++ (omap pushed founds).*1
    /\ flags = flags0 ++ (omap pushed founds).*2.
Proof.
  revert values0 flags0.
  induction files as [|f files IH]; intros values0 flags0 H; simpl in H.
  - injection H as <- <-. exists []. rewrite !app_nil_r.
    split; [constructor|]. split; reflexivity.
  - destruct (readMetric f category metric) as [found| |] eqn:Hread;
      try discriminate.
    simpl in H.
    destruct found as [r| |]; apply IH in H as (founds & Hall & -> & ->).
    + exists (OwnEntry r :: founds). split; [constructor; assumption|].
      rewrite omap_cons. simpl. rewrite <- !app_assoc. split; reflexivity.
    + exists (InheritedMember :: founds). split; [constructor; assumption|].
      rewrite omap_cons. simpl. rewrite <- !app_assoc. split; reflexivity.
    + exists (Nothing :: founds). split; [constructor; assumption|].
      rewrite omap_cons. simpl. split; reflexivity.
Qed.

Lemma collect_complete files category metric values flags :
  collect files category metric = Returned (values, flags) ->
  length values = length files ->
  exists items : list (numeric * option bool),
    Forall2 (fun f item =>
               exists found,
                 readMetric f category metric = Returned found
                 /\ pushed found = Some item)
            files items
    /\ values = items.*1 /\ flags = items.*2.
Proof.
  intros H Hlen. apply collect_from in H as (founds & Hall & -> & ->).
  simpl in *. rewrite length_fmap in Hlen.
  rewrite (Forall2_length _ _ _ Hall) in Hlen.
  exists (omap pushed founds). split; [|split; reflexivity].
  exact (Forall2_compose _ _ _ _ _ Hall (omap_all_Some _ _ Hlen)).
Qed.

Lemma collect_own files category metric readings :
  Forall2 (fun f r => entry (data f) category metric = Some r) files readings ->
  collect files category metric
  = Returned (valuesOf readings, flagsOf readings).
Proof.
  intros Hall. unfold collect.
  change (valuesOf readings) with ([] ++ valuesOf readings).
  change (flagsOf readings) with ([] ++ flagsOf readings).
  generalize (@nil numeric) (@nil (option bool)).
  induction Hall as [|f r files readings Hr _ IH]; intros values0 flags0; simpl.
  - rewrite !app_nil_r. reflexivity.
  - rewrite (readMetric_own _ _ _ _ Hr). simpl.
    rewrite IH, <- !app_assoc. reflexivity.
Qed.

(** One pair either leaves the results as they are or stores the series
    of what was found under the pair in each file. *)
Lemma processPair_Returned files res pair res' :
  processPair files res pair = Returned res' ->
  res' = res
  \/ exists category metric s,
       seriesOk files category metric s
       /\ storeEntry res category metric s = Returned res'.
Proof.
  unfold processPair. intros H.
  destruct (collect files _ _) as [[values flags]| |] eqn:Hcollect;
    try discriminate.
  simpl in H. case_bool_decide as Hlen.
  - injection H as <-. left. reflexivity.
  - right. assert (Hlen' : length values = length files).
    { destruct (decide (length values = length files)); [assumption|contradiction]. }
    destruct (collect_complete _ _ _ _ _ Hcollect Hlen')
      as (items & Hall & -> & ->).
    eexists _, _, _. split; [|exact H].
    exists items. split; [exact Hall|reflexivity].
Qed.

Lemma processPairs_sound files pairs res res' :
  (forall category metric s,
      entry res category metric = Some s -> seriesOk files category metric s) ->
  forOf (processPair files) pairs res = Returned res' ->
  forall category metric s,
    entry res' category metric = Some s -> seriesOk files category metric s.
Proof.
  revert res. induction pairs as [|pair pairs IH]; intros res Hres H; simpl in H.
  - injection H as <-. exact Hres.
  - destruct (processPair files res pair) as [res1| |] eqn:Hpair;
      try discriminate.
    simpl in H. apply (IH res1); [|exact H].
    apply processPair_Returned in Hpair
      as [->|(c & m & s & Hok & Hstore)]; [exact Hres|].
    intros category metric s' Hentry.
    rewrite (storeEntry_entry _ _ _ _ _ _ _ Hstore) in Hentry.
    case_decide as Heq; [|eauto].
    destruct Heq as [-> ->]. injection Hentry as <-. exact Hok.
Qed.

(** Every series of the output is built from what the loop found under
    its pair in each file, one entry per file. *)
Lemma runAnalysis_sound files res category metric s :
  runAnalysis files = Returned res ->
  entry res category metric = Some s ->
  seriesOk files category metric s.
Proof.
  destruct files as [|first rest]; simpl; intros H Hentry.
  - injection H as <-. discriminate.
  - eapply processPairs_sound; [|exact H|exact Hentry].
    intros c m s' Hs'. discriminate.
Qed.

(** Where every file holds a reading under the pair, the series is made
    of the readings. *)
Lemma items_of_readings files category metric readings
    (items : list (numeric * option bool)) :
  Forall2 (fun f r => entry (data f) category metric = Some r) files readings ->
  Forall2 (fun f item =>
             exists found,
               readMetric f category metric = Returned found
               /\ pushed found = Some item)
          files items ->
  items.*1 = valuesOf readings /\ items.*2 = flagsOf readings.
Proof.
  intros Hall. revert items.
  induction Hall as [|f r files readings Hr _ IH]; intros items Hitems.
  - apply Forall2_nil_inv_l in Hitems as ->. split; reflexivity.
  - apply Forall2_cons_inv_l in Hitems
      as (item & items' & (found & Hread & Hpushed) & Hitems & ->).
    rewrite (readMetric_own _ _ _ _ Hr) in Hread. injection Hread as <-.
    injection Hpushed as <-. destruct (IH _ Hitems) as [Hv Hf].
    unfold valuesOf, flagsOf in *. rewrite !fmap_cons. rewrite Hv, Hf.
    split; reflexivity.
Qed.

(** Every series of the output has one value and one flag per file. *)
Lemma series_lengths files res category metric s :
  runAnalysis files = Returned res ->
  entry res category metric = Some s ->
  length (values s) = length files /\ length (flags s) = length files.
Proof.
  intros Hrun Hentry.
  destruct (runAnalysis_sound _ _ _ _ _ Hrun Hentry) as (items & Hall & ->).
  simpl. rewrite !length_fmap.
  pose proof (Forall2_length _ _ _ Hall) as Hlen. lia.
Qed.

(** An entry of a series is the reading of the file at the same
    position, or [undefined] where the file holds no reading under the
    pair. *)
Lemma series_entries files res category metric s (i : nat) (f : FileData) :
  runAnalysis files = Returned res ->
  entry res category metric = Some s ->
  files !! i = Some f ->
  match entry (data f) category metric with
  | Some r =>
      values s !! i = Some (num (value r))
      /\ flags s !! i = Some (Some (isFlagged r))
  | None => values s !! i = Some undefined /\ flags s !! i = Some None
  end.
Proof.
  intros Hrun Hentry Hf.
  destruct (runAnalysis_sound _ _ _ _ _ Hrun Hentry) as (items & Hall & ->).
  destruct (Forall2_lookup_l _ _ _ _ _ Hall Hf)
    as (item & Hitem & found & Hread & Hpushed).
  simpl. rewrite !list_lookup_fmap, Hitem. simpl.
  destruct found as [r| |]; simpl in Hpushed; try discriminate.
  - rewrite (readMetric_OwnEntry _ _ _ _ Hread).
    injection Hpushed as <-. split; reflexivity.
  - injection Hpushed as <-.
    destruct (entry (data f) category metric) as [r|] eqn:Hr.
    + rewrite (readMetric_own _ _ _ _ Hr) in Hread. discriminate.
    + split; reflexivity.
Qed.

End AnalyzerSound.

(** C9, at an input where the code departs from it. A report with the
    header lines ["Saccades::toString:"] and ["Saccades:"] parses to a
    map that holds no reading under the pair [Saccades / toString]; the
    analysis of this one file has a series for that pair all the same,
    whose entry of [values] and of [flags] is [undefined]: it is read
    from the [toString] that every object inherits, not from the file
    (the claim: every entry is taken from the file at its position). *)
Theorem series_from_inherited_member :
  parseVngText
    (Text (js "Saccades::toString:" ++ LF ++ js "Gain: 1" ++ LF
           ++ js "Saccades:" ++ LF ++ js "Latency: 200"))
  = Returned (data inheritedMetricVisit)
  /\ entry (data inheritedMetricVisit) (js "Saccades") (js "toString") = None
  /\ exists res : Results,
       runAnalysis [inheritedMetricVisit] = Returned res
       /\ entry res (js "Saccades") (js "toString") = Some inheritedSeries
       /\ values inheritedSeries = [undefined]
       /\ flags inheritedSeries = [None].
Proof.
  split; [vm_compute; reflexivity|]. split; [vm_compute; reflexivity|].
  eexists. split; [vm_compute; reflexivity|].
  split; [vm_compute; reflexivity|]. split; reflexivity.
Qed.

(** C2. For every MetricSeries of the output: with exactly two input files
    [delta] is [values[1] - values[0]] and [percentChange] is computed from
    [values[0]] as baseline to [values[1]]; with any other number of files
    both are [null]; [stdDev] is computed when there are two files or more
    and is [null] otherwise. With a single file all three are [null]. *)
Theorem series_statistics (files : list FileData)
    (res : Results)
    (category metric : jstring) (s : MetricSeries) :
  runAnalysis files = Returned res ->
  entry res category metric = Some s ->
  (length files = 2 ->
   exists v0 v1 : numeric,
     values s = [v0; v1]
     /\ delta s = Some (ToNumber v1 - ToNumber v0)%float
     /\ percentChange s = calculatePercentChange v0 v1)
  /\ (length files <> 2 -> delta s = None /\ percentChange s = None)
  /\ (2 <= length files -> stdDev s = Some (calculateStdDev (values s)))
  /\ (length files < 2 -> stdDev s = None)
  /\ (length files = 1 ->
      delta s = None /\ percentChange s = None /\ stdDev s = None).
Proof.
  intros Hrun Hentry.
  destruct (runAnalysis_sound _ _ _ _ _ Hrun Hentry) as (items & Hall & ->).
  pose proof (Forall2_length _ _ _ Hall) as Hlen.
  unfold seriesFor. cbn [values delta percentChange stdDev].
  split; [|split; [|split; [|split]]].
  - intros H2. rewrite H2 in *.
    destruct items as [|i0 [|i1 [|i2 items]]]; try discriminate.
    exists i0.1, i1.1. repeat split.
  - intros Hn. rewrite !bool_decide_eq_false_2 by assumption. split; reflexivity.
  - intros Hge. rewrite bool_decide_eq_true_2 by assumption. reflexivity.
  - intros Hlt. rewrite bool_decide_eq_false_2 by lia. reflexivity.
  - intros H1. rewrite !bool_decide_eq_false_2 by lia. repeat split.
Qed.

Lemma series_statistics_witness :
  (length [firstVisit; secondVisit] = 2 ->
   exists v0 v1 : numeric,
     values latencySeries = [v0; v1]
     /\ delta latencySeries = Some (ToNumber v1 - ToNumber v0)%float
     /\ percentChange latencySeries = calculatePercentChange v0 v1)
  /\ (length [firstVisit; secondVisit] <> 2 ->
      delta latencySeries = None /\ percentChange latencySeries = None)
  /\ (2 <= length [firstVisit; secondVisit] ->
      stdDev latencySeries
      = Some (calculateStdDev (values latencySeries)))
  /\ (length [firstVisit; secondVisit] < 2 -> stdDev latencySeries = None)
  /\ (length [firstVisit; secondVisit] = 1 ->
      delta latencySeries = None /\ percentChange latencySeries = None
      /\ stdDev latencySeries = None).
Proof.
  apply (series_statistics [firstVisit; secondVisit]
           {[ js "Saccades" := {[ js "Latency" := latencySeries ]} ]}
           (js "Saccades") (js "Latency")).
  - vm_compute. reflexivity.
  - vm_compute. reflexivity.
Defined.

Section AnalyzerComplete.

Implicit Types (files : list FileData) (category metric pair k : jstring).
Implicit Types (res : Results).

Lemma splitColons_cons cur c s :
  splitColons cur (c :: s) =
    match s with
    | d :: s'' =>
        if ((c =? 58) && (d =? 58))%N then rev cur :: splitColons [] s''
        else splitColons (c :: cur) s
    | [] => splitColons (c :: cur) s
    end.
Proof. destruct s; reflexivity. Qed.

Lemma includes_cons c s t :
  includes (c :: s) t = startsWith (c :: s) t || includes s t.
Proof. reflexivity. Qed.

Lemma startsWith_colons c d s :
  startsWith (c :: d :: s) (js "::") = ((c =? 58) && (d =? 58))%N.
Proof.
  change (js "::") with [58%N; 58%N]. cbn [startsWith].
  rewrite andb_true_r. reflexivity.
Qed.

(** Without two colons in a row there is nothing to cut. *)
Lemma splitColons_none cur s :
  includes s (js "::") = false -> splitColons cur s = [rev cur ++ s].
Proof.
  revert cur. induction s as [|c s IH]; intros cur H.
  - simpl. rewrite app_nil_r. reflexivity.
  - rewrite includes_cons in H. apply orb_false_iff in H as [Hstart Hrest].
    rewrite splitColons_cons. destruct s as [|d s].
    + reflexivity.
    + rewrite startsWith_colons in Hstart. rewrite Hstart.
      rewrite IH by assumption. simpl. rewrite <- app_assoc. reflexivity.
Qed.

Lemma endsWith_colon_cons c d s :
  endsWith (c :: d :: s) (js ":") = endsWith (d :: s) (js ":").
Proof.
  unfold endsWith. change (rev (js ":")) with [58%N].
  change (rev (c :: d :: s)) with (rev (d :: s) ++ [c]).
  destruct (rev (d :: s)) as [|x r] eqn:Hr; [|reflexivity].
  apply (f_equal (@length jchar)) in Hr. rewrite length_rev in Hr. discriminate.
Qed.

(** The key of a clean pair splits back into the pair. *)
Lemma splitColons_key cur category metric :
  includes category (js "::") = false ->
  endsWith category (js ":") = false ->
  includes metric (js "::") = false ->
  splitColons cur (pairKey category metric) = [rev cur ++ category; metric].
Proof.
  unfold pairKey. revert cur.
  induction category as [|c category IH]; intros cur Hin Hend Hmetric.
  - change ([] ++ js "::" ++ metric) with (58%N :: 58%N :: metric).
    rewrite splitColons_cons. cbn [N.eqb Pos.eqb andb].
    rewrite splitColons_none by assumption. rewrite app_nil_r. reflexivity.
  - change ((c :: category) ++ js "::" ++ metric)
      with (c :: (category ++ js "::" ++ metric)).
    rewrite splitColons_cons.
    rewrite includes_cons in Hin. apply orb_false_iff in Hin as [Hstart Hrest].
    destruct category as [|d category].
    + change ([] ++ js "::" ++ metric) with (58%N :: 58%N :: metric).
      assert (Hc : (c =? 58)%N = false).
      { unfold endsWith in Hend. simpl in Hend.
        rewrite andb_true_r in Hend. exact Hend. }
      cbv beta iota. rewrite Hc. cbn [andb].
      change (58%N :: 58%N :: metric) with ([] ++ js "::" ++ metric).
      rewrite IH by (assumption || reflexivity).
      simpl. rewrite <- app_assoc. reflexivity.
    + change ((d :: category) ++ js "::" ++ metric)
        with (d :: (category ++ js "::" ++ metric)).
      rewrite startsWith_colons in Hstart. cbv beta iota. rewrite Hstart.
      change (d :: (category ++ js "::" ++ metric))
        with ((d :: category) ++ js "::" ++ metric).
      rewrite endsWith_colon_cons in Hend.
      rewrite IH by assumption.
      simpl. rewrite <- app_assoc. reflexivity.
Qed.

Lemma splitColons_clean category metric :
  cleanCategory category -> cleanMetric metric ->
  splitColons [] (pairKey category metric) = [category; metric].
Proof.
  intros (Hin & Hend & _) (Hmetric & _).
  apply (splitColons_key [] category metric); assumption.
Qed.

(** ** The sets of pairs *)

Lemma elem_of_Set_add (s : list jstring) x k :
  k ∈ Set_add s x <-> k ∈ s \/ k = x.
Proof.
  unfold Set_add, Set_has. case_bool_decide as Hx.
  - split; [auto|]. intros [?| ->]; assumption.
  - rewrite elem_of_app, list_elem_of_singleton. reflexivity.
Qed.

(** A loop that only adds to a set. *)
Lemma elem_of_foldl_grow {A} (F : list jstring -> A -> list jstring)
    (Q : A -> jstring -> Prop) :
  (forall acc x k, k ∈ F acc x <-> k ∈ acc \/ Q x k) ->
  forall xs acc k,
    k ∈ foldl F acc xs <-> k ∈ acc \/ exists x, x ∈ xs /\ Q x k.
Proof.
  intros HF. induction xs as [|x xs IH]; intros acc k; simpl.
  - split; [auto|]. intros [?|(x & Hx & _)]; [assumption|].
    apply elem_of_nil in Hx. contradiction.
  - rewrite IH, HF. split.
    + intros [[?|?]|(y & Hy & HQ)]; [auto| |].
      * right. exists x. split; [apply list_elem_of_here|assumption].
      * right. exists y. split; [apply list_elem_of_further|]; assumption.
    + intros [?|(y & Hy & HQ)]; [auto|].
      apply elem_of_cons in Hy as [->|Hy]; [auto|].
      right. exists y. split; assumption.
Qed.

(** The keys of the pairs of one file. *)
Lemma elem_of_pairsOf (d : DataMap) k :
  k ∈ pairsOf d <->
  exists category metric,
    is_Some (entry d category metric) /\ k = pairKey category metric.
Proof.
  unfold pairsOf.
  rewrite (elem_of_foldl_grow _
             (fun cm k => exists metric, is_Some (cm.2 !! metric)
                                         /\ k = pairKey cm.1 metric)).
  - split.
    + intros [H|((category & metrics) & Hin & metric & Hm & ->)].
      * apply elem_of_nil in H. contradiction.
      * apply elem_of_map_to_list in Hin. exists category, metric.
        split; [|reflexivity]. unfold entry. rewrite Hin. exact Hm.
    + intros (category & metric & Hentry & ->). right. unfold entry in Hentry.
      destruct (d !! category) as [metrics|] eqn:Hc;
        [|destruct Hentry; discriminate].
      exists (category, metrics). split; [apply elem_of_map_to_list; exact Hc|].
      exists metric. split; [exact Hentry|reflexivity].
  - intros acc [category metrics] k'. simpl.
    rewrite (elem_of_foldl_grow _
               (fun mr k => k = pairKey category mr.1)).
    + split.
      * intros [?|((metric & r) & Hin & ->)]; [auto|].
        apply elem_of_map_to_list in Hin. right. exists metric.
        split; [rewrite Hin; eauto|reflexivity].
      * intros [?|(metric & [r Hr] & ->)]; [auto|]. right.
        exists (metric, r). split; [apply elem_of_map_to_list; exact Hr|reflexivity].
    + intros acc' [metric r] k''. simpl. apply elem_of_Set_add.
Qed.

Lemma elem_of_keepCommon (commonPairs : list jstring) (f : FileData) k :
  k ∈ keepCommon commonPairs f <-> k ∈ commonPairs /\ k ∈ pairsOf (data f).
Proof.
  unfold keepCommon.
  set (new := foldl _ [] commonPairs).
  assert (Hnew : forall k, k ∈ new <-> k ∈ commonPairs /\ k ∈ pairsOf (data f)).
  { intros k'. unfold new.
    rewrite (elem_of_foldl_grow _
               (fun pair k => Set_has (pairsOf (data f)) pair = true
                              /\ k = pair)).
    - unfold Set_has. split.
      + intros [H|(pair & Hin & Hhas & ->)];
          [apply elem_of_nil in H; contradiction|].
        apply bool_decide_eq_true in Hhas. split; assumption.
      + intros [Hin Hf]. right. exists k'. split; [exact Hin|].
        split; [apply bool_decide_eq_true; exact Hf|reflexivity].
    - intros acc pair k''. destruct (Set_has _ pair).
      + rewrite elem_of_Set_add. split.
        * intros [?| ->]; auto.
        * intros [?|[_ ->]]; auto.
      + split; [auto|]. intros [?|[? _]]; [assumption|discriminate]. }
  rewrite (elem_of_foldl_grow Set_add (fun x k => k = x))
    by (intros; apply elem_of_Set_add).
  rewrite <- Hnew. split.
  - intros [H|(x & Hx & ->)]; [apply elem_of_nil in H; contradiction|assumption].
  - intros H. right. exists k. split; [assumption|reflexivity].
Qed.

Lemma elem_of_commonPairs (rest : list FileData) (commonPairs : list jstring) k :
  k ∈ foldl keepCommon commonPairs rest <->
  k ∈ commonPairs /\ Forall (fun f => k ∈ pairsOf (data f)) rest.
Proof.
  revert commonPairs. induction rest as [|f rest IH]; intros commonPairs; simpl.
  - split; [intros H; split; [assumption|constructor]|intros [H _]; exact H].
  - rewrite IH, elem_of_keepCommon, Forall_cons. tauto.
Qed.

End AnalyzerComplete.

Section AnalyzerClean.

Implicit Types (files : list FileData) (category metric pair k : jstring).
Implicit Types (res : Results).

(** A pair of clean names that every file holds is stored. *)
Lemma processPair_clean files res category metric readings :
  cleanCategory category -> cleanMetric metric ->
  Forall2 (fun f r => entry (data f) category metric = Some r) files readings ->
  processPair files res (pairKey category metric) =
    Returned
      (<[category :=
           <[metric := seriesFor (length files) (valuesOf readings)
                         (flagsOf readings)]>
             (default ∅ (res !! category))]> res).
Proof.
  intros Hc Hm Hall. unfold processPair.
  rewrite (splitColons_clean _ _ Hc Hm). cbn [nth].
  rewrite (collect_own _ _ _ _ Hall). cbn [bind].
  rewrite bool_decide_eq_false_2.
  - apply storeEntry_plain; [apply Hc|apply Hm].
  - unfold valuesOf. rewrite length_fmap. apply Forall2_length in Hall.
    intros Hne. lia.
Qed.

Lemma processPairs_clean files pairs res :
  Forall (commonPair files) pairs ->
  exists res',
    forOf (processPair files) pairs res = Returned res'
    /\ forall category metric,
         is_Some (entry res' category metric) <->
         is_Some (entry res category metric)
         \/ exists k, k ∈ pairs /\ splitColons [] k = [category; metric].
Proof.
  revert res. induction pairs as [|k pairs IH]; intros res Hpairs.
  - exists res. split; [reflexivity|]. intros category metric. split; [auto|].
    intros [?|(k & Hk & _)]; [assumption|].
    apply elem_of_nil in Hk. contradiction.
  - apply Forall_cons in Hpairs
      as [(c & m & readings & -> & Hc & Hm & Hall) Hpairs].
    cbn [forOf]. rewrite (processPair_clean _ res _ _ _ Hc Hm Hall). cbn [bind].
    destruct (IH (<[c := <[m := seriesFor (length files) (valuesOf readings)
                                   (flagsOf readings)]>
                           (default ∅ (res !! c))]> res) Hpairs)
      as (res' & -> & Hres').
    exists res'. split; [reflexivity|]. intros category metric.
    rewrite Hres'. rewrite entry_insert.
    assert (Hfirst :
      is_Some (if decide (category = c)
               then <[m := seriesFor (length files) (valuesOf readings)
                             (flagsOf readings)]>
                      (default ∅ (res !! c)) !! metric
               else entry res category metric)
      <-> is_Some (entry res category metric)
          \/ splitColons [] (pairKey c m) = [category; metric]).
    { rewrite (splitColons_clean _ _ Hc Hm).
      destruct (decide (category = c)) as [->|Hne].
      - destruct (decide (metric = m)) as [->|Hnm].
        + rewrite lookup_insert_eq. split; [auto|eauto].
        + rewrite lookup_insert_ne by congruence. unfold entry.
          destruct (res !! c); simpl.
          * split; [auto|]. intros [?|?]; [assumption|congruence].
          * rewrite lookup_empty. split; [auto|].
            intros [?|?]; [assumption|congruence].
      - split; [auto|]. intros [?|?]; [assumption|congruence]. }
    rewrite Hfirst. split.
    + intros [[?|Hk]|(k & Hk & Hsplit)]; [auto| |].
      * right. eexists. split; [apply list_elem_of_here|exact Hk].
      * right. exists k. split; [apply list_elem_of_further|]; assumption.
    + intros [?|(k & Hk & Hsplit)]; [auto|].
      apply elem_of_cons in Hk as [->|Hk]; [auto|].
      right. exists k. split; assumption.
Qed.

Lemma Forall_entries files category metric :
  Forall (fun f => is_Some (entry (data f) category metric)) files ->
  exists readings,
    Forall2 (fun f r => entry (data f) category metric = Some r) files readings.
Proof.
  induction 1 as [|f files [r Hr] _ [readings IH]].
  - exists []. constructor.
  - exists (r :: readings). constructor; assumption.
Qed.

(** With clean names the common set holds the keys of the pairs that
    every file has, and nothing else. *)
Lemma commonPairs_clean (first : FileData) (rest : list FileData) k :
  Forall cleanFile (first :: rest) ->
  k ∈ foldl keepCommon (pairsOf (data first)) rest ->
  commonPair (first :: rest) k.
Proof.
  intros Hclean Hk. apply Forall_cons in Hclean as [Hfirst Hrest].
  apply elem_of_commonPairs in Hk as [Hk Hall].
  apply elem_of_pairsOf in Hk as (c & m & Hentry & ->).
  destruct (Hfirst _ _ Hentry) as [Hc Hm].
  assert (Hevery : Forall (fun f => is_Some (entry (data f) c m)) (first :: rest)).
  { constructor; [exact Hentry|].
    rewrite Forall_forall in Hall, Hrest |- *. intros f Hf.
    specialize (Hall f Hf). apply elem_of_pairsOf in Hall
      as (c' & m' & Hentry' & Hkey).
    destruct (Hrest f Hf _ _ Hentry') as [Hc' Hm'].
    pose proof (splitColons_clean _ _ Hc Hm) as Hsplit.
    rewrite Hkey, (splitColons_clean _ _ Hc' Hm') in Hsplit.
    injection Hsplit as -> ->. exact Hentry'. }
  destruct (Forall_entries _ _ _ Hevery) as [readings Hreadings].
  exists c, m, readings. repeat split; try assumption; apply Hc || apply Hm.
Qed.

(** On clean files the analyzer returns, and its keys are the pairs that
    every file holds. *)
Lemma runAnalysis_clean files :
  files <> [] -> Forall cleanFile files ->
  exists res,
    runAnalysis files = Returned res
    /\ forall category metric,
         is_Some (entry res category metric) <->
         Forall (fun f => is_Some (entry (data f) category metric)) files.
Proof.
  destruct files as [|first rest]; [congruence|]. intros _ Hclean.
  cbn [runAnalysis].
  destruct (processPairs_clean (first :: rest)
              (foldl keepCommon (pairsOf (data first)) rest) ∅)
    as (res & Hrun & Hkeys).
  { apply Forall_forall. intros k Hk. eapply commonPairs_clean; eassumption. }
  exists res. split; [exact Hrun|]. intros category metric.
  rewrite Hkeys. split.
  - intros [[s Hs]|(k & Hk & Hsplit)]; [discriminate|].
    destruct (commonPairs_clean _ _ _ Hclean Hk)
      as (c & m & readings & -> & Hc & Hm & Hall).
    rewrite (splitColons_clean _ _ Hc Hm) in Hsplit. injection Hsplit as <- <-.
    clear -Hall. induction Hall; constructor; eauto.
  - intros Hall. right.
    pose proof Hall as Hall'. apply Forall_cons in Hall' as [Hentry Hrest].
    pose proof Hclean as Hclean'. apply Forall_cons in Hclean' as [Hfirst _].
    destruct (Hfirst _ _ Hentry) as [Hc Hm].
    exists (pairKey category metric). split; [|apply splitColons_clean; assumption].
    apply elem_of_commonPairs. split.
    + apply elem_of_pairsOf. eauto.
    + eapply Forall_impl; [exact Hrest|]. intros f Hf. simpl in Hf.
      apply elem_of_pairsOf. eauto.
Qed.

(** On clean files every series of the output is made of the readings
    that the files hold under its pair. *)
Lemma runAnalysis_clean_series files res category metric s :
  Forall cleanFile files ->
  runAnalysis files = Returned res ->
  entry res category metric = Some s ->
  exists readings,
    Forall2 (fun f r => entry (data f) category metric = Some r) files readings
    /\ s = seriesFor (length files) (valuesOf readings) (flagsOf readings).
Proof.
  intros Hclean Hrun Hs.
  destruct files as [|first rest].
  { injection Hrun as <-. discriminate. }
  destruct (runAnalysis_clean (first :: rest)) as (res' & Hrun' & Hkeys);
    [discriminate|exact Hclean|].
  rewrite Hrun in Hrun'. injection Hrun' as <-.
  destruct (Forall_entries _ _ _ (proj1 (Hkeys category metric) (ex_intro _ s Hs)))
    as [readings Hall].
  exists readings. split; [exact Hall|].
  destruct (runAnalysis_sound _ _ _ _ _ Hrun Hs) as (items & Hitems & ->).
  destruct (items_of_readings _ _ _ _ _ Hall Hitems) as [-> ->]. reflexivity.
Qed.

Lemma cleanFile_check (f : FileData) : checkNames f = true -> cleanFile f.
Proof.
  unfold checkNames. rewrite forallb_forall. intros Hall category metric [r Hr].
  unfold entry in Hr. destruct (data f !! category) as [metrics|] eqn:Hc;
    [|discriminate].
  simpl in Hr.
  specialize (Hall (category, metrics)). rewrite forallb_forall in Hall.
  specialize (Hall (proj1 (list_elem_of_In _ _)
                      (proj2 (elem_of_map_to_list _ _ _) Hc)) (metric, r)
                   (proj1 (list_elem_of_In _ _)
                      (proj2 (elem_of_map_to_list _ _ _) Hr))).
  simpl in Hall.
  repeat (apply andb_true_iff in Hall as [Hall ?]).
  repeat match goal with
         | H : negb _ = true |- _ => apply negb_true_iff in H
         end.
  split; [split; [|split]; assumption|].
  split; [assumption|]. apply (proj1 (bool_decide_eq_false _)). assumption.
Qed.

End AnalyzerClean.




(** A key that [split('::')] does not cut where it was joined is looked
    up under other names, and its pair is left out of the output: a
    category that ends with a colon, a metric that holds two colons. *)
Lemma runAnalysis_split_names :
  (runAnalysis [colonVisit] = Returned ∅
   /\ is_Some (entry (data colonVisit) (js "Notes:") (js "Latency")))
  /\ (runAnalysis [splitMetricVisit] = Returned ∅
      /\ is_Some (entry (data splitMetricVisit) (js "VOR") (js "Left::Gain"))).
Proof.
  split.
  - split; [vm_compute; reflexivity|vm_compute; eauto].
  - split; [vm_compute; reflexivity|vm_compute; eauto].
Qed.

(** A category named after a member of [Object.prototype] is found by [in]
    on the results object, which does not hold it: the series is assigned
    on the built-in object and not in the results. *)
Lemma runAnalysis_prototype_names :
  runAnalysis [constructorVisit] = TouchedPrototype
  /\ is_Some (entry (data constructorVisit) (js "constructor") (js "Latency")).
Proof. split; [vm_compute; reflexivity|vm_compute; eauto]. Qed.

(* ===================================================================== *)
(** * Parser and analyzer together                                       *)
(* ===================================================================== *)

Section RoundTrip.

Implicit Types (s t before : jstring) (st : State).

Lemma elem_of_trimStart (x : N) s : x ∈ trimStart s -> x ∈ s.
Proof.
  destruct (trimStart_suffix s) as [ws Hs]. intros Hx.
  rewrite Hs. apply elem_of_app. right. exact Hx.
Qed.

Lemma elem_of_rev (x : N) s : x ∈ rev s <-> x ∈ s.
Proof. rewrite !list_elem_of_In. symmetry. apply in_rev. Qed.

Lemma elem_of_trim (x : N) s : x ∈ trim s -> x ∈ s.
Proof.
  unfold trim, trimEnd. rewrite elem_of_rev. intros Hx.
  apply elem_of_trimStart, elem_of_rev, elem_of_trimStart in Hx. exact Hx.
Qed.

Lemma elem_of_removeTrailingParens (x : N) s :
  x ∈ removeTrailingParens s -> x ∈ s.
Proof.
  induction s as [|c s IH]; cbn [removeTrailingParens].
  - destruct (parenRegex_at []); intros H; exact H.
  - destruct (parenRegex_at (c :: s)).
    + intros H. apply elem_of_nil in H. contradiction.
    + intros H. apply elem_of_cons in H as [->|H].
      * apply list_elem_of_here.
      * apply list_elem_of_further, IH, H.
Qed.

Lemma includes_elem s (c : N) t : includes s (c :: t) = true -> c ∈ s.
Proof.
  induction s as [|d s IH]; [discriminate|].
  rewrite includes_cons. intros H. apply orb_true_iff in H as [H|H].
  - apply startsWith_inv in H as [r Hr]. rewrite Hr. apply list_elem_of_here.
  - apply list_elem_of_further, IH, H.
Qed.

Lemma no_colon_clean s : 58%N ∉ s -> includes s (js "::") = false.
Proof.
  intros Hnot. destruct (includes s (js "::")) eqn:H; [|reflexivity].
  apply includes_elem in H. contradiction.
Qed.

Lemma metricName_no_colon before :
  58%N ∉ before -> 58%N ∉ trim (removeTrailingParens (trim before)).
Proof.
  intros Hnot Hin. apply Hnot.
  apply elem_of_trim, elem_of_removeTrailingParens, elem_of_trim in Hin.
  exact Hin.
Qed.

Lemma processLine_names st line st' :
  parsedNames (dataMap st) ->
  processLine st line = Returned st' ->
  parsedNames (dataMap st').
Proof.
  intros [Hcats Hmetrics] H.
  apply processLine_cases in H
    as [->|[[-> _]|(token & before & Hnot & _ & _ & Hstore)]];
    try (split; assumption).
  pose proof (storeEntry_Returned _ _ _ _ _ Hstore) as (Hd & Hproto & Hnew).
  split.
  - intros category Hc. rewrite Hd in Hc.
    destruct (decide (category = currentCategory st)) as [->|Hne].
    + destruct (dataMap st !! currentCategory st) eqn:Hold; [|auto].
      apply Hcats. rewrite Hold. eauto.
    + rewrite lookup_insert_ne in Hc by congruence. auto.
  - intros category metric Hentry.
    rewrite (storeEntry_entry _ _ _ _ _ _ _ Hstore) in Hentry.
    case_decide as Heq; [|eauto]. destruct Heq as [_ ->].
    split; [exact Hproto|]. apply metricName_no_colon. exact Hnot.
Qed.

Lemma parseLines_names lines st st' :
  parsedNames (dataMap st) ->
  parseLines st lines = Returned st' ->
  parsedNames (dataMap st').
Proof.
  unfold parseLines. revert st.
  induction lines as [|line lines IH]; intros st Hnames H; simpl in H.
  - injection H as <-. exact Hnames.
  - destruct (processLine st line) as [st1| |] eqn:Hline; try discriminate.
    simpl in H. eapply IH; [|exact H].
    eapply processLine_names; eassumption.
Qed.

Lemma parseVngText_names (text : argument) d :
  parseVngText text = Returned d -> parsedNames d.
Proof.
  assert (Hempty : parsedNames ∅).
  { split.
    - intros c [x Hx]. rewrite lookup_empty in Hx. discriminate.
    - intros c m [x Hx]. discriminate. }
  destruct text as [|s]; simpl; intros H.
  - injection H as <-. exact Hempty.
  - destruct s as [|c s].
    + injection H as <-. exact Hempty.
    + destruct (parseLines initial (lines (c :: s))) as [st| |] eqn:Hlines;
        try discriminate.
      simpl in H. injection H as <-.
      eapply parseLines_names; [|exact Hlines]. exact Hempty.
Qed.

(** Two texts that parse to the same keys, none of whose categories holds
    ["::"] or ends with [":"]: the analysis has, for each common pair, the
    values in file order and [delta = values[1] - values[0]]. *)
Lemma analyze_parsed_pair (text1 text2 : argument)
    (d1 d2 : DataMap)
    (name1 name2 : jstring) :
  parseVngText text1 = Returned d1 ->
  parseVngText text2 = Returned d2 ->
  (forall category metric,
      is_Some (entry d1 category metric) <-> is_Some (entry d2 category metric)) ->
  (forall category metric,
      is_Some (entry d1 category metric) ->
      includes category (js "::") = false
      /\ endsWith category (js ":") = false) ->
  exists res,
    runAnalysis [ {| name := name1; data := d1 |};
                  {| name := name2; data := d2 |} ] = Returned res
    /\ forall category metric r1 r2,
         entry d1 category metric = Some r1 ->
         entry d2 category metric = Some r2 ->
         exists series,
           entry res category metric = Some series
           /\ values series = [num (value r1); num (value r2)]
           /\ flags series = [Some (isFlagged r1); Some (isFlagged r2)]
           /\ delta series = Some (value r2 - value r1)%float.
Proof.
  intros Hparse1 Hparse2 Hsame Hcats.
  pose proof (parseVngText_names _ _ Hparse1) as [Hinh1 Hmet1].
  assert (Hclean1 : cleanFile {| name := name1; data := d1 |}).
  { intros c m Hentry. simpl in Hentry.
    destruct (Hcats _ _ Hentry) as [Hin Hend].
    destruct (Hmet1 _ _ Hentry) as [Hproto Hcolon].
    split.
    - split; [exact Hin|]. split; [exact Hend|]. apply Hinh1.
      unfold entry in Hentry. destruct (d1 !! c); [eauto|].
      destruct Hentry; discriminate.
    - split; [apply no_colon_clean; exact Hcolon|exact Hproto]. }
  assert (Hclean2 : cleanFile {| name := name2; data := d2 |}).
  { intros c m Hentry. simpl in Hentry. apply Hsame in Hentry.
    exact (Hclean1 c m Hentry). }
  destruct (runAnalysis_clean
              [ {| name := name1; data := d1 |};
                {| name := name2; data := d2 |} ])
    as (res & Hrun & Hkeys);
    [discriminate|constructor; [|constructor; [|constructor]]; assumption|].
  exists res. split; [exact Hrun|].
  intros category metric r1 r2 Hr1 Hr2.
  destruct (proj2 (Hkeys category metric)) as [series Hs].
  { constructor; [|constructor; [|constructor]]; simpl; eauto. }
  exists series. split; [exact Hs|].
  destruct (runAnalysis_sound _ _ _ _ _ Hrun Hs) as (items & Hitems & ->).
  assert (Hall : Forall2 (fun f r => entry (data f) category metric = Some r)
                   [ {| name := name1; data := d1 |};
                     {| name := name2; data := d2 |} ] [r1; r2]).
  { repeat constructor; assumption. }
  destruct (items_of_readings _ _ _ _ _ Hall Hitems) as [Hv Hf].
  unfold seriesFor. cbn [values flags delta]. rewrite Hv, Hf.
  repeat split.
Qed.

End RoundTrip.

(** C7, at an input where the code departs from it. Two reports with the
    header line ["Oculomotor::Saccades:"] and the value lines
    ["Latency: 200"] and ["Latency: 250"] parse to the same single pair,
    with different values; the analysis of the two has no series for it
    (the claim: values [200, 250] and delta 50). *)
Theorem analyze_parsed_namespaced_header :
  parseVngText (Text (js "Oculomotor::Saccades:" ++ LF ++ js "Latency: 200"))
  = Returned (data (namespacedVisit 200))
  /\ parseVngText (Text (js "Oculomotor::Saccades:" ++ LF ++ js "Latency: 250"))
     = Returned (data (namespacedVisit 250))
  /\ entry (data (namespacedVisit 200)) (js "Oculomotor::Saccades") (js "Latency")
     = Some (reading 200 false)
  /\ entry (data (namespacedVisit 250)) (js "Oculomotor::Saccades") (js "Latency")
     = Some (reading 250 false)
  /\ runAnalysis [namespacedVisit 200; namespacedVisit 250] = Returned ∅.
Proof. repeat split; vm_compute; reflexivity. Qed.

(* ===================================================================== *)
(** * Properties of the mean, the median and the trend line              *)
(* ===================================================================== *)

Section StatisticsMore.

Lemma validValues_nil (values : list numeric) :
  length values = 0 -> validValues values = [].
Proof. destruct values; [reflexivity | discriminate]. Qed.

(** The first guard of each statistic is covered by the second. *)
Lemma calculateMean_valid (values : list numeric) :
  calculateMean values =
    if bool_decide (length (validValues values) = 0) then zero
    else (sum (validValues values) / ofNat (length (validValues values)))%float.
Proof.
  unfold calculateMean.
  case_bool_decide as Hlen; [|reflexivity].
  rewrite (validValues_nil _ Hlen). reflexivity.
Qed.

Lemma calculateStdDev_valid (values : list numeric) :
  calculateStdDev values =
    if bool_decide (length (validValues values) < 2) then zero
    else sqrt (sampleVariance (validValues values)).
Proof.
  case_bool_decide as Hlen.
  - apply calculateStdDev_few; exact Hlen.
  - apply calculateStdDev_many; lia.
Qed.

Lemma calculateMedian_valid (values : list numeric) :
  calculateMedian values =
    let sorted := Array_sort ascending (validValues values) in
    if bool_decide (length sorted = 0) then zero
    else if bool_decide (length sorted mod 2 = 0)
    then ((ToNumber (at_index sorted (length sorted / 2 - 1))
           + ToNumber (at_index sorted (length sorted / 2))) / 2)%float
    else ToNumber (at_index sorted (length sorted / 2)).
Proof.
  unfold calculateMedian.
  case_bool_decide as Hlen; [|reflexivity].
  rewrite (validValues_nil _ Hlen). reflexivity.
Qed.

(** X1. The mean, the standard deviation and the median depend on the
    entries that are numbers other than [NaN] only: two arrays with the
    same such entries, in the same order, have the same statistics,
    whatever [null], [undefined] or [NaN] entries stand between them. *)
Theorem statistics_ignore_invalid_entries (a b : list numeric) :
  validValues a = validValues b ->
  calculateMean a = calculateMean b
  /\ calculateStdDev a = calculateStdDev b
  /\ calculateMedian a = calculateMedian b.
Proof.
  intros Hvalid.
  rewrite !calculateMean_valid, !calculateStdDev_valid, !calculateMedian_valid.
  rewrite Hvalid. repeat split; reflexivity.
Qed.

Lemma statistics_ignore_invalid_entries_witness :
  calculateMean [num 1; null; num 4] = calculateMean [undefined; num 1; num nan; num 4]
  /\ calculateStdDev [num 1; null; num 4]
     = calculateStdDev [undefined; num 1; num nan; num 4]
  /\ calculateMedian [num 1; null; num 4]
     = calculateMedian [undefined; num 1; num nan; num 4].
Proof.
  apply (statistics_ignore_invalid_entries
           [num 1; null; num 4] [undefined; num 1; num nan; num 4]).
  vm_compute. reflexivity.
Defined.

Lemma sortInsert_Permutation comparefn x sorted :
  sortInsert comparefn x sorted ≡ₚ x :: sorted.
Proof.
  induction sorted as [|y rest IH]; simpl; [reflexivity|].
  destruct (0 <? comparefn y x)%float; [reflexivity|].
  rewrite IH. apply Permutation_swap.
Qed.

Lemma Array_sort_Permutation comparefn array :
  Array_sort comparefn array ≡ₚ array.
Proof.
  unfold Array_sort.
  enough (Hgen : forall acc,
             foldl (fun sorted x => sortInsert comparefn x sorted) acc array
             ≡ₚ array ++ acc).
  { rewrite Hgen, app_nil_r. reflexivity. }
  induction array as [|x array IH]; intros acc; simpl; [reflexivity|].
  rewrite IH, sortInsert_Permutation. symmetry. apply Permutation_middle.
Qed.

Lemma at_index_Some (a : list float) i x :
  a !! i = Some x -> ToNumber (at_index a i) = x.
Proof. unfold at_index. intros ->. reflexivity. Qed.

(** X2. The median is [0] when no entry is valid; for an odd number of
    valid entries it is one of them; for an even number it is half the
    sum of two of them, taken at different positions. *)
Theorem calculateMedian_picks_entries (values : list numeric) :
  (validValues values = [] -> calculateMedian values = zero)
  /\ (length (validValues values) mod 2 = 1 ->
      exists i x,
        validValues values !! i = Some x /\ calculateMedian values = x)
  /\ (validValues values <> [] -> length (validValues values) mod 2 = 0 ->
      exists i j x y,
        i <> j
        /\ validValues values !! i = Some x
        /\ validValues values !! j = Some y
        /\ calculateMedian values = ((x + y) / 2)%float).
Proof.
  rewrite calculateMedian_valid. cbv zeta.
  set (valid := validValues values).
  pose proof (Array_sort_Permutation ascending valid) as Hperm.
  pose proof (Permutation_length Hperm) as Hlen.
  apply Permutation_inj in Hperm as [_ (f & Hinj & Hf)].
  set (sorted := Array_sort ascending valid) in *.
  split; [|split].
  - intros Hnil. rewrite Hnil in Hlen. simpl in Hlen.
    rewrite bool_decide_eq_true_2 by exact Hlen. reflexivity.
  - intros Hodd.
    assert (Hpos : 0 < length sorted).
    { rewrite Hlen. destruct valid; [discriminate | simpl; lia]. }
    rewrite bool_decide_eq_false_2 by lia.
    rewrite bool_decide_eq_false_2 by (rewrite Hlen, Hodd; discriminate).
    destruct (lookup_lt_is_Some_2 sorted (length sorted / 2)) as [x Hx].
    { apply Nat.div_lt; lia. }
    exists (f (length sorted / 2)), x. split.
    + rewrite <- Hf. exact Hx.
    + apply at_index_Some. exact Hx.
  - intros Hne Heven.
    assert (Hpos : 0 < length sorted).
    { rewrite Hlen. destruct valid; [congruence | simpl; lia]. }
    rewrite bool_decide_eq_false_2 by lia.
    rewrite bool_decide_eq_true_2 by (rewrite Hlen; exact Heven).
    assert (Hmid : 1 <= length sorted / 2).
    { rewrite Hlen in *.
      destruct (length valid) as [|[|n]]; [lia | discriminate |].
      change (S (S n)) with (1 * 2 + n). rewrite Nat.div_add_l by lia. lia. }
    destruct (lookup_lt_is_Some_2 sorted (length sorted / 2 - 1)) as [x Hx].
    { pose proof (Nat.div_lt (length sorted) 2). lia. }
    destruct (lookup_lt_is_Some_2 sorted (length sorted / 2)) as [y Hy].
    { apply Nat.div_lt; lia. }
    exists (f (length sorted / 2 - 1)), (f (length sorted / 2)), x, y.
    repeat split.
    + intros Heq. apply Hinj in Heq. lia.
    + rewrite <- Hf. exact Hx.
    + rewrite <- Hf. exact Hy.
    + rewrite (at_index_Some _ _ _ Hx), (at_index_Some _ _ _ Hy). reflexivity.
Qed.

Lemma calculateMedian_picks_entries_witness :
  calculateMedian [null; num nan] = zero
  /\ (exists i x,
        validValues [num 9; undefined; num 2; num 5] !! i = Some x
        /\ calculateMedian [num 9; undefined; num 2; num 5] = x)
  /\ (exists i j x y,
        i <> j
        /\ validValues [num 9; num 2; num 5; num 4] !! i = Some x
        /\ validValues [num 9; num 2; num 5; num 4] !! j = Some y
        /\ calculateMedian [num 9; num 2; num 5; num 4] = ((x + y) / 2)%float).
Proof.
  split; [|split].
  - apply (proj1 (calculateMedian_picks_entries [null; num nan])).
    vm_compute. reflexivity.
  - apply (proj1 (proj2 (calculateMedian_picks_entries
                           [num 9; undefined; num 2; num 5]))).
    vm_compute. reflexivity.
  - apply (proj2 (proj2 (calculateMedian_picks_entries
                           [num 9; num 2; num 5; num 4]))).
    + vm_compute. discriminate.
    + vm_compute. reflexivity.
Defined.

Lemma indices_length n : length (indices n) = n.
Proof. unfold indices. rewrite length_fmap, length_seq. reflexivity. Qed.

Lemma validPoints_length (xValues : list float) (yValues : list numeric) :
  length xValues = length yValues ->
  length (validPoints xValues yValues) = length (validValues yValues).
Proof.
  revert yValues.
  induction xValues as [|x xValues IH]; intros [|y yValues] Hlen;
    try discriminate; [reflexivity|].
  injection Hlen as Hlen. specialize (IH _ Hlen).
  unfold validPoints, validValues in *. cbn [zip zip_with].
  rewrite !omap_cons. cbn [fst snd].
  destruct y as [| |v]; try exact IH.
  destruct (isNaN v); [exact IH|]. simpl. rewrite IH. reflexivity.
Qed.

(** The four sums of the regression, accumulated in one loop or by one
    [reduce] each. *)
Lemma regression_sums (points : list (float * float)) (a b c d : float) :
  foldl (fun sums xy =>
           let '(sumX, sumY, sumXY, sumXX) := sums in
           let '(x, y) := xy in
           (sumX + x, sumY + y, sumXY + x * y, sumXX + x * x)%float)
        (a, b, c, d) points
  = (foldl (fun sum xy => sum + xy.1)%float a points,
     foldl (fun sum xy => sum + xy.2)%float b points,
     foldl (fun sum xy => sum + xy.1 * xy.2)%float c points,
     foldl (fun sum xy => sum + xy.1 * xy.1)%float d points).
Proof.
  revert a b c d.
  induction points as [|[x y] points IH]; intros a b c d; [reflexivity|].
  cbn [foldl fst snd]. apply IH.
Qed.

(** X3. The regression line has one point per entry of the input, also
    where the entry is [null], [undefined] or [NaN]: all of them [null]
    when fewer than two entries are valid, all of them on one line
    [slope * i + intercept] otherwise. Fewer than two entries give the
    empty array. *)
Theorem calculateLinearRegression_shape (yValues : list numeric) :
  (length yValues < 2 -> calculateLinearRegression yValues = [])
  /\ (2 <= length yValues -> length (validValues yValues) < 2 ->
      calculateLinearRegression yValues = replicate (length yValues) null)
  /\ (2 <= length (validValues yValues) ->
      exists slope intercept : float,
        calculateLinearRegression yValues
        = (fun i => num (slope * ofNat i + intercept)%float)
            <$> seq 0 (length yValues)).
Proof.
  unfold calculateLinearRegression.
  pose proof (validValues_length yValues) as Hle.
  pose proof (validPoints_length (indices (length yValues)) yValues
                (indices_length _)) as Hpoints.
  split; [|split].
  - intros Hlen. rewrite bool_decide_eq_true_2 by exact Hlen. reflexivity.
  - intros Hlen Hvalid.
    rewrite bool_decide_eq_false_2 by lia.
    rewrite bool_decide_eq_true_2 by (rewrite Hpoints; exact Hvalid).
    reflexivity.
  - intros Hvalid.
    rewrite bool_decide_eq_false_2 by lia.
    rewrite bool_decide_eq_false_2 by (rewrite Hpoints; lia).
    rewrite regression_sums.
    match goal with
    | |- context [if ?b then _ else _] => destruct b
    end;
      eexists _, _; unfold indices; rewrite <- list_fmap_compose; reflexivity.
Qed.

Lemma calculateLinearRegression_shape_witness :
  calculateLinearRegression [num 3] = []
  /\ calculateLinearRegression [null; num 3; undefined]
     = replicate (length [null; num 3; undefined]) null
  /\ exists slope intercept : float,
       calculateLinearRegression [num 1; null; num 5]
       = (fun i => num (slope * ofNat i + intercept)%float)
           <$> seq 0 (length [num 1; null; num 5]).
Proof.
  split; [|split].
  - apply (proj1 (calculateLinearRegression_shape [num 3])).
    simpl. lia.
  - apply (proj1 (proj2 (calculateLinearRegression_shape
                           [null; num 3; undefined]))).
    + simpl. lia.
    + vm_compute. lia.
  - apply (proj2 (proj2 (calculateLinearRegression_shape
                           [num 1; null; num 5]))).
    vm_compute. lia.
Defined.

(** X4. The trend line of a chart is the regression line of the
    statistics module whenever the chart draws one: it is either empty or
    equal to it, number for number; it is empty for fewer than two
    entries and for fewer than two valid entries. *)
Theorem trendline_is_regression_line (values : list numeric) :
  (VisualizationService._calculateTrendline values = []
   \/ num <$> VisualizationService._calculateTrendline values
      = calculateLinearRegression values)
  /\ (length (validValues values) < 2 ->
      VisualizationService._calculateTrendline values = []).
Proof.
  unfold VisualizationService._calculateTrendline, calculateLinearRegression.
  pose proof (validValues_length values) as Hle.
  pose proof (validPoints_length (indices (length values)) values
                (indices_length _)) as Hpoints.
  split.
  - case_bool_decide as Hlen; [left; reflexivity|].
    case_bool_decide as Hvalid; [left; reflexivity|].
    rewrite regression_sums.
    match goal with
    | |- context [if ?b then _ else _] => destruct b
    end; [left; reflexivity|].
    right. rewrite <- list_fmap_compose. reflexivity.
  - intros Hvalid.
    case_bool_decide as Hlen; [reflexivity|].
    rewrite bool_decide_eq_true_2 by (rewrite Hpoints; exact Hvalid).
    reflexivity.
Qed.

Lemma trendline_is_regression_line_witness :
  VisualizationService._calculateTrendline [null; num 3; undefined] = [].
Proof.
  apply (proj2 (trendline_is_regression_line [null; num 3; undefined])).
  vm_compute. lia.
Defined.

End StatisticsMore.
(* ===================================================================== *)
(** * More properties of the parser                                      *)
(* ===================================================================== *)

Section ParserMore.

Lemma trimStart_head s c r : trimStart s = c :: r -> isWhiteSpace c = false.
Proof.
  induction s as [|d s IH]; simpl; [discriminate|].
  destruct (isWhiteSpace d) eqn:Hd; [exact IH|].
  intros [= <- _]. exact Hd.
Qed.

Lemma trimStart_idemp s : trimStart (trimStart s) = trimStart s.
Proof.
  destruct (trimStart s) as [|c r] eqn:Hs; [reflexivity|].
  simpl. rewrite (trimStart_head _ _ _ Hs). reflexivity.
Qed.

Lemma trim_is_trimmed s : trimmed (trim s).
Proof.
  unfold trimmed, trim, trimEnd. split.
  - destruct (rev (trimStart (rev (trimStart s)))) as [|c r] eqn:Hrev;
      [reflexivity|].
    destruct (trimStart_suffix (rev (trimStart s))) as [ws Hws].
    apply (f_equal (@rev N)) in Hws.
    rewrite rev_involutive, rev_app_distr, Hrev in Hws.
    simpl. rewrite (trimStart_head _ _ _ Hws). reflexivity.
  - rewrite rev_involutive. apply trimStart_idemp.
Qed.

Lemma trim_idemp s : trim (trim s) = trim s.
Proof. apply trim_trimmed, trim_is_trimmed. Qed.

Lemma processLine_trim st line : processLine st (trim line) = processLine st line.
Proof. unfold processLine. rewrite trim_idemp. reflexivity. Qed.

Lemma processLine_blank st line : trim line = [] -> processLine st line = Returned st.
Proof. unfold processLine. intros ->. reflexivity. Qed.

Lemma processLine_same_trim st line line' :
  trim line = trim line' -> processLine st line = processLine st line'.
Proof. unfold processLine. intros ->. reflexivity. Qed.

(** X5. Indentation, trailing white space and blank lines do not matter:
    parsing a list of lines gives what parsing the trimmed non-blank
    lines gives, error or escape included. *)
Theorem parseLines_ignores_padding_and_blank_lines (st : State)
    (ls : list jstring) :
  parseLines st ls
  = parseLines st (filter (fun l => l <> []) (trim <$> ls)).
Proof.
  unfold parseLines. revert st.
  induction ls as [|l ls IH]; intros st; [reflexivity|].
  rewrite fmap_cons, filter_cons.
  destruct (decide (trim l <> [])) as [Hne|Hblank].
  - cbn [forOf]. rewrite processLine_trim.
    destruct (processLine st l); simpl; [apply IH | reflexivity..].
  - apply dec_stable in Hblank.
    cbn [forOf]. rewrite (processLine_blank _ _ Hblank). simpl. apply IH.
Qed.

Lemma splitChar_line sep cur l :
  sep ∉ l -> splitChar sep cur l = [rev cur ++ l].
Proof.
  revert cur. induction l as [|c l IH]; intros cur Hnot; simpl.
  - rewrite app_nil_r. reflexivity.
  - apply not_elem_of_cons in Hnot as [Hc Hl].
    rewrite (proj2 (N.eqb_neq c sep)) by congruence.
    rewrite (IH _ Hl). simpl. rewrite <- app_assoc. reflexivity.
Qed.

Lemma splitChar_app sep cur l rest :
  sep ∉ l ->
  splitChar sep cur (l ++ sep :: rest) = (rev cur ++ l) :: splitChar sep [] rest.
Proof.
  revert cur. induction l as [|c l IH]; intros cur Hnot; simpl.
  - rewrite N.eqb_refl, app_nil_r. reflexivity.
  - apply not_elem_of_cons in Hnot as [Hc Hl].
    rewrite (proj2 (N.eqb_neq c sep)) by congruence.
    rewrite (IH _ Hl). simpl. rewrite <- app_assoc. reflexivity.
Qed.

(** [split] undoes [join] on lines without the separator character. *)
Lemma lines_joinLines l ls :
  Forall (fun l => 10%N ∉ l) (l :: ls) ->
  lines (joinLines LF (l :: ls)) = l :: ls.
Proof.
  unfold lines. revert l.
  induction ls as [|l' ls IH]; intros l Hall.
  - simpl. apply Forall_cons in Hall as [Hl _].
    apply (splitChar_line 10 [] l Hl).
  - apply Forall_cons in Hall as [Hl Hall].
    change (joinLines LF (l :: l' :: ls))
      with (l ++ 10%N :: joinLines LF (l' :: ls)).
    rewrite (splitChar_app 10 [] l _ Hl). simpl. f_equal.
    apply IH, Hall.
Qed.

(** With carriage returns before the line feeds, the lines a text splits
    into keep them, but for the last. *)
Lemma lines_joinLines_CRLF l ls :
  Forall (fun l => 10%N ∉ l) (l :: ls) ->
  exists ls',
    lines (joinLines CRLF (l :: ls)) = ls'
    /\ Forall2 (fun a b => trim a = trim b) ls' (l :: ls).
Proof.
  unfold lines. revert l.
  induction ls as [|l' ls IH]; intros l Hall.
  - simpl. apply Forall_cons in Hall as [Hl _].
    rewrite (splitChar_line 10 [] l Hl). eexists. split; [reflexivity|].
    constructor; [reflexivity | constructor].
  - apply Forall_cons in Hall as [Hl Hall].
    change (joinLines CRLF (l :: l' :: ls))
      with (l ++ 13%N :: 10%N :: joinLines CRLF (l' :: ls)).
    replace (l ++ 13%N :: 10%N :: joinLines CRLF (l' :: ls))
      with ((l ++ [13%N]) ++ 10%N :: joinLines CRLF (l' :: ls))
      by (rewrite <- app_assoc; reflexivity).
    rewrite (splitChar_app 10 [] (l ++ [13%N])).
    2:{ rewrite elem_of_app, list_elem_of_singleton. intros [H|H]; [tauto|lia]. }
    destruct (IH l' Hall) as (ls' & Hls' & Hsame).
    eexists. split; [reflexivity|].
    constructor; [|rewrite Hls'; exact Hsame].
    clear. simpl.
    unfold trim, trimEnd.
    assert (Hstart : forall u,
               trimStart (u ++ [13%N])
               = match trimStart u with [] => [] | _ => trimStart u ++ [13%N] end).
    { induction u as [|c u IHu]; simpl; [reflexivity|].
      destruct (isWhiteSpace c); [exact IHu | reflexivity]. }
    rewrite Hstart. destruct (trimStart l) as [|c r]; [reflexivity|].
    rewrite rev_app_distr. reflexivity.
Qed.

Lemma parseLines_same_trim st ls ls' :
  Forall2 (fun a b => trim a = trim b) ls ls' ->
  parseLines st ls = parseLines st ls'.
Proof.
  unfold parseLines. intros Hall. revert st.
  induction Hall as [|a b ls ls' Hab _ IH]; intros st; [reflexivity|].
  cbn [forOf]. rewrite (processLine_same_trim st a b Hab).
  destruct (processLine st b); simpl; [apply IH | reflexivity..].
Qed.

Lemma parseVngText_joinLines ls :
  Forall (fun l => 10%N ∉ l) ls ->
  parseVngText (Text (joinLines LF ls))
  = bind (parseLines initial ls) (fun st => Returned (dataMap st)).
Proof.
  intros Hall. destruct ls as [|l ls]; [reflexivity|].
  unfold parseVngText.
  destruct (joinLines LF (l :: ls)) as [|c s] eqn:Hjoin.
  - pose proof (lines_joinLines l ls Hall) as Hlines.
    rewrite Hjoin in Hlines. injection Hlines as <- <-. reflexivity.
  - rewrite <- Hjoin, (lines_joinLines l ls Hall). reflexivity.
Qed.

(** X6. Line endings do not matter: lines joined by carriage return and
    line feed parse to what the same lines joined by line feeds parse to,
    which is what the loop over the lines gives from the initial state
    (category ["General"], empty map). *)
Theorem parseVngText_line_endings (ls : list jstring) :
  Forall (fun l => 10%N ∉ l) ls ->
  parseVngText (Text (joinLines CRLF ls)) = parseVngText (Text (joinLines LF ls))
  /\ parseVngText (Text (joinLines LF ls))
     = bind (parseLines initial ls) (fun st => Returned (dataMap st)).
Proof.
  intros Hall. split; [|apply parseVngText_joinLines, Hall].
  rewrite (parseVngText_joinLines ls Hall).
  destruct ls as [|l ls]; [reflexivity|].
  destruct (lines_joinLines_CRLF l ls Hall) as (ls' & Hlines & Hsame).
  unfold parseVngText.
  destruct (joinLines CRLF (l :: ls)) as [|c s] eqn:Hjoin.
  - simpl in Hlines. subst ls'.
    inversion Hsame as [|? ? ? ? Hl Hrest]; subst.
    inversion Hrest; subst.
    unfold parseLines. cbn [forOf].
    rewrite (processLine_blank initial l) by (rewrite <- Hl; reflexivity).
    reflexivity.
  - rewrite Hlines. rewrite (parseLines_same_trim initial _ _ Hsame).
    reflexivity.
Qed.

Lemma parseVngText_line_endings_witness :
  parseVngText (Text (joinLines CRLF [js "Saccades:"; js "Latency: 200"]))
  = parseVngText (Text (joinLines LF [js "Saccades:"; js "Latency: 200"]))
  /\ parseVngText (Text (joinLines LF [js "Saccades:"; js "Latency: 200"]))
     = bind (parseLines initial [js "Saccades:"; js "Latency: 200"])
         (fun st => Returned (dataMap st)).
Proof.
  apply (parseVngText_line_endings [js "Saccades:"; js "Latency: 200"]).
  apply (bool_decide_unpack _). vm_compute. exact I.
Defined.

(** What [storeEntry] does, by the kind of its key. *)
Lemma storeEntry_outcome {V} (o : gmap jstring (gmap jstring V)) k m (v : V) :
  storeEntry o k m v =
    if bool_decide (is_Some (o !! k)) || negb (inherited k)
    then (if bool_decide (m = proto) then TouchedPrototype
          else Returned (<[k := <[m := v]> (default ∅ (o !! k))]> o))
    else (if bool_decide (k = proto) && bool_decide (m = proto) then Threw
          else TouchedPrototype).
Proof.
  unfold storeEntry, has_property, assign.
  destruct (o !! k) as [inner|] eqn:Hk.
  - rewrite bool_decide_eq_true_2 by eauto. simpl. rewrite Hk. simpl.
    case_bool_decide; reflexivity.
  - rewrite bool_decide_eq_false_2 by (apply is_Some_None). simpl.
    destruct (inherited k) eqn:Hinh; simpl.
    + rewrite Hk. reflexivity.
    + assert (Hkp : k <> proto).
      { intros ->. rewrite inherited_proto in Hinh. discriminate. }
      rewrite bool_decide_eq_false_2 by exact Hkp. simpl.
      rewrite lookup_insert_eq. simpl.
      case_bool_decide; [reflexivity|]. simpl.
      rewrite insert_insert_eq. reflexivity.
Qed.

Lemma processLine_valueLine st line metric r :
  valueLine line metric r ->
  processLine st line =
    bind (storeEntry (dataMap st) (currentCategory st) metric r)
      (fun dataMap => Returned {| dataMap := dataMap;
                                  currentCategory := currentCategory st |}).
Proof.
  intros (token & flag & colonIndex & Hmatch & Hnum & Hcolon & -> & ->).
  unfold processLine.
  destruct (trim line) as [|c s] eqn:Htrim; [discriminate|].
  rewrite Hmatch, Hnum, Hcolon. reflexivity.
Qed.

(** X7. When two value lines in a row name the same metric, the later one
    wins and the earlier one leaves no trace: the outcome is that of the
    later line alone. *)
Theorem later_value_line_wins (st : State) (line1 line2 metric : jstring)
    (r1 r2 : MetricReading) :
  valueLine line1 metric r1 ->
  valueLine line2 metric r2 ->
  parseLines st [line1; line2] = parseLines st [line2].
Proof.
  intros H1 H2. unfold parseLines. cbn [forOf].
  rewrite (processLine_valueLine st _ _ _ H1), (processLine_valueLine st _ _ _ H2).
  rewrite !storeEntry_outcome.
  destruct (dataMap st !! currentCategory st) as [inner|] eqn:Hk.
  - rewrite bool_decide_eq_true_2 by eauto. simpl.
    case_bool_decide as Hm; [reflexivity|]. simpl.
    rewrite (processLine_valueLine _ _ _ _ H2). simpl.
    rewrite storeEntry_outcome, lookup_insert_eq.
    rewrite bool_decide_eq_true_2 by eauto. simpl.
    rewrite bool_decide_eq_false_2 by exact Hm. simpl.
    rewrite !insert_insert_eq. reflexivity.
  - rewrite bool_decide_eq_false_2 by (apply is_Some_None). simpl.
    destruct (inherited (currentCategory st)); simpl.
    + destruct (_ && _); reflexivity.
    + case_bool_decide as Hm; [reflexivity|]. simpl.
      rewrite (processLine_valueLine _ _ _ _ H2). simpl.
      rewrite storeEntry_outcome, lookup_insert_eq.
      rewrite bool_decide_eq_true_2 by eauto. simpl.
      rewrite bool_decide_eq_false_2 by exact Hm. simpl.
      rewrite !insert_insert_eq. reflexivity.
Qed.

(** X8. Under a category that is not a member of [Object.prototype], two
    value lines that name different metrics can be swapped. *)
Theorem value_lines_commute (st : State) (line1 line2 metric1 metric2 : jstring)
    (r1 r2 : MetricReading) :
  inherited (currentCategory st) = false ->
  valueLine line1 metric1 r1 ->
  valueLine line2 metric2 r2 ->
  metric1 <> metric2 ->
  parseLines st [line1; line2] = parseLines st [line2; line1].
Proof.
  intros Hinh H1 H2 Hne. unfold parseLines. cbn [forOf].
  rewrite (processLine_valueLine st _ _ _ H1), (processLine_valueLine st _ _ _ H2).
  rewrite !storeEntry_outcome, Hinh, !orb_true_r.
  destruct (bool_decide (metric1 = proto)) eqn:Hm1;
    destruct (bool_decide (metric2 = proto)) eqn:Hm2; simpl.
  - apply bool_decide_eq_true_1 in Hm1, Hm2. congruence.
  - rewrite (processLine_valueLine _ _ _ _ H1). simpl.
    rewrite storeEntry_outcome, Hinh, orb_true_r, Hm1. reflexivity.
  - rewrite (processLine_valueLine _ _ _ _ H2). simpl.
    rewrite storeEntry_outcome, Hinh, orb_true_r, Hm2. reflexivity.
  - rewrite (processLine_valueLine _ _ _ _ H1), (processLine_valueLine _ _ _ _ H2).
    simpl. rewrite !storeEntry_outcome, Hinh, !orb_true_r, Hm1, Hm2.
    rewrite !lookup_insert_eq. simpl.
    rewrite !insert_insert_eq.
    rewrite (insert_insert_ne _ metric2 metric1) by congruence.
    reflexivity.
Qed.

Lemma later_value_line_wins_witness :
  parseLines initial [js "Latency: 200"; js "  Latency (ms): 250 | FLAG"]
  = parseLines initial [js "  Latency (ms): 250 | FLAG"].
Proof.
  apply (later_value_line_wins initial (js "Latency: 200")
           (js "  Latency (ms): 250 | FLAG") (js "Latency")
           (reading 200 false) (reading 250 true)).
  - exists (js "200"), false, 7.
    split; [vm_compute; reflexivity|]. split; [vm_compute; reflexivity|].
    split; [vm_compute; reflexivity|]. split; vm_compute; reflexivity.
  - exists (js "250"), true, 12.
    split; [vm_compute; reflexivity|]. split; [vm_compute; reflexivity|].
    split; [vm_compute; reflexivity|]. split; vm_compute; reflexivity.
Defined.

Lemma value_lines_commute_witness :
  parseLines initial [js "Latency: 200"; js "Gain: 0.85"]
  = parseLines initial [js "Gain: 0.85"; js "Latency: 200"].
Proof.
  apply (value_lines_commute initial (js "Latency: 200") (js "Gain: 0.85")
           (js "Latency") (js "Gain") (reading 200 false) (reading 0.85 false)).
  - vm_compute. reflexivity.
  - exists (js "200"), false, 7.
    split; [vm_compute; reflexivity|]. split; [vm_compute; reflexivity|].
    split; [vm_compute; reflexivity|]. split; vm_compute; reflexivity.
  - exists (js "0.85"), false, 4.
    split; [vm_compute; reflexivity|]. split; [vm_compute; reflexivity|].
    split; [vm_compute; reflexivity|]. split; vm_compute; reflexivity.
  - vm_compute. discriminate.
Defined.

Lemma categoryOf_trimmed s : trim (categoryOf s) = categoryOf s.
Proof. unfold categoryOf. destruct (endsWith _ _); apply trim_idemp. Qed.

Lemma processLine_tidy st line st' :
  tidy st -> processLine st line = Returned st' -> tidy st'.
Proof.
  intros (Hcat & Hmaps & Hmetrics) H.
  apply processLine_cases in H
    as [->|[[Hd Hc]|(token & before & Hnot & _ & Hc & Hstore)]].
  - exact (conj Hcat (conj Hmaps Hmetrics)).
  - unfold tidy. rewrite Hd, Hc. split; [apply categoryOf_trimmed|].
    split; assumption.
  - pose proof (storeEntry_Returned _ _ _ _ _ Hstore) as (Hd & _ & _).
    unfold tidy. rewrite Hc. split; [exact Hcat|]. split.
    + intros category metrics Hlook. rewrite Hd in Hlook.
      destruct (decide (category = currentCategory st)) as [->|Hne].
      * rewrite lookup_insert_eq in Hlook. injection Hlook as <-.
        split; [apply insert_non_empty | exact Hcat].
      * rewrite lookup_insert_ne in Hlook by congruence. eauto.
    + intros category metric Hentry.
      rewrite (storeEntry_entry _ _ _ _ _ _ _ Hstore) in Hentry.
      case_decide as Heq; [|eauto]. destruct Heq as [_ ->].
      apply trim_idemp.
Qed.

Lemma parseLines_tidy ls st st' :
  tidy st -> parseLines st ls = Returned st' -> tidy st'.
Proof.
  unfold parseLines. revert st.
  induction ls as [|line ls IH]; intros st Htidy H; simpl in H.
  - injection H as <-. exact Htidy.
  - destruct (processLine st line) as [st1| |] eqn:Hline; try discriminate.
    simpl in H. eapply IH; [|exact H].
    eapply processLine_tidy; eassumption.
Qed.

Lemma tidy_initial : tidy initial.
Proof.
  split; [vm_compute; reflexivity|]. split.
  - intros ? ? Hl. simpl in Hl. rewrite lookup_empty in Hl. discriminate.
  - intros ? ? [? Hl]. discriminate.
Qed.

(** X9. The map a text parses to is tidy: category and metric names
    carry no white space at their ends, no metric name holds a colon or
    is ["__proto__"], and no category bears the name of a member of
    [Object.prototype]. When no line of the text holds an underscore, no
    category is left without a metric. *)
Theorem parsed_map_is_tidy (text : argument) (d : DataMap) :
  parseVngText text = Returned d ->
  (forall category,
      is_Some (d !! category) ->
      trim category = category /\ inherited category = false)
  /\ (forall category metric,
        is_Some (entry d category metric) ->
        trim metric = metric /\ (58%N ∉ metric) /\ metric <> proto)
  /\ (forall s : jstring,
        text = Text s ->
        Forall (fun line => 95%N ∉ line) (lines s) ->
        forall category metrics, d !! category = Some metrics -> metrics <> ∅).
Proof.
  intros Hparse.
  pose proof (parseVngText_names _ _ Hparse) as [Hinh Hmet].
  assert (Htidy : exists st, tidy st /\ dataMap st = d).
  { destruct text as [|[|c s]]; simpl in Hparse.
    - injection Hparse as <-. exists initial. split; [apply tidy_initial|reflexivity].
    - injection Hparse as <-. exists initial. split; [apply tidy_initial|reflexivity].
    - destruct (parseLines initial (lines (c :: s))) as [st| |] eqn:Hlines;
        try discriminate.
      simpl in Hparse. injection Hparse as <-.
      exists st. split; [|reflexivity].
      eapply parseLines_tidy; [apply tidy_initial|exact Hlines]. }
  destruct Htidy as (st & (_ & Hmaps & Hmetrics) & <-).
  split; [|split].
  - intros category [metrics Hl].
    destruct (Hmaps _ _ Hl) as [_ Htrim].
    split; [exact Htrim|]. apply Hinh. rewrite Hl. eauto.
  - intros category metric Hentry.
    destruct (Hmet _ _ Hentry) as [Hproto Hcolon].
    repeat split; try assumption. apply Hmetrics with category. exact Hentry.
  - intros s _ _ category metrics Hl. apply (Hmaps _ _ Hl).
Qed.

Lemma parsed_map_is_tidy_witness :
  (forall category,
      is_Some (({[ js "Saccades" := {[ js "Latency" := reading 200 false ]} ]}
                : DataMap) !! category) ->
      trim category = category /\ inherited category = false)
  /\ (forall category metric,
        is_Some (entry ({[ js "Saccades" :=
                             {[ js "Latency" := reading 200 false ]} ]} : DataMap)
                       category metric) ->
        trim metric = metric /\ (58%N ∉ metric) /\ metric <> proto)
  /\ (forall s : jstring,
        Text (js "  Saccades:  " ++ LF ++ js "Latency (ms): 200 ms") = Text s ->
        Forall (fun line => 95%N ∉ line) (lines s) ->
        forall category metrics,
          ({[ js "Saccades" := {[ js "Latency" := reading 200 false ]} ]}
           : DataMap) !! category = Some metrics ->
          metrics <> ∅).
Proof.
  apply (parsed_map_is_tidy
           (Text (js "  Saccades:  " ++ LF ++ js "Latency (ms): 200 ms"))).
  vm_compute. reflexivity.
Defined.

Lemma underscore_in_proto : 95%N ∈ proto.
Proof. vm_compute. constructor. Qed.

Lemma plainLine_check line :
  inherited (categoryOf (trim line)) = false -> 95%N ∉ line -> plainLine line.
Proof.
  intros Hcat Hno. split; [exact Hcat|].
  intros i Hproto. apply Hno.
  pose proof underscore_in_proto as Hin. rewrite <- Hproto in Hin.
  unfold metricNameOf, substring0 in Hin.
  apply elem_of_trim, elem_of_removeTrailingParens, elem_of_trim in Hin.
  apply elem_of_take in Hin as (j & Hj & _).
  apply elem_of_trim. eapply list_elem_of_lookup_2. exact Hj.
Qed.

(** X20. A text parses to a map, without error, when it holds no
    underscore and none of its lines, read as a header, names a member of
    [Object.prototype] ([constructor], [toString], [valueOf], ...). *)
Theorem plain_text_parses (s : jstring) :
  Forall (fun line => inherited (categoryOf (trim line)) = false
                      /\ 95%N ∉ line) (lines s) ->
  exists d : DataMap, parseVngText (Text s) = Returned d.
Proof.
  intros Hall. destruct s as [|c s].
  - exists ∅. reflexivity.
  - unfold parseVngText.
    destruct (parseLines_plain (lines (c :: s)) initial) as [st Hst].
    + vm_compute. reflexivity.
    + eapply Forall_impl; [exact Hall|].
      intros line [Hcat Hno]. apply plainLine_check; assumption.
    + rewrite Hst. eexists. reflexivity.
Qed.

Lemma plain_text_parses_witness :
  exists d : DataMap,
    parseVngText
      (Text (js "Saccades:" ++ LF ++ js "Latency (ms): 200 | FLAG"))
    = Returned d.
Proof.
  apply (plain_text_parses
           (js "Saccades:" ++ LF ++ js "Latency (ms): 200 | FLAG")).
  apply (bool_decide_unpack _). vm_compute. exact I.
Defined.

End ParserMore.
(* ===================================================================== *)
(** * Properties of the services                                         *)
(* ===================================================================== *)

Section ConversionFacts.

Context {V W : Type}.

(** Assigning the entries of a dictionary one by one builds its image. *)
Lemma foldl_insert_fresh (h : jstring * V -> W) (l : list (jstring * V))
    (acc : gmap jstring W) k :
  k ∉ l.*1 ->
  foldl (fun a kv => <[kv.1 := h kv]> a) acc l !! k = acc !! k.
Proof.
  revert acc. induction l as [|[k' v] l IH]; intros acc Hk; [reflexivity|].
  rewrite fmap_cons in Hk. apply not_elem_of_cons in Hk as [Hne Hk].
  simpl in Hne. cbn [foldl]. rewrite (IH _ Hk).
  apply lookup_insert_ne. simpl. congruence.
Qed.

Lemma foldl_insert_elem (h : jstring * V -> W) (l : list (jstring * V))
    (acc : gmap jstring W) k v :
  NoDup l.*1 -> (k, v) ∈ l ->
  foldl (fun a kv => <[kv.1 := h kv]> a) acc l !! k = Some (h (k, v)).
Proof.
  revert acc. induction l as [|[k' v'] l IH]; intros acc Hdup Hin.
  - inversion Hin.
  - rewrite fmap_cons in Hdup. apply NoDup_cons in Hdup as [Hfresh Hdup].
    cbn [foldl]. apply elem_of_cons in Hin as [[= <- <-]|Hin].
    + rewrite (foldl_insert_fresh _ _ _ _ Hfresh). apply lookup_insert_eq.
    + apply IH; assumption.
Qed.

Lemma foldl_insert_entries (h : jstring * V -> W) (o : gmap jstring V) k :
  foldl (fun a kv => <[kv.1 := h kv]> a) (∅ : gmap jstring W) (map_to_list o)
    !! k
  = (fun v => h (k, v)) <$> o !! k.
Proof.
  destruct (o !! k) as [v|] eqn:Hk; simpl.
  - apply foldl_insert_elem; [apply NoDup_fst_map_to_list|].
    apply elem_of_map_to_list. exact Hk.
  - rewrite foldl_insert_fresh; [apply lookup_empty|].
    intros Hin. apply list_elem_of_fmap in Hin as ([k' v] & -> & Hin).
    apply elem_of_map_to_list in Hin. simpl in Hk. congruence.
Qed.

Lemma foldl_insert_fmap (f : V -> W) (o : gmap jstring V) :
  foldl (fun a kv => <[kv.1 := f kv.2]> a) (∅ : gmap jstring W) (map_to_list o)
  = f <$> o.
Proof.
  apply map_eq. intros k.
  rewrite (foldl_insert_entries (fun kv => f kv.2)), lookup_fmap. reflexivity.
Qed.

End ConversionFacts.

Section NestedConversion.

Context {U V W : Type} (metricsOf : U -> gmap jstring V) (f : V -> W).

(** The inner loop: [result[category][metric] = f(v)] for each entry. *)
Lemma convert_inner (category : jstring) (l : list (jstring * V))
    (result : gmap jstring (gmap jstring W)) (current : gmap jstring W) :
  result !! category = Some current ->
  Forall (fun mv => mv.1 <> proto) l ->
  forOf (fun result '(metric, v) => assignInner result category metric (f v))
        l result
  = Returned
      (<[category := foldl (fun a mv => <[mv.1 := f mv.2]> a) current l]> result).
Proof.
  revert result current.
  induction l as [|[metric v] l IH]; intros result current Hcur Hall.
  - simpl. rewrite insert_id by exact Hcur. reflexivity.
  - apply Forall_cons in Hall as [Hm Hall]. simpl in Hm.
    cbn [forOf]. unfold assignInner at 1. rewrite Hcur. unfold assign.
    rewrite bool_decide_eq_false_2 by exact Hm. simpl.
    rewrite (IH _ (<[metric := f v]> current)); [|apply lookup_insert_eq|exact Hall].
    rewrite insert_insert_eq. reflexivity.
Qed.

(** The nested loops that copy a dictionary of dictionaries. *)
Lemma convert_nested (l : list (jstring * U))
    (result : gmap jstring (gmap jstring W)) :
  Forall (fun cu => cu.1 <> proto
                    /\ forall metric, is_Some (metricsOf cu.2 !! metric) ->
                                      metric <> proto) l ->
  forOf
    (fun result '(category, u) =>
       bind (assign result category ∅)
         (fun result =>
            forOf
              (fun result '(metric, v) =>
                 assignInner result category metric (f v))
              (Object_entries (metricsOf u)) result))
    l result
  = Returned
      (foldl (fun a cu => <[cu.1 := f <$> metricsOf cu.2]> a) result l).
Proof.
  revert result.
  induction l as [|[category u] l IH]; intros result Hall; [reflexivity|].
  apply Forall_cons in Hall as [[Hc Hm] Hall]. simpl in Hc, Hm.
  cbn [forOf]. unfold assign at 1.
  rewrite bool_decide_eq_false_2 by exact Hc. simpl.
  rewrite (convert_inner category _ _ ∅); [|apply lookup_insert_eq|].
  - simpl. rewrite (IH _ Hall). cbn [foldl fst snd].
    unfold Object_entries. rewrite foldl_insert_fmap, insert_insert_eq.
    reflexivity.
  - apply Forall_forall. intros [metric v] Hin. simpl.
    apply Hm. apply elem_of_map_to_list in Hin. rewrite Hin. eauto.
Qed.

Lemma convert_dictionary (o : gmap jstring U) :
  (forall category u,
      o !! category = Some u ->
      category <> proto
      /\ forall metric, is_Some (metricsOf u !! metric) -> metric <> proto) ->
  forOf
    (fun result '(category, u) =>
       bind (assign result category ∅)
         (fun result =>
            forOf
              (fun result '(metric, v) =>
                 assignInner result category metric (f v))
              (Object_entries (metricsOf u)) result))
    (Object_entries o) ∅
  = Returned ((fun u => f <$> metricsOf u) <$> o).
Proof.
  intros Hnames. rewrite convert_nested.
  - unfold Object_entries.
    rewrite (foldl_insert_fmap (fun u => f <$> metricsOf u)). reflexivity.
  - apply Forall_forall. intros [category u] Hin.
    apply elem_of_map_to_list in Hin. apply (Hnames _ _ Hin).
Qed.

End NestedConversion.

Section ServiceFacts.

Lemma asReading_asMetricValue r : asReading (asMetricValue r) = r.
Proof. destruct r; reflexivity. Qed.

Lemma asSeries_asMetricData s : asSeries (asMetricData s) = s.
Proof. destruct s; reflexivity. Qed.

Lemma mapEntries_inverse {A B} (g : A -> B) (h : B -> A)
    (o : gmap jstring (gmap jstring A)) :
  (forall a, h (g a) = a) ->
  mapEntries h (mapEntries g o) = o.
Proof.
  intros Hid. unfold mapEntries. rewrite <- map_fmap_compose.
  rewrite <- (map_fmap_id o) at 2. apply map_fmap_ext. intros k inner _.
  simpl. rewrite <- map_fmap_compose.
  rewrite <- (map_fmap_id inner) at 2. apply map_fmap_ext. intros m a _.
  simpl. apply Hid.
Qed.

Lemma mapEntries_lookup {A B} (g : A -> B) (o : gmap jstring (gmap jstring A))
    (category : jstring) :
  mapEntries g o !! category
  = (fun inner : gmap jstring A => g <$> inner) <$> o !! category.
Proof. unfold mapEntries. apply lookup_fmap. Qed.

(** No name of a parsed map is ["__proto__"]. *)
Lemma parsedNames_no_proto (d : DataMap) :
  parsedNames d ->
  forall category metrics,
    d !! category = Some metrics ->
    category <> proto
    /\ forall metric, is_Some (metrics !! metric) -> metric <> proto.
Proof.
  intros [Hcats Hmetrics] category metrics Hlook. split.
  - intros ->. specialize (Hcats proto). rewrite Hlook in Hcats.
    rewrite inherited_proto in Hcats. discriminate Hcats. eauto.
  - intros metric Hm. apply (Hmetrics category metric).
    unfold entry. rewrite Hlook. exact Hm.
Qed.

Lemma parseFile_Returned typeErrorMessage now fileName fileContent sizeBytes d :
  parseVngText fileContent = Returned d ->
  ParsingService.parseFile typeErrorMessage now fileName fileContent sizeBytes
  = Domain.Normal
      {| Domain.name := fileName;
         Domain.data := mapEntries asMetricValue d;
         Domain.uploadedAt := now;
         Domain.sizeBytes := default zero sizeBytes |}.
Proof.
  intros Hparse. unfold ParsingService.parseFile. rewrite Hparse. simpl.
  rewrite (convert_dictionary (fun metrics : Metrics => metrics) asMetricValue).
  - reflexivity.
  - apply parsedNames_no_proto. eapply parseVngText_names. exact Hparse.
Qed.

(** X10. [parseFile] succeeds exactly when the parser returns, with a
    [ParsedFile] that carries the file name, the clock reading, the size
    ([0] when not given) and, name for name, the parser's readings; a
    [TypeError] of the parser comes out as a [ParsingError] whose message
    names the file. *)
Theorem parseFile_keeps_readings (typeErrorMessage : jstring)
    (now : Z) (fileName : jstring) (fileContent : argument)
    (sizeBytes : option float) :
  (forall d : DataMap,
      parseVngText fileContent = Returned d ->
      ParsingService.parseFile typeErrorMessage now fileName fileContent sizeBytes
      = Domain.Normal
          {| Domain.name := fileName;
             Domain.data := mapEntries asMetricValue d;
             Domain.uploadedAt := now;
             Domain.sizeBytes := default zero sizeBytes |})
  /\ (parseVngText fileContent = Threw ->
      ParsingService.parseFile typeErrorMessage now fileName fileContent sizeBytes
      = Domain.Throw
          (Domain.ParsingError
             (js "Failed to parse file " ++ fileName ++ js ": "
              ++ typeErrorMessage)))
  /\ (forall pf : Domain.ParsedFile,
        ParsingService.parseFile typeErrorMessage now fileName fileContent
          sizeBytes = Domain.Normal pf ->
        exists d : DataMap, parseVngText fileContent = Returned d).
Proof.
  split; [|split].
  - intros d. apply parseFile_Returned.
  - intros Hthrew. unfold ParsingService.parseFile. rewrite Hthrew. reflexivity.
  - intros pf. unfold ParsingService.parseFile.
    destruct (parseVngText fileContent) as [d| |]; simpl; try discriminate.
    eauto.
Qed.

Lemma parseFile_keeps_readings_witness :
  ParsingService.parseFile (js "TypeError") 1700000000000 (js "visit1.txt")
    (Text (js "Saccades:" ++ LF ++ js "Latency: 200")) None
  = Domain.Normal
      {| Domain.name := js "visit1.txt";
         Domain.data :=
           mapEntries asMetricValue
             {[ js "Saccades" := {[ js "Latency" := reading 200 false ]} ]};
         Domain.uploadedAt := 1700000000000;
         Domain.sizeBytes := zero |}
  /\ ParsingService.parseFile (js "TypeError") 1700000000000 (js "visit1.txt")
       (Text (js "__proto__:" ++ LF ++ js "__proto__: 1")) None
     = Domain.Throw
         (Domain.ParsingError
            (js "Failed to parse file " ++ js "visit1.txt" ++ js ": "
             ++ js "TypeError")).
Proof.
  split.
  - apply (proj1 (parseFile_keeps_readings (js "TypeError") 1700000000000
                    (js "visit1.txt")
                    (Text (js "Saccades:" ++ LF ++ js "Latency: 200")) None)).
    vm_compute. reflexivity.
  - apply (proj1 (proj2 (parseFile_keeps_readings (js "TypeError")
                           1700000000000 (js "visit1.txt")
                           (Text (js "__proto__:" ++ LF ++ js "__proto__: 1"))
                           None))).
    vm_compute. reflexivity.
Defined.

Lemma convertParsedFileToDict_data (d : DataMap) name now size :
  parsedNames d ->
  AnalysisService._convertParsedFileToDict
    {| Domain.name := name; Domain.data := mapEntries asMetricValue d;
       Domain.uploadedAt := now; Domain.sizeBytes := size |}
  = Returned d.
Proof.
  intros Hnames. unfold AnalysisService._convertParsedFileToDict.
  cbn [Domain.data].
  rewrite (convert_dictionary
             (fun metrics : gmap jstring Domain.MetricValue => metrics)
             asReading).
  - change ((fun u : gmap jstring Domain.MetricValue => asReading <$> u)
             <$> mapEntries asMetricValue d)
      with (mapEntries asReading (mapEntries asMetricValue d)).
    rewrite (mapEntries_inverse asMetricValue asReading); [reflexivity|].
    apply asReading_asMetricValue.
  - intros category metrics Hlook.
    rewrite mapEntries_lookup in Hlook.
    destruct (d !! category) as [inner|] eqn:Hd; [|discriminate].
    injection Hlook as <-.
    destruct (parsedNames_no_proto d Hnames _ _ Hd) as [Hc Hm].
    split; [exact Hc|]. intros metric Hsome. apply Hm.
    rewrite lookup_fmap in Hsome. apply fmap_is_Some in Hsome. exact Hsome.
Qed.

(** X11. Nothing is lost between the parser and the analyzer: the
    dictionary that [_convertParsedFileToDict] (and the application's
    [convertParsedFileDataToDict]) makes of the [ParsedFile] that
    [parseFile] returned is the map the parser returned. *)
Theorem parsed_file_round_trip (typeErrorMessage : jstring) (now : Z)
    (fileName : jstring) (fileContent : argument) (sizeBytes : option float)
    (pf : Domain.ParsedFile) :
  ParsingService.parseFile typeErrorMessage now fileName fileContent sizeBytes
  = Domain.Normal pf ->
  exists d : DataMap,
    parseVngText fileContent = Returned d
    /\ AnalysisService._convertParsedFileToDict pf = Returned d
    /\ App.convertParsedFileDataToDict (Domain.data pf) = Returned d.
Proof.
  intros Hfile.
  destruct (parseVngText fileContent) as [d| |] eqn:Hparse;
    try (unfold ParsingService.parseFile in Hfile; rewrite Hparse in Hfile;
         discriminate).
  rewrite (parseFile_Returned _ _ _ _ _ _ Hparse) in Hfile.
  injection Hfile as <-.
  pose proof (parseVngText_names _ _ Hparse) as Hnames.
  exists d. split; [reflexivity|]. split.
  - apply convertParsedFileToDict_data. exact Hnames.
  - exact (convertParsedFileToDict_data d fileName now (default zero sizeBytes)
             Hnames).
Qed.

End ServiceFacts.

Section AnalysisFacts.

Lemma processPair_tidy files res pair res' :
  tidyResult res -> processPair files res pair = Returned res' ->
  tidyResult res'.
Proof.
  intros [Hcats Hmetrics] H.
  apply processPair_Returned in H as [->|(c & m & s & _ & Hstore)];
    [split; assumption|].
  pose proof (storeEntry_Returned _ _ _ _ _ Hstore) as (Hd & Hproto & Hnew).
  split.
  - intros category Hlook. rewrite Hd in Hlook.
    destruct (decide (category = c)) as [->|Hne].
    + destruct (res !! c) as [old|] eqn:Hold; [|auto].
      apply Hcats. rewrite Hold. eauto.
    + rewrite lookup_insert_ne in Hlook by congruence. auto.
  - intros category metric Hentry.
    rewrite (storeEntry_entry _ _ _ _ _ _ _ Hstore) in Hentry.
    case_decide as Heq; [|eauto]. destruct Heq as [_ ->]. exact Hproto.
Qed.

Lemma processPairs_tidy files pairs res res' :
  tidyResult res -> forOf (processPair files) pairs res = Returned res' ->
  tidyResult res'.
Proof.
  revert res. induction pairs as [|pair pairs IH]; intros res Hres H; simpl in H.
  - injection H as <-. exact Hres.
  - destruct (processPair files res pair) as [res1| |] eqn:Hpair;
      try discriminate.
    simpl in H. apply (IH res1); [|exact H].
    eapply processPair_tidy; eassumption.
Qed.

Lemma runAnalysis_tidy files res :
  runAnalysis files = Returned res -> tidyResult res.
Proof.
  assert (Hempty : tidyResult ∅).
  { split.
    - intros ? [? Hl]. rewrite lookup_empty in Hl. discriminate.
    - intros ? ? [? Hl]. discriminate. }
  destruct files as [|first rest]; simpl.
  - intros [= <-]. exact Hempty.
  - apply processPairs_tidy, Hempty.
Qed.

(** On clean files no pair leaves a category without a series. *)
Lemma processPairs_inhabited files pairs res res' :
  Forall (commonPair files) pairs ->
  (forall category metrics, res !! category = Some metrics -> metrics <> ∅) ->
  forOf (processPair files) pairs res = Returned res' ->
  forall category metrics, res' !! category = Some metrics -> metrics <> ∅.
Proof.
  revert res. induction pairs as [|k pairs IH]; intros res Hpairs Hres H.
  - injection H as <-. exact Hres.
  - apply Forall_cons in Hpairs
      as [(c & m & readings & -> & Hc & Hm & Hall) Hpairs].
    cbn [forOf] in H.
    rewrite (processPair_clean _ res _ _ _ Hc Hm Hall) in H. cbn [bind] in H.
    eapply IH; [exact Hpairs| |exact H].
    intros category metrics Hlook.
    destruct (decide (category = c)) as [->|Hne].
    + rewrite lookup_insert_eq in Hlook. injection Hlook as <-.
      apply insert_non_empty.
    + rewrite lookup_insert_ne in Hlook by congruence. eauto.
Qed.

(** X12. A result of the analyzer has no category named like a member
    of [Object.prototype] and no metric named ["__proto__"]; when the
    names of the files are clean it has no empty category either. *)
Theorem analysis_result_is_tidy (files : list FileData) (res : Results) :
  runAnalysis files = Returned res ->
  (forall category, is_Some (res !! category) -> inherited category = false)
  /\ (forall category metric,
        is_Some (entry res category metric) -> metric <> proto)
  /\ (Forall cleanFile files ->
      forall category metrics,
        res !! category = Some metrics -> metrics <> ∅).
Proof.
  intros Hrun. destruct (runAnalysis_tidy _ _ Hrun) as [Hcats Hmetrics].
  split; [exact Hcats|]. split; [exact Hmetrics|].
  intros Hclean. destruct files as [|first rest].
  - injection Hrun as <-. intros ? ? Hl. rewrite lookup_empty in Hl.
    discriminate.
  - cbn [runAnalysis] in Hrun.
    eapply processPairs_inhabited; [| |exact Hrun].
    + apply Forall_forall. intros k Hk. eapply commonPairs_clean; eassumption.
    + intros ? ? Hl. rewrite lookup_empty in Hl. discriminate.
Qed.

Lemma analysis_result_is_tidy_witness :
  (forall category,
      is_Some (({[ js "Saccades" := {[ js "Latency" := latencySeries ]} ]}
                : Results) !! category) ->
      inherited category = false)
  /\ (forall category metric,
        is_Some (entry ({[ js "Saccades" :=
                             {[ js "Latency" := latencySeries ]} ]} : Results)
                       category metric) ->
        metric <> proto)
  /\ (Forall cleanFile [firstVisit; secondVisit] ->
      forall category metrics,
        ({[ js "Saccades" := {[ js "Latency" := latencySeries ]} ]} : Results)
          !! category = Some metrics ->
        metrics <> ∅).
Proof.
  apply (analysis_result_is_tidy [firstVisit; secondVisit]).
  vm_compute. reflexivity.
Defined.

Lemma tidyResult_no_proto (res : Results) :
  tidyResult res ->
  forall category metrics,
    res !! category = Some metrics ->
    category <> proto
    /\ forall metric, is_Some (metrics !! metric) -> metric <> proto.
Proof.
  intros [Hcats Hmetrics] category metrics Hlook. split.
  - intros ->. assert (Hinh : inherited proto = false).
    { apply Hcats. rewrite Hlook. eauto. }
    rewrite inherited_proto in Hinh. discriminate.
  - intros metric Hm. apply (Hmetrics category metric).
    unfold entry. rewrite Hlook. exact Hm.
Qed.

(** The inner loop of [analyzeFiles]. *)
Lemma analyze_inner (l : list (jstring * MetricSeries))
    (metricDataDict : gmap jstring Domain.MetricData) (totalMetrics : nat) :
  Forall (fun ms => ms.1 <> proto) l ->
  forOf
    (fun '(metricDataDict, totalMetrics) '(metric, data) =>
       bind
         (assign metricDataDict metric
            {| Domain.values := values data;
               Domain.flags := flags data;
               Domain.delta := delta data;
               Domain.percentChange := percentChange data;
               Domain.stdDev := stdDev data |})
         (fun metricDataDict => Returned (metricDataDict, S totalMetrics)))
    l (metricDataDict, totalMetrics)
  = Returned
      (foldl (fun a ms => <[ms.1 := asMetricData ms.2]> a) metricDataDict l,
       totalMetrics + length l).
Proof.
  revert metricDataDict totalMetrics.
  induction l as [|[metric data] l IH]; intros d t Hall.
  - simpl. rewrite Nat.add_0_r. reflexivity.
  - apply Forall_cons in Hall as [Hm Hall]. simpl in Hm.
    cbn [forOf]. unfold assign.
    rewrite bool_decide_eq_false_2 by exact Hm. simpl.
    rewrite (IH _ _ Hall). do 2 f_equal. lia.
Qed.

(** The outer loop of [analyzeFiles]. *)
Lemma analyze_outer (l : list (jstring * gmap jstring MetricSeries))
    (analysisResults : gmap jstring Domain.AnalysisResult) (totalMetrics : nat) :
  Forall (fun cms => cms.1 <> proto
                     /\ forall metric, is_Some (cms.2 !! metric) ->
                                       metric <> proto) l ->
  forOf
    (fun '(analysisResults, totalMetrics) '(category, metricsMap) =>
       bind
         (forOf
            (fun '(metricDataDict, totalMetrics) '(metric, data) =>
               bind
                 (assign metricDataDict metric
                    {| Domain.values := values data;
                       Domain.flags := flags data;
                       Domain.delta := delta data;
                       Domain.percentChange := percentChange data;
                       Domain.stdDev := stdDev data |})
                 (fun metricDataDict =>
                    Returned (metricDataDict, S totalMetrics)))
            (Object_entries metricsMap) (∅, totalMetrics))
         (fun '(metricDataDict, totalMetrics) =>
            bind
              (assign analysisResults category
                 {| Domain.category := category;
                    Domain.metrics := metricDataDict |})
              (fun analysisResults =>
                 Returned (analysisResults, totalMetrics))))
    l (analysisResults, totalMetrics)
  = Returned
      (foldl (fun a cms => <[cms.1 := asAnalysisResult cms.1 cms.2]> a)
             analysisResults l,
       totalMetrics + sum_list ((fun cms => size cms.2) <$> l)).
Proof.
  revert analysisResults totalMetrics.
  induction l as [|[category metricsMap] l IH]; intros a t Hall.
  - simpl. rewrite Nat.add_0_r. reflexivity.
  - apply Forall_cons in Hall as [[Hc Hm] Hall]. simpl in Hc, Hm.
    cbn [forOf]. rewrite analyze_inner.
    2:{ apply Forall_forall. intros [metric data] Hin. simpl.
        apply Hm. apply elem_of_map_to_list in Hin. rewrite Hin. eauto. }
    simpl. unfold assign at 1.
    rewrite bool_decide_eq_false_2 by exact Hc. simpl.
    rewrite (IH _ _ Hall). cbn [foldl fmap list_fmap sum_list fst snd].
    unfold Object_entries.
    rewrite (foldl_insert_fmap asMetricData), length_map_to_list.
    rewrite <- Nat.add_assoc. reflexivity.
Qed.

Lemma asAnalysisResults_foldl (res : Results) :
  foldl (fun a cms => <[cms.1 := asAnalysisResult cms.1 cms.2]> a)
        (∅ : gmap jstring Domain.AnalysisResult) (map_to_list res)
  = asAnalysisResults res.
Proof.
  apply map_eq. intros category.
  rewrite (foldl_insert_entries
             (fun cms : jstring * gmap jstring MetricSeries =>
                asAnalysisResult cms.1 cms.2)).
  unfold asAnalysisResults. rewrite map_lookup_imap.
  destruct (res !! category); reflexivity.
Qed.

Lemma Array_map_legacy (pfs : list Domain.ParsedFile) (fds : list FileData) :
  Forall2 legacyFile pfs fds ->
  Array_map
    (fun pf =>
       bind (AnalysisService._convertParsedFileToDict pf)
         (fun d => Returned {| name := Domain.name pf; data := d |}))
    pfs
  = Returned fds.
Proof.
  induction 1 as [|pf fd pfs fds [Hname Hdata] _ IH]; [reflexivity|].
  cbn [Array_map]. rewrite Hdata. simpl. rewrite IH. simpl.
  destruct fd as [n d]. simpl in Hname. subst n. reflexivity.
Qed.

Lemma analyzeFiles_Returned typeErrorMessage now pfs fds res :
  pfs <> [] ->
  Forall2 legacyFile pfs fds ->
  runAnalysis fds = Returned res ->
  AnalysisService.analyzeFiles typeErrorMessage now pfs
  = Domain.Normal
      {| Domain.results := asAnalysisResults res;
         Domain.fileCount := length pfs;
         Domain.totalMetrics := seriesCount res;
         Domain.createdAt := now |}.
Proof.
  intros Hne Hfiles Hrun. unfold AnalysisService.analyzeFiles.
  rewrite bool_decide_eq_false_2 by (destruct pfs; [congruence|discriminate]).
  rewrite (Array_map_legacy _ _ Hfiles). cbn [bind]. rewrite Hrun. cbn [bind].
  rewrite analyze_outer.
  - cbn [bind]. unfold Object_entries. rewrite asAnalysisResults_foldl.
    reflexivity.
  - apply Forall_forall. intros [category metrics] Hin.
    apply elem_of_map_to_list in Hin.
    exact (tidyResult_no_proto res (runAnalysis_tidy _ _ Hrun) _ _ Hin).
Qed.

(** X13. [analyzeFiles] hands on what the analyzer returns for the
    converted files: the same series under the same names, each category
    in an [AnalysisResult] that bears its name, with the number of files
    and the number of series counted. No files give the empty result with
    both counts [0]. *)
Theorem analyzeFiles_reports_analysis (typeErrorMessage : jstring) (now : Z) :
  AnalysisService.analyzeFiles typeErrorMessage now []
  = Domain.Normal
      {| Domain.results := ∅; Domain.fileCount := 0;
         Domain.totalMetrics := 0; Domain.createdAt := now |}
  /\ (forall (pfs : list Domain.ParsedFile) (fds : list FileData)
             (res : Results),
        pfs <> [] ->
        Forall2 legacyFile pfs fds ->
        runAnalysis fds = Returned res ->
        AnalysisService.analyzeFiles typeErrorMessage now pfs
        = Domain.Normal
            {| Domain.results := asAnalysisResults res;
               Domain.fileCount := length pfs;
               Domain.totalMetrics := seriesCount res;
               Domain.createdAt := now |}).
Proof.
  split; [reflexivity|].
  intros pfs fds res. apply analyzeFiles_Returned.
Qed.

Lemma analyzeFiles_reports_analysis_witness :
  AnalysisService.analyzeFiles (js "TypeError") 5
    [parsedVisit firstVisit; parsedVisit secondVisit]
  = Domain.Normal
      {| Domain.results := asAnalysisResults visitsAnalysis;
         Domain.fileCount := length [parsedVisit firstVisit; parsedVisit secondVisit];
         Domain.totalMetrics := seriesCount visitsAnalysis;
         Domain.createdAt := 5 |}.
Proof.
  apply (proj2 (analyzeFiles_reports_analysis (js "TypeError") 5)
           [parsedVisit firstVisit; parsedVisit secondVisit]
           [firstVisit; secondVisit] visitsAnalysis).
  - discriminate.
  - constructor; [split; vm_compute; reflexivity|].
    constructor; [split; vm_compute; reflexivity|]. constructor.
  - vm_compute. reflexivity.
Defined.

(** X14. From texts to results: when the files were made by [parseFile]
    from plain texts (no underscore, no header that names a member of
    [Object.prototype]) whose category and metric names are clean, the
    analyzer returns for the maps the parser returns for these texts,
    and [analyzeFiles] returns that analysis, under the file names
    given. *)
Theorem parse_then_analyze (typeErrorMessage : jstring) (now : Z)
    (pfs : list Domain.ParsedFile) (fds : list FileData) :
  pfs <> [] ->
  Forall2
    (fun pf fd =>
       exists (uploaded : Z) (s : jstring) (sizeBytes : option float),
         plainText s
         /\ ParsingService.parseFile typeErrorMessage uploaded (name fd)
              (Text s) sizeBytes = Domain.Normal pf
         /\ parseVngText (Text s) = Returned (data fd)
         /\ cleanFile fd)
    pfs fds ->
  exists res : Results,
    runAnalysis fds = Returned res
    /\ AnalysisService.analyzeFiles typeErrorMessage now pfs
       = Domain.Normal
           {| Domain.results := asAnalysisResults res;
              Domain.fileCount := length fds;
              Domain.totalMetrics := seriesCount res;
              Domain.createdAt := now |}.
Proof.
  intros Hne Hfiles.
  assert (Hfds : fds <> []).
  { intros ->. apply Forall2_nil_inv_r in Hfiles. contradiction. }
  assert (Hclean : Forall cleanFile fds).
  { clear -Hfiles. induction Hfiles as [|pf fd pfs fds Hfile _ IH];
      constructor; [|exact IH].
    destruct Hfile as (_ & _ & _ & _ & _ & _ & Hclean). exact Hclean. }
  destruct (runAnalysis_clean _ Hfds Hclean) as (res & Hrun & _).
  exists res. split; [exact Hrun|].
  rewrite <- (Forall2_length _ _ _ Hfiles).
  apply (analyzeFiles_Returned _ _ _ fds); [exact Hne| |exact Hrun].
  eapply Forall2_impl; [exact Hfiles|].
  intros pf fd (uploaded & text & sizeBytes & _ & Hfile & Hparse & _).
  rewrite (parseFile_Returned _ _ _ _ _ _ Hparse) in Hfile.
  injection Hfile as <-. split; [reflexivity|].
  apply convertParsedFileToDict_data.
  eapply parseVngText_names. exact Hparse.
Qed.

Lemma parse_then_analyze_witness :
  exists res : Results,
    runAnalysis [firstVisit; secondVisit] = Returned res
    /\ AnalysisService.analyzeFiles (js "TypeError") 5
         [parsedVisit firstVisit; parsedVisit secondVisit]
       = Domain.Normal
           {| Domain.results := asAnalysisResults res;
              Domain.fileCount := length [firstVisit; secondVisit];
              Domain.totalMetrics := seriesCount res;
              Domain.createdAt := 5 |}.
Proof.
  apply (parse_then_analyze (js "TypeError") 5
           [parsedVisit firstVisit; parsedVisit secondVisit]
           [firstVisit; secondVisit]).
  - discriminate.
  - constructor.
    + exists 0%Z,
        (js "Saccades:" ++ LF ++ js "Latency: 200" ++ LF ++ js "Accuracy: 90"),
        None.
      split; [apply (bool_decide_unpack _); vm_compute; exact I|].
      split; [vm_compute; reflexivity|]. split; [vm_compute; reflexivity|].
      apply cleanFile_check. vm_compute. reflexivity.
    + constructor; [|constructor].
      exists 0%Z, (js "Saccades:" ++ LF ++ js "Latency: 250 | FLAG"), None.
      split; [apply (bool_decide_unpack _); vm_compute; exact I|].
      split; [vm_compute; reflexivity|]. split; [vm_compute; reflexivity|].
      apply cleanFile_check. vm_compute. reflexivity.
Defined.

Lemma asAnalysisResults_lookup (res : Results) (category : jstring) :
  asAnalysisResults res !! category
  = asAnalysisResult category <$> res !! category.
Proof.
  unfold asAnalysisResults. rewrite map_lookup_imap.
  destruct (res !! category); reflexivity.
Qed.

Lemma convertAnalysisResultsToDict_asAnalysisResults (res : Results)
    fileCount totalMetrics now :
  tidyResult res ->
  App.convertAnalysisResultsToDict
    {| Domain.results := asAnalysisResults res; Domain.fileCount := fileCount;
       Domain.totalMetrics := totalMetrics; Domain.createdAt := now |}
  = Returned res.
Proof.
  intros Htidy. unfold App.convertAnalysisResultsToDict. cbn [Domain.results].
  rewrite (convert_dictionary Domain.metrics asSeries).
  - f_equal. apply map_eq. intros category.
    rewrite lookup_fmap, asAnalysisResults_lookup.
    destruct (res !! category) as [metrics|]; [|reflexivity].
    simpl. f_equal. rewrite <- map_fmap_compose.
    rewrite <- (map_fmap_id metrics) at 2. apply map_fmap_ext.
    intros metric s _. apply asSeries_asMetricData.
  - intros category a Hlook. rewrite asAnalysisResults_lookup in Hlook.
    destruct (res !! category) as [metrics|] eqn:Hres; [|discriminate].
    injection Hlook as <-.
    destruct (tidyResult_no_proto res Htidy _ _ Hres) as [Hc Hm].
    split; [exact Hc|]. intros metric Hsome. apply Hm.
    simpl in Hsome. rewrite lookup_fmap in Hsome.
    apply fmap_is_Some in Hsome. exact Hsome.
Qed.

(** X15. The dictionary the application makes of the results for its
    charts and its heat map is the result of the analyzer again: nothing
    is lost or renamed on the way through [analyzeFiles] and
    [convertAnalysisResultsToDict]. *)
Theorem analysis_results_round_trip (typeErrorMessage : jstring) (now : Z)
    (pfs : list Domain.ParsedFile) (fds : list FileData) (res : Results) :
  pfs <> [] ->
  Forall2 legacyFile pfs fds ->
  runAnalysis fds = Returned res ->
  exists r : Domain.AnalysisResults,
    AnalysisService.analyzeFiles typeErrorMessage now pfs = Domain.Normal r
    /\ App.convertAnalysisResultsToDict r = Returned res.
Proof.
  intros Hne Hfiles Hrun. eexists. split.
  - exact (analyzeFiles_Returned _ _ _ fds res Hne Hfiles Hrun).
  - apply convertAnalysisResultsToDict_asAnalysisResults.
    eapply runAnalysis_tidy. exact Hrun.
Qed.

Lemma analysis_results_round_trip_witness :
  exists r : Domain.AnalysisResults,
    AnalysisService.analyzeFiles (js "TypeError") 5
      [parsedVisit firstVisit; parsedVisit secondVisit] = Domain.Normal r
    /\ App.convertAnalysisResultsToDict r = Returned visitsAnalysis.
Proof.
  apply (analysis_results_round_trip (js "TypeError") 5
           [parsedVisit firstVisit; parsedVisit secondVisit]
           [firstVisit; secondVisit] visitsAnalysis).
  - discriminate.
  - constructor; [split; vm_compute; reflexivity|].
    constructor; [split; vm_compute; reflexivity|]. constructor.
  - vm_compute. reflexivity.
Defined.

Lemma parsed_file_round_trip_witness :
  exists d : DataMap,
    parseVngText (Text (js "Saccades:" ++ LF ++ js "Latency: 250 | FLAG"))
    = Returned d
    /\ AnalysisService._convertParsedFileToDict (parsedVisit secondVisit)
       = Returned d
    /\ App.convertParsedFileDataToDict (Domain.data (parsedVisit secondVisit))
       = Returned d.
Proof.
  apply (parsed_file_round_trip (js "TypeError") 0 (js "visit2.txt")
           (Text (js "Saccades:" ++ LF ++ js "Latency: 250 | FLAG")) None
           (parsedVisit secondVisit)).
  vm_compute. reflexivity.
Defined.

End AnalysisFacts.

Section AppFacts.

Lemma Array_map_length {A B} (f : A -> outcome B) (xs : list A) (ys : list B) :
  Array_map f xs = Returned ys -> length ys = length xs.
Proof.
  revert ys. induction xs as [|x xs IH]; intros ys H; simpl in H.
  - injection H as <-. reflexivity.
  - destruct (f x) as [y| |]; try discriminate. simpl in H.
    destruct (Array_map f xs) as [ys'| |]; try discriminate. simpl in H.
    injection H as <-. simpl. rewrite (IH ys'); reflexivity.
Qed.

(** What a normal return of [analyzeFiles] tells. *)
Lemma analyzeFiles_Normal typeErrorMessage now pfs r :
  AnalysisService.analyzeFiles typeErrorMessage now pfs = Domain.Normal r ->
  exists (fds : list FileData) (res : Results),
    Array_map
      (fun pf =>
         bind (AnalysisService._convertParsedFileToDict pf)
           (fun d => Returned {| name := Domain.name pf; data := d |}))
      pfs
    = Returned fds
    /\ runAnalysis fds = Returned res
    /\ r = {| Domain.results := asAnalysisResults res;
              Domain.fileCount := length pfs;
              Domain.totalMetrics := seriesCount res;
              Domain.createdAt := now |}.
Proof.
  unfold AnalysisService.analyzeFiles. case_bool_decide as Hlen.
  - intros [= <-]. exists [], ∅.
    destruct pfs; [|discriminate]. repeat split.
  - destruct (Array_map _ pfs) as [fds| |] eqn:Hmap; try discriminate.
    cbn [bind].
    destruct (runAnalysis fds) as [res| |] eqn:Hrun; try discriminate.
    cbn [bind]. rewrite analyze_outer.
    + cbn [bind]. unfold Object_entries. rewrite asAnalysisResults_foldl.
      intros [= <-]. exists fds, res.
      split; [reflexivity|]. split; [exact Hrun | reflexivity].
    + apply Forall_forall. intros [category metrics] Hin.
      apply elem_of_map_to_list in Hin.
      exact (tidyResult_no_proto res (runAnalysis_tidy _ _ Hrun) _ _ Hin).
Qed.

Lemma elem_of_Object_values {V} (o : gmap jstring V) (v : V) :
  v ∈ Object_values o <-> exists k, o !! k = Some v.
Proof.
  unfold Object_values, Object_entries. rewrite list_elem_of_fmap. split.
  - intros ([k v'] & -> & Hin). exists k. apply elem_of_map_to_list. exact Hin.
  - intros [k Hk]. exists (k, v). split; [reflexivity|].
    apply elem_of_map_to_list. exact Hk.
Qed.

Lemma foldl_count_unchanged {A} (step : nat -> A -> nat) (l : list A) (n : nat) :
  Forall (fun x => forall count, step count x = count) l ->
  foldl step n l = n.
Proof.
  revert n. induction l as [|x l IH]; intros n Hall; [reflexivity|].
  apply Forall_cons in Hall as [Hx Hall]. simpl. rewrite Hx. apply IH, Hall.
Qed.

(** X16. The count of significant changes is [0] unless exactly two
    files were analyzed: with any other number of files no series has a
    percent change. *)
Theorem no_significant_change_unless_two_files (typeErrorMessage : jstring)
    (now : Z) (pfs : list Domain.ParsedFile) (r : Domain.AnalysisResults) :
  AnalysisService.analyzeFiles typeErrorMessage now pfs = Domain.Normal r ->
  length pfs <> 2 ->
  App.countSignificantChanges r = 0.
Proof.
  intros Hrun Hlen.
  apply analyzeFiles_Normal in Hrun as (fds & res & Hfds & Hrun & ->).
  apply Array_map_length in Hfds.
  unfold App.countSignificantChanges. cbn [Domain.results].
  apply foldl_count_unchanged, Forall_forall. intros a Ha count.
  apply elem_of_Object_values in Ha as [category Ha].
  rewrite asAnalysisResults_lookup in Ha.
  destruct (res !! category) as [metrics|] eqn:Hres; [|discriminate].
  injection Ha as <-. cbn [Domain.metrics asAnalysisResult].
  apply foldl_count_unchanged, Forall_forall. intros md Hmd count'.
  apply elem_of_Object_values in Hmd as [metric Hmd].
  rewrite lookup_fmap in Hmd.
  destruct (metrics !! metric) as [s|] eqn:Hs; [|discriminate].
  injection Hmd as <-.
  assert (Hentry : entry res category metric = Some s).
  { unfold entry. rewrite Hres. exact Hs. }
  destruct (runAnalysis_sound _ _ _ _ _ Hrun Hentry) as (readings & _ & ->).
  cbn [asMetricData Domain.percentChange seriesFor percentChange].
  rewrite bool_decide_eq_false_2 by lia. reflexivity.
Qed.

Lemma no_significant_change_unless_two_files_witness :
  App.countSignificantChanges
    {| Domain.results :=
         asAnalysisResults
           {[ js "Saccades" :=
                {[ js "Latency" := seriesFor 1 [num 250] [Some true] ]} ]};
       Domain.fileCount := 1;
       Domain.totalMetrics := 1;
       Domain.createdAt := 5 |}
  = 0.
Proof.
  apply (no_significant_change_unless_two_files (js "TypeError") 5
           [parsedVisit secondVisit]).
  - vm_compute. reflexivity.
  - simpl. lia.
Defined.

Lemma map_to_list_asAnalysisResults (res : Results) :
  map_to_list (asAnalysisResults res)
  ≡ₚ (fun cms : jstring * gmap jstring MetricSeries =>
        (cms.1, asAnalysisResult cms.1 cms.2)) <$> map_to_list res.
Proof.
  apply NoDup_Permutation.
  - apply NoDup_map_to_list.
  - apply (NoDup_fmap_2_strong _ (map_to_list res)); [|apply NoDup_map_to_list].
    intros [c ms] [c' ms'] Hin Hin' [= -> _].
    apply elem_of_map_to_list in Hin, Hin'. congruence.
  - intros [c a]. rewrite elem_of_map_to_list, asAnalysisResults_lookup.
    rewrite list_elem_of_fmap. split.
    + destruct (res !! c) as [ms|] eqn:Hres; [|discriminate].
      intros [= <-]. exists (c, ms). split; [reflexivity|].
      apply elem_of_map_to_list. exact Hres.
    + intros ([c' ms] & [= -> ->] & Hin).
      apply elem_of_map_to_list in Hin. rewrite Hin. reflexivity.
Qed.

Lemma sum_list_with_fmap {A B} (f : B -> nat) (g : A -> B) (l : list A) :
  sum_list_with f (g <$> l) = sum_list ((fun x => f (g x)) <$> l).
Proof.
  induction l as [|x l IH]; [reflexivity|].
  cbn [fmap list_fmap sum_list_with sum_list] in *. f_equal. exact IH.
Qed.

Lemma sum_list_fmap_Permutation {A} (f : A -> nat) (l k : list A) :
  l ≡ₚ k -> sum_list (f <$> l) = sum_list (f <$> k).
Proof. induction 1; csimpl in *; lia. Qed.

Lemma foldl_count_bound {A} (step : nat -> A -> nat) (weight : A -> nat)
    (l : list A) (n : nat) :
  (forall count x, step count x <= count + weight x) ->
  foldl step n l <= n + sum_list_with weight l.
Proof.
  intros Hstep. revert n.
  induction l as [|x l IH]; intros n; simpl; [lia|].
  specialize (IH (step n x)). specialize (Hstep n x). lia.
Qed.

(** A count of the series that pass a test is at most their number. *)
Lemma nested_count_bound (step : nat -> Domain.MetricData -> nat)
    (res : Results) :
  (forall count metricData, step count metricData <= count + 1) ->
  foldl
    (fun count category =>
       foldl step count (Object_values (Domain.metrics category)))
    0 (Object_values (asAnalysisResults res))
  <= seriesCount res.
Proof.
  intros Hstep. etransitivity.
  { apply (foldl_count_bound _
             (fun a : Domain.AnalysisResult => size (Domain.metrics a))).
    intros count a. etransitivity.
    { apply (foldl_count_bound _ (fun _ => 1)). exact Hstep. }
    unfold Object_values, Object_entries.
    rewrite sum_list_with_fmap, sum_list_fmap_const, length_map_to_list. lia. }
  unfold Object_values, Object_entries, seriesCount.
  rewrite sum_list_with_fmap.
  rewrite (sum_list_fmap_Permutation _ _ _ (map_to_list_asAnalysisResults res)).
  rewrite <- list_fmap_compose. simpl.
  apply Nat.eq_le_incl. f_equal. apply list_fmap_ext.
  intros i [c ms] _. simpl. apply map_size_fmap.
Qed.

(** X21. The two counts of the summary cards never exceed the number of
    metrics reported beside them. *)
Theorem summary_counts_bounded (typeErrorMessage : jstring) (now : Z)
    (pfs : list Domain.ParsedFile) (r : Domain.AnalysisResults) :
  AnalysisService.analyzeFiles typeErrorMessage now pfs = Domain.Normal r ->
  App.countFlaggedMetrics r <= Domain.totalMetrics r
  /\ App.countSignificantChanges r <= Domain.totalMetrics r.
Proof.
  intros Hrun.
  apply analyzeFiles_Normal in Hrun as (fds & res & _ & _ & ->).
  unfold App.countFlaggedMetrics, App.countSignificantChanges.
  cbn [Domain.results Domain.totalMetrics]. split.
  - apply nested_count_bound. intros count metricData.
    destruct (existsb _ _); lia.
  - apply nested_count_bound. intros count metricData.
    destruct (Domain.percentChange metricData) as [percentChange|]; [|lia].
    destruct (10 <? abs percentChange)%float; lia.
Qed.

Lemma summary_counts_bounded_witness :
  App.countFlaggedMetrics
    {| Domain.results := asAnalysisResults visitsAnalysis;
       Domain.fileCount := 2;
       Domain.totalMetrics := seriesCount visitsAnalysis;
       Domain.createdAt := 5 |}
  <= seriesCount visitsAnalysis
  /\ App.countSignificantChanges
       {| Domain.results := asAnalysisResults visitsAnalysis;
          Domain.fileCount := 2;
          Domain.totalMetrics := seriesCount visitsAnalysis;
          Domain.createdAt := 5 |}
     <= seriesCount visitsAnalysis.
Proof.
  apply (summary_counts_bounded (js "TypeError") 5
           [parsedVisit firstVisit; parsedVisit secondVisit]).
  vm_compute. reflexivity.
Defined.

Lemma parsed_files_legacy typeErrorMessage
    (pfs : list Domain.ParsedFile) (fds : list FileData) :
  Forall2
    (fun pf fd =>
       exists (uploaded : Z) (s : jstring) (sizeBytes : option float),
         plainText s
         /\ ParsingService.parseFile typeErrorMessage uploaded (name fd)
              (Text s) sizeBytes = Domain.Normal pf
         /\ parseVngText (Text s) = Returned (data fd)
         /\ cleanFile fd)
    pfs fds ->
  Forall2 legacyFile pfs fds.
Proof.
  intros Hfiles. eapply Forall2_impl; [exact Hfiles|].
  intros pf fd (uploaded & text & sizeBytes & _ & Hfile & Hparse & _).
  rewrite (parseFile_Returned _ _ _ _ _ _ Hparse) in Hfile.
  injection Hfile as <-. split; [reflexivity|].
  apply convertParsedFileToDict_data.
  eapply parseVngText_names. exact Hparse.
Qed.

End AppFacts.

(* ===================================================================== *)
(** * Properties of the heat map                                         *)
(* ===================================================================== *)

Section OrderFacts.

Lemma String_lt_irrefl x : String_lt x x = false.
Proof.
  induction x as [|c x IH]; [reflexivity|]. simpl.
  rewrite N.ltb_irrefl, N.eqb_refl, IH. reflexivity.
Qed.

Lemma String_lt_trans x y z :
  String_lt x y = true -> String_lt y z = true -> String_lt x z = true.
Proof.
  revert y z. induction x as [|c x IH]; intros [|d y] [|e z]; simpl;
    try discriminate; try reflexivity.
  rewrite !orb_true_iff, !andb_true_iff, !N.ltb_lt, !N.eqb_eq.
  intros [Hcd|[-> Hxy]] [Hde|[-> Hyz]].
  - left. lia.
  - left. exact Hcd.
  - left. exact Hde.
  - right. split; [reflexivity|]. eapply IH; eassumption.
Qed.

Lemma String_lt_total x y :
  String_lt x y = false -> String_lt y x = false -> x = y.
Proof.
  revert y. induction x as [|c x IH]; intros [|d y]; simpl;
    try discriminate; try reflexivity.
  rewrite !orb_false_iff, !andb_false_iff, !N.ltb_ge, !N.eqb_neq.
  intros [Hcd Hxy] [Hdc Hyx].
  assert (c = d) as -> by lia.
  f_equal. apply IH.
  - destruct Hxy as [Hxy|Hxy]; [congruence | exact Hxy].
  - destruct Hyx as [Hyx|Hyx]; [congruence | exact Hyx].
Qed.

Lemma insertString_Permutation x sorted : insertString x sorted ≡ₚ x :: sorted.
Proof.
  induction sorted as [|y rest IH]; simpl; [reflexivity|].
  destruct (String_lt x y); [reflexivity|].
  rewrite IH. apply Permutation_swap.
Qed.

Lemma Array_sortStrings_Permutation array : Array_sortStrings array ≡ₚ array.
Proof.
  unfold Array_sortStrings.
  enough (Hgen : forall acc,
             foldl (fun sorted x => insertString x sorted) acc array
             ≡ₚ array ++ acc).
  { rewrite Hgen, app_nil_r. reflexivity. }
  induction array as [|x array IH]; intros acc; simpl; [reflexivity|].
  rewrite IH, insertString_Permutation. symmetry. apply Permutation_middle.
Qed.

Lemma insertString_sorted x sorted :
  StronglySorted (fun a b => String_lt b a = false) sorted ->
  StronglySorted (fun a b => String_lt b a = false) (insertString x sorted).
Proof.
  induction 1 as [|y rest Hrest IH Hall]; simpl.
  - repeat constructor.
  - destruct (String_lt x y) eqn:Hxy.
    + constructor; [constructor; assumption|].
      constructor.
      * destruct (String_lt y x) eqn:Hyx; [|reflexivity].
        rewrite <- (String_lt_irrefl x). symmetry.
        eapply String_lt_trans; eassumption.
      * eapply Forall_impl; [exact Hall|]. intros z Hyz. simpl in Hyz.
        destruct (String_lt z x) eqn:Hzx; [|reflexivity].
        rewrite <- Hyz. symmetry. eapply String_lt_trans; eassumption.
    + constructor; [exact IH|].
      rewrite insertString_Permutation. constructor; assumption.
Qed.

(** Sorting names that are all different puts them in strictly ascending
    order. *)
Lemma Array_sortStrings_sorted array :
  NoDup array ->
  StronglySorted (fun a b => String_lt a b = true) (Array_sortStrings array).
Proof.
  intros Hdup.
  assert (Hle : StronglySorted (fun a b => String_lt b a = false)
                  (Array_sortStrings array)).
  { unfold Array_sortStrings.
    enough (Hgen : forall acc,
               StronglySorted (fun a b => String_lt b a = false) acc ->
               StronglySorted (fun a b => String_lt b a = false)
                 (foldl (fun sorted x => insertString x sorted) acc array)).
    { apply Hgen. constructor. }
    clear Hdup. induction array as [|x array IH]; intros acc Hacc; simpl;
      [exact Hacc|].
    apply IH, insertString_sorted, Hacc. }
  rewrite <- (Array_sortStrings_Permutation array) in Hdup.
  induction Hle as [|y rest Hrest IH Hall]; [constructor|].
  apply NoDup_cons in Hdup as [Hfresh Hdup].
  constructor; [apply IH, Hdup|].
  apply Forall_forall. intros z Hz.
  rewrite Forall_forall in Hall. specialize (Hall z Hz). simpl in Hall.
  destruct (String_lt y z) eqn:Hyz; [reflexivity|].
  exfalso. apply Hfresh. rewrite (String_lt_total y z Hyz Hall). exact Hz.
Qed.

End OrderFacts.

Section HeatmapFacts.

Lemma createHeatmap_rows (analysisResults : Results)
    (fileDataList : list FileData) :
  VisualizationService.createHeatmap analysisResults fileDataList
  = heatmapWith analysisResults (name <$> fileDataList)
      (heatmapRows analysisResults).
Proof.
  unfold VisualizationService.createHeatmap, heatmapRows.
  generalize (Array_sortStrings (Object_keys analysisResults)) as sorted.
  intros sorted.
  change {| VisualizationService.categories := [];
            VisualizationService.metrics := [];
            VisualizationService.values := [];
            VisualizationService.fileNames := name <$> fileDataList |}
    with (heatmapWith analysisResults (name <$> fileDataList) []).
  rewrite <- (app_nil_l (sorted ≫= _)).
  generalize ([] : list (jstring * jstring)) as rows.
  induction sorted as [|category sorted IH]; intros rows.
  - simpl. rewrite app_nil_r. reflexivity.
  - cbn [foldl mbind list_bind]. rewrite app_assoc, <- IH. f_equal.
    generalize (Array_sortStrings
                  (Object_keys (default ∅ (analysisResults !! category))))
      as categoryMetrics.
    intros categoryMetrics. revert rows.
    induction categoryMetrics as [|metric categoryMetrics IHm]; intros rows.
    + simpl. rewrite app_nil_r. reflexivity.
    + cbn [foldl].
      replace (rows ++ ((fun metric => (category, metric))
                          <$> metric :: categoryMetrics))
        with ((rows ++ [(category, metric)])
              ++ ((fun metric => (category, metric)) <$> categoryMetrics))
        by (rewrite <- app_assoc; reflexivity).
      rewrite <- IHm. f_equal. unfold heatmapWith, rowLabel, rowCells.
      cbn [VisualizationService.categories VisualizationService.metrics
           VisualizationService.values VisualizationService.fileNames].
      rewrite !fmap_app. reflexivity.
Qed.

Lemma elem_of_Object_keys {V} (o : gmap jstring V) (k : jstring) :
  k ∈ Object_keys o <-> is_Some (o !! k).
Proof.
  unfold Object_keys, Object_entries. rewrite list_elem_of_fmap. split.
  - intros ([k' v] & -> & Hin). apply elem_of_map_to_list in Hin.
    simpl. rewrite Hin. eauto.
  - intros [v Hv]. exists (k, v). split; [reflexivity|].
    apply elem_of_map_to_list. exact Hv.
Qed.

Lemma elem_of_heatmapRows (analysisResults : Results)
    (category metric : jstring) :
  (category, metric) ∈ heatmapRows analysisResults
  <-> is_Some (entry analysisResults category metric).
Proof.
  unfold heatmapRows. rewrite list_elem_of_bind. split.
  - intros (c & Hin & Hc).
    apply list_elem_of_fmap in Hin as (m & [= -> ->] & Hm).
    rewrite Array_sortStrings_Permutation in Hm, Hc.
    apply elem_of_Object_keys in Hm. apply elem_of_Object_keys in Hc.
    unfold entry. destruct Hc as [inner Hinner]. rewrite Hinner in Hm |- *.
    exact Hm.
  - intros Hentry. unfold entry in Hentry.
    destruct (analysisResults !! category) as [inner|] eqn:Hinner;
      [|destruct Hentry; discriminate].
    exists category. split.
    + apply list_elem_of_fmap. exists metric. split; [reflexivity|].
      rewrite Array_sortStrings_Permutation, Hinner.
      apply elem_of_Object_keys. exact Hentry.
    + rewrite Array_sortStrings_Permutation.
      apply elem_of_Object_keys. rewrite Hinner. eauto.
Qed.

Lemma heatmapRows_sorted (analysisResults : Results) :
  StronglySorted rowBefore (heatmapRows analysisResults).
Proof.
  unfold heatmapRows.
  pose proof (Array_sortStrings_sorted (Object_keys analysisResults)
                (NoDup_fst_map_to_list analysisResults)) as Hsorted.
  induction Hsorted as [|category sorted Hsorted IH Hall]; [constructor|].
  cbn [mbind list_bind]. apply StronglySorted_app_2.
  - intros [c m] [c' m'] Hin Hin'.
    apply list_elem_of_fmap in Hin as (m0 & [= -> ->] & _).
    apply list_elem_of_bind in Hin' as (c0 & Hin' & Hc0).
    apply list_elem_of_fmap in Hin' as (m1 & [= -> ->] & _).
    left. simpl. rewrite Forall_forall in Hall. exact (Hall _ Hc0).
  - eapply StronglySorted_fmap;
      [|apply Array_sortStrings_sorted, NoDup_fst_map_to_list].
    intros m m' Hlt. right. split; [reflexivity | exact Hlt].
  - exact IH.
Qed.

(** X17. The heat map has one row for each series of the results and no
    other: the rows stand in ascending order of category, then of metric
    (by code units); a row holds the category, the label
    [category: metric] and the values of the series; the column heads
    are the file names in the order of the files. *)
Theorem heatmap_rows_are_the_series (analysisResults : Results)
    (fileDataList : list FileData) :
  let heatmapData :=
    VisualizationService.createHeatmap analysisResults fileDataList in
  exists rows : list (jstring * jstring),
    (forall category metric,
        (category, metric) ∈ rows
        <-> is_Some (entry analysisResults category metric))
    /\ StronglySorted rowBefore rows
    /\ VisualizationService.categories heatmapData = rows.*1
    /\ VisualizationService.metrics heatmapData
       = (fun cm => cm.1 ++ js ": " ++ cm.2) <$> rows
    /\ Forall2
         (fun cm row => values <$> entry analysisResults cm.1 cm.2 = Some row)
         rows (VisualizationService.values heatmapData)
    /\ VisualizationService.fileNames heatmapData = name <$> fileDataList.
Proof.
  cbv zeta. exists (heatmapRows analysisResults).
  rewrite createHeatmap_rows. unfold heatmapWith.
  cbn [VisualizationService.categories VisualizationService.metrics
       VisualizationService.values VisualizationService.fileNames].
  split; [apply elem_of_heatmapRows|].
  split; [apply heatmapRows_sorted|].
  split; [reflexivity|]. split; [reflexivity|]. split; [|reflexivity].
  apply Forall2_fmap_r, Forall_Forall2_diag, Forall_forall.
  intros [category metric] Hin.
  apply elem_of_heatmapRows in Hin as [s Hs].
  unfold rowCells. simpl. rewrite Hs. reflexivity.
Qed.

(** X18. The heat map of the analysis of files with clean names is a
    full table: a row that stands under the category [category] with
    the label [category: metric] has as many cells as there are column
    heads, and its i-th cell is the value that the i-th file holds for
    that metric of that category. *)
Theorem heatmap_of_analysis_is_rectangular (fileDataList : list FileData)
    (analysisResults : Results) (i : nat) (category metric : jstring)
    (row : list numeric) :
  Forall cleanFile fileDataList ->
  runAnalysis fileDataList = Returned analysisResults ->
  VisualizationService.categories
    (VisualizationService.createHeatmap analysisResults fileDataList) !! i
  = Some category ->
  VisualizationService.metrics
    (VisualizationService.createHeatmap analysisResults fileDataList) !! i
  = Some (category ++ js ": " ++ metric) ->
  VisualizationService.values
    (VisualizationService.createHeatmap analysisResults fileDataList) !! i
  = Some row ->
  length row
  = length (VisualizationService.fileNames
              (VisualizationService.createHeatmap analysisResults fileDataList))
  /\ Forall2
       (fun fileData cell =>
          exists r,
            entry (data fileData) category metric = Some r
            /\ cell = num (value r))
       fileDataList row.
Proof.
  intros Hclean Hrun Hcategory Hlabel Hrow. rewrite createHeatmap_rows in *.
  unfold heatmapWith in *.
  cbn [VisualizationService.categories VisualizationService.metrics
       VisualizationService.values VisualizationService.fileNames] in *.
  rewrite list_lookup_fmap in Hcategory. rewrite list_lookup_fmap in Hlabel.
  rewrite list_lookup_fmap in Hrow.
  destruct (heatmapRows analysisResults !! i) as [[c m]|] eqn:Hi;
    [|discriminate].
  simpl in Hcategory, Hrow.
  injection Hcategory as ->. injection Hlabel as Hlabel.
  unfold rowLabel in Hlabel. cbn [fst snd] in Hlabel.
  apply app_inv_head in Hlabel. simpl in Hlabel. injection Hlabel as ->.
  apply list_elem_of_lookup_2, elem_of_heatmapRows in Hi as [s Hs].
  unfold rowCells in Hrow. simpl in Hrow. rewrite Hs in Hrow.
  injection Hrow as <-.
  destruct (series_lengths _ _ _ _ _ Hrun Hs) as [Hlen _].
  rewrite length_fmap. split; [exact Hlen|].
  destruct (runAnalysis_clean_series _ _ _ _ _ Hclean Hrun Hs)
    as (readings & Hall & ->).
  cbn [seriesFor values]. unfold valuesOf. apply Forall2_fmap_r.
  eapply Forall2_impl; [exact Hall|].
  intros fileData r Hr. exists r. split; [exact Hr|reflexivity].
Qed.

Lemma heatmap_of_analysis_is_rectangular_witness :
  length [num 200; num 250]
  = length (VisualizationService.fileNames
              (VisualizationService.createHeatmap visitsAnalysis
                 [firstVisit; secondVisit]))
  /\ Forall2
       (fun fileData cell =>
          exists r,
            entry (data fileData) (js "Saccades") (js "Latency") = Some r
            /\ cell = num (value r))
       [firstVisit; secondVisit] [num 200; num 250].
Proof.
  apply (heatmap_of_analysis_is_rectangular [firstVisit; secondVisit]
           visitsAnalysis 0 (js "Saccades") (js "Latency")).
  - constructor; [|constructor; [|constructor]];
      apply cleanFile_check; vm_compute; reflexivity.
  - vm_compute. reflexivity.
  - vm_compute. reflexivity.
  - vm_compute. reflexivity.
  - vm_compute. reflexivity.
Defined.

End HeatmapFacts.

(* ===================================================================== *)
(** * More properties of the analyzer                                    *)
(* ===================================================================== *)

Section AnalyzerMore.

(** X19. For files with clean names, which metrics are reported does not
    depend on the order of the files, and a further file can only take
    metrics away: those it does not hold. *)
Theorem analysis_keys_order_and_growth :
  (forall files files' : list FileData,
      files ≡ₚ files' -> files <> [] -> Forall cleanFile files ->
      exists res res' : Results,
        runAnalysis files = Returned res
        /\ runAnalysis files' = Returned res'
        /\ forall category metric : jstring,
             is_Some (entry res category metric)
             <-> is_Some (entry res' category metric))
  /\ (forall (files : list FileData) (f : FileData),
        files <> [] -> Forall cleanFile (files ++ [f]) ->
        exists res res' : Results,
          runAnalysis files = Returned res
          /\ runAnalysis (files ++ [f]) = Returned res'
          /\ forall category metric : jstring,
               is_Some (entry res' category metric)
               <-> is_Some (entry res category metric)
                   /\ is_Some (entry (data f) category metric)).
Proof.
  split.
  - intros files files' Hperm Hne Hclean.
    assert (Hne' : files' <> []).
    { intros ->. apply Permutation_nil_r in Hperm. contradiction. }
    assert (Hclean' : Forall cleanFile files') by (rewrite <- Hperm; exact Hclean).
    destruct (runAnalysis_clean files Hne Hclean) as (res & Hres & Hkeys).
    destruct (runAnalysis_clean files' Hne' Hclean') as (res' & Hres' & Hkeys').
    exists res, res'. split; [exact Hres|]. split; [exact Hres'|].
    intros category metric. rewrite Hkeys, Hkeys', Hperm. reflexivity.
  - intros files f Hne Hclean.
    assert (Hne' : files ++ [f] <> []) by (destruct files; discriminate).
    pose proof (proj1 (proj1 (Forall_app _ _ _) Hclean)) as Hfiles.
    destruct (runAnalysis_clean files Hne Hfiles) as (res & Hres & Hkeys).
    destruct (runAnalysis_clean _ Hne' Hclean) as (res' & Hres' & Hkeys').
    exists res, res'. split; [exact Hres|]. split; [exact Hres'|].
    intros category metric.
    rewrite Hkeys, Hkeys', Forall_app, Forall_singleton. reflexivity.
Qed.

Lemma analysis_keys_order_and_growth_witness :
  (exists res res' : Results,
      runAnalysis [firstVisit; secondVisit] = Returned res
      /\ runAnalysis [secondVisit; firstVisit] = Returned res'
      /\ forall category metric : jstring,
           is_Some (entry res category metric)
           <-> is_Some (entry res' category metric))
  /\ (exists res res' : Results,
        runAnalysis [firstVisit] = Returned res
        /\ runAnalysis ([firstVisit] ++ [secondVisit]) = Returned res'
        /\ forall category metric : jstring,
             is_Some (entry res' category metric)
             <-> is_Some (entry res category metric)
                 /\ is_Some (entry (data secondVisit) category metric)).
Proof.
  split.
  - apply (proj1 analysis_keys_order_and_growth
             [firstVisit; secondVisit] [secondVisit; firstVisit]).
    + apply Permutation_swap.
    + discriminate.
    + constructor; [apply cleanFile_check; vm_compute; reflexivity|].
      constructor; [apply cleanFile_check; vm_compute; reflexivity|].
      constructor.
  - apply (proj2 analysis_keys_order_and_growth [firstVisit] secondVisit).
    + discriminate.
    + constructor; [apply cleanFile_check; vm_compute; reflexivity|].
      constructor; [apply cleanFile_check; vm_compute; reflexivity|].
      constructor.
Defined.

End AnalyzerMore.

(* ===================================================================== *)
(** * From the texts to the heat map                                     *)
(* ===================================================================== *)

Section DisplayFacts.

Lemma length_bind_sum {A B} (f : A -> list B) (l : list A) :
  length (l ≫= f) = sum_list ((fun x => length (f x)) <$> l).
Proof.
  induction l as [|x l IH]; [reflexivity|].
  cbn [mbind list_bind fmap list_fmap sum_list] in *.
  rewrite length_app. f_equal. exact IH.
Qed.

Lemma Object_keys_length {V} (o : gmap jstring V) :
  length (Array_sortStrings (Object_keys o)) = size o.
Proof.
  rewrite (Permutation_length (Array_sortStrings_Permutation _)).
  unfold Object_keys, Object_entries.
  rewrite length_fmap. apply length_map_to_list.
Qed.

(** The heat map has as many rows as the results have series. *)
Lemma heatmapRows_length (analysisResults : Results) :
  length (heatmapRows analysisResults) = seriesCount analysisResults.
Proof.
  unfold heatmapRows, seriesCount. rewrite length_bind_sum.
  rewrite (sum_list_fmap_Permutation _ _ _ (Array_sortStrings_Permutation _)).
  change (Object_keys analysisResults) with ((map_to_list analysisResults).*1).
  rewrite <- list_fmap_compose.
  f_equal. apply list_fmap_ext. intros i [category metrics] Hin.
  apply list_elem_of_lookup_2, elem_of_map_to_list in Hin.
  simpl. rewrite length_fmap, Hin. apply Object_keys_length.
Qed.

(** X22. What the application shows: when the files were made by
    [parseFile] from plain texts (no underscore, no header that names a
    member of [Object.prototype]) whose category and metric names are
    clean, and analyzed by [analyzeFiles], the two conversions hand to
    [createHeatmap] the analyzer's result for the parser's maps and
    these maps under the file names; the heat map then has the names of
    the parsed files as column heads and as many rows as the summary
    counts metrics. *)
Theorem displayed_heatmap_matches_summary (typeErrorMessage : jstring)
    (now : Z) (pfs : list Domain.ParsedFile) (fds : list FileData)
    (r : Domain.AnalysisResults) :
  Forall2
    (fun pf fd =>
       exists (uploaded : Z) (s : jstring) (sizeBytes : option float),
         plainText s
         /\ ParsingService.parseFile typeErrorMessage uploaded (name fd)
              (Text s) sizeBytes = Domain.Normal pf
         /\ parseVngText (Text s) = Returned (data fd)
         /\ cleanFile fd)
    pfs fds ->
  AnalysisService.analyzeFiles typeErrorMessage now pfs = Domain.Normal r ->
  exists res : Results,
    runAnalysis fds = Returned res
    /\ App.convertAnalysisResultsToDict r = Returned res
    /\ App.convertParsedFilesToDict pfs = Returned fds
    /\ VisualizationService.fileNames
         (VisualizationService.createHeatmap res fds)
       = Domain.name <$> pfs
    /\ length (VisualizationService.categories
                 (VisualizationService.createHeatmap res fds))
       = Domain.totalMetrics r.
Proof.
  intros Hfiles Hrun.
  apply parsed_files_legacy in Hfiles.
  pose proof (Array_map_legacy _ _ Hfiles) as Hmap.
  apply analyzeFiles_Normal in Hrun as (fds' & res & Hmap' & Hrun & ->).
  rewrite Hmap in Hmap'. injection Hmap' as <-.
  exists res. split; [exact Hrun|]. split; [|split; [exact Hmap|]].
  - apply convertAnalysisResultsToDict_asAnalysisResults.
    eapply runAnalysis_tidy. exact Hrun.
  - rewrite createHeatmap_rows. unfold heatmapWith.
    cbn [VisualizationService.fileNames VisualizationService.categories
         Domain.totalMetrics].
    split.
    + clear -Hfiles. induction Hfiles as [|pf fd pfs fds [Hname _] _ IH];
        [reflexivity|].
      rewrite !fmap_cons, IH, Hname. reflexivity.
    + rewrite length_fmap. apply heatmapRows_length.
Qed.

Lemma displayed_heatmap_matches_summary_witness :
  exists res : Results,
    runAnalysis [firstVisit; secondVisit] = Returned res
    /\ App.convertAnalysisResultsToDict
         {| Domain.results := asAnalysisResults visitsAnalysis;
            Domain.fileCount := 2;
            Domain.totalMetrics := 1;
            Domain.createdAt := 5 |}
       = Returned res
    /\ App.convertParsedFilesToDict
         [parsedVisit firstVisit; parsedVisit secondVisit]
       = Returned [firstVisit; secondVisit]
    /\ VisualizationService.fileNames
         (VisualizationService.createHeatmap res [firstVisit; secondVisit])
       = Domain.name <$> [parsedVisit firstVisit; parsedVisit secondVisit]
    /\ length (VisualizationService.categories
                 (VisualizationService.createHeatmap res
                    [firstVisit; secondVisit]))
       = 1.
Proof.
  apply (displayed_heatmap_matches_summary (js "TypeError") 5
           [parsedVisit firstVisit; parsedVisit secondVisit]
           [firstVisit; secondVisit]
           {| Domain.results := asAnalysisResults visitsAnalysis;
              Domain.fileCount := 2;
              Domain.totalMetrics := 1;
              Domain.createdAt := 5 |}).
  - constructor.
    + exists 0%Z,
        (js "Saccades:" ++ LF ++ js "Latency: 200" ++ LF ++ js "Accuracy: 90"),
        None.
      split; [apply (bool_decide_unpack _); vm_compute; exact I|].
      split; [vm_compute; reflexivity|]. split; [vm_compute; reflexivity|].
      apply cleanFile_check. vm_compute. reflexivity.
    + constructor; [|constructor].
      exists 0%Z, (js "Saccades:" ++ LF ++ js "Latency: 250 | FLAG"), None.
      split; [apply (bool_decide_unpack _); vm_compute; exact I|].
      split; [vm_compute; reflexivity|]. split; [vm_compute; reflexivity|].
      apply cleanFile_check. vm_compute. reflexivity.
  - vm_compute. reflexivity.
Defined.

End DisplayFacts.
